(** * Canonizer registry: validation script and index generator

    A shallow embedding of [tools/validate.py] and [tools/generate_index.py].

    - Python values read from YAML and JSON documents are the inductive
      [pyval]; numbers are integers (floating point numbers and YAML
      timestamps are outside the model).
    - The file system is an oracle record [filesystem] queried through
      [pathlib]-like paths; a directory listing is a list of names in the
      order the operating system enumerates them, or an exception; the
      tests [exists()] and [is_dir()] are modelled on the runs in which they
      return.
    - The external collaborators (YAML and JSON parsers, the JSONata
      evaluator, the JSON Schema meta-validator) are the fields of
      [externals].
    - Python exceptions are explicit: pure code lives in [result], the
      validator, which mutates its error and warning lists and prints, lives
      in the state-and-exception monad [V].
    - [hashlib.sha256] is implemented after FIPS 180-4 in module [SHA256]. *)

From Stdlib Require Import ZArith Ascii String Permutation Sorted.
From Stdlib.Strings Require Import Byte.
From Stdlib Require OrderedTypeEx.
From stdpp Require Import gmap strings list sorting.

#[local] Set Warnings "-register-all,-at-level-200-changed".
Local Open Scope Z_scope.

(** ** Exceptions and results *)

Inductive exn_kind :=
| TypeError | AttributeError | KeyError | ValueError | NameError
| OSError | ParseError | EvaluatorError | JSONSchemaValidationError.

Record exn := Exn { exn_kind_of : exn_kind; exn_msg : string }.

Inductive result (A : Type) :=
| Return (a : A)
| Raise (e : exn).
Arguments Return {A} a.
Arguments Raise {A} e.

Definition rbind {A B} (m : result A) (k : A -> result B) : result B :=
  match m with
  | Return a => k a
  | Raise e => Raise e
  end.

Declare Scope result_scope.
Delimit Scope result_scope with res.
Notation "'let?' x ':=' m 'in' k" := (rbind m (fun x => k))
  (at level 10, x pattern, m at level 100, k at level 200) : result_scope.

Definition is_Return {A} (r : result A) : bool :=
  match r with Return _ => true | Raise _ => false end.

(** ** Strings *)

Definition str_eqb (a b : string) : bool := String.eqb a b.

Fixpoint str_prefix (p s : string) : bool :=
  match p, s with
  | EmptyString, _ => true
  | String a p', String b s' => Ascii.eqb a b && str_prefix p' s'
  | String _ _, EmptyString => false
  end.

(** [sub in s] on Python strings. *)
Fixpoint str_contains (sub s : string) : bool :=
  str_prefix sub s ||
  match s with
  | EmptyString => false
  | String _ s' => str_contains sub s'
  end.

(** [s.startswith(".")] *)
Definition startswith_dot (s : string) : bool := str_prefix "." s.

Fixpoint str_join (sep : string) (l : list string) : string :=
  match l with
  | [] => EmptyString
  | [x] => x
  | x :: l' => x +:+ sep +:+ str_join sep l'
  end.

Fixpoint str_split_slash_aux (cur : string) (s : string) : list string :=
  match s with
  | EmptyString => [cur]
  | String c s' =>
      if Ascii.eqb c "/"%char then cur :: str_split_slash_aux EmptyString s'
      else str_split_slash_aux (cur +:+ String c EmptyString) s'
  end.

(** [s.split("/")] *)
Definition str_split_slash (s : string) : list string :=
  str_split_slash_aux EmptyString s.

Fixpoint str_rev_aux (s acc : string) : string :=
  match s with
  | EmptyString => acc
  | String c s' => str_rev_aux s' (String c acc)
  end.
Definition str_rev (s : string) : string := str_rev_aux s EmptyString.

(** [s.endswith(suffix)] *)
Definition str_suffix (suffix s : string) : bool :=
  str_prefix (str_rev suffix) (str_rev s).

(** Position of the last ["."] of [s], counted from the left, if any. *)
Fixpoint str_rfind_dot (s : string) : option nat :=
  match s with
  | EmptyString => None
  | String c s' =>
      match str_rfind_dot s' with
      | Some i => Some (S i)
      | None => if Ascii.eqb c "."%char then Some 0%nat else None
      end
  end.

Fixpoint str_take (n : nat) (s : string) : string :=
  match n, s with
  | O, _ => EmptyString
  | S n', String c s' => String c (str_take n' s')
  | S _, EmptyString => EmptyString
  end.

(** Decimal rendering of an integer, as [str(int)] gives it. *)
Fixpoint pos_digits (fuel : nat) (n : N) (acc : string) : string :=
  match fuel with
  | O => acc
  | S fuel' =>
      let d := ascii_of_N (48 + n mod 10)%N in
      let acc' := String d acc in
      if (n / 10 =? 0)%N then acc' else pos_digits fuel' (n / 10)%N acc'
  end.

Definition str_of_N (n : N) : string :=
  pos_digits (S (N.to_nat (N.log2 n))) n EmptyString.

Definition str_of_Z (z : Z) : string :=
  match z with
  | Z0 => "0"
  | Zpos p => str_of_N (Npos p)
  | Zneg p => "-" +:+ str_of_N (Npos p)
  end.

Definition str_of_nat (n : nat) : string := str_of_N (N.of_nat n).

(** ** Python values

    What [yaml.safe_load] and [json.load] return. A mapping keeps its items
    in insertion order; lookups take the first item whose key is equal. *)

Inductive pyval :=
| PNone
| PBool (b : bool)
| PInt (z : Z)
| PStr (s : string)
| PList (l : list pyval)
| PDict (d : list (pyval * pyval)).

(** [a == b] *)
Fixpoint py_eq (a b : pyval) {struct a} : bool :=
  match a, b with
  | PNone, PNone => true
  | PBool x, PBool y => Bool.eqb x y
  | PBool x, PInt z => Z.b2z x =? z
  | PInt z, PBool x => z =? Z.b2z x
  | PInt x, PInt y => x =? y
  | PStr x, PStr y => str_eqb x y
  | PList xs, PList ys =>
      (fix go (xs ys : list pyval) {struct xs} : bool :=
         match xs, ys with
         | [], [] => true
         | x :: xs', y :: ys' => py_eq x y && go xs' ys'
         | _, _ => false
         end) xs ys
  | PDict d1, PDict d2 =>
      (length d1 =? length d2)%nat &&
      (fix all (d : list (pyval * pyval)) {struct d} : bool :=
         match d with
         | [] => true
         | (k, v) :: d' =>
             (fix find (e : list (pyval * pyval)) : bool :=
                match e with
                | [] => false
                | (k', v') :: e' => if py_eq k k' then py_eq v v' else find e'
                end) d2
             && all d'
         end) d1
  | _, _ => false
  end.

(** [a < b]; [None] stands for the [TypeError] Python raises when the
    operands do not support the comparison. *)
Definition num_of (v : pyval) : option Z :=
  match v with
  | PBool b => Some (Z.b2z b)
  | PInt z => Some z
  | _ => None
  end.

Fixpoint py_lt (a b : pyval) {struct a} : option bool :=
  match a, b with
  | PStr x, PStr y => Some (String.ltb x y)
  | PList xs, PList ys =>
      (fix go (xs ys : list pyval) {struct xs} : option bool :=
         match xs, ys with
         | [], [] => Some false
         | [], _ :: _ => Some true
         | _ :: _, [] => Some false
         | x :: xs', y :: ys' =>
             if py_eq x y then go xs' ys' else py_lt x y
         end) xs ys
  | _, _ =>
      match num_of a, num_of b with
      | Some x, Some y => Some (x <? y)
      | _, _ => None
      end
  end.

Definition dict_find (k : string) (d : list (pyval * pyval)) : option pyval :=
  snd <$> List.find (fun kv => py_eq (PStr k) (fst kv)) d.

Definition type_name (v : pyval) : string :=
  match v with
  | PNone => "NoneType"
  | PBool _ => "bool"
  | PInt _ => "int"
  | PStr _ => "str"
  | PList _ => "list"
  | PDict _ => "dict"
  end.

(** [k in v] for a string [k] *)
Definition py_in (k : string) (v : pyval) : result bool :=
  match v with
  | PDict d => Return (bool_decide (is_Some (dict_find k d)))
  | PList l => Return (existsb (py_eq (PStr k)) l)
  | PStr s => Return (str_contains k s)
  | _ => Raise (Exn TypeError ("argument of type '" +:+ type_name v +:+ "' is not iterable"))
  end.

(** [v.get(k, default)] *)
Definition py_get (v : pyval) (k : string) (dflt : pyval) : result pyval :=
  match v with
  | PDict d => Return (default dflt (dict_find k d))
  | _ => Raise (Exn AttributeError ("'" +:+ type_name v +:+ "' object has no attribute 'get'"))
  end.

(** [v[k]] for a string [k] *)
Definition py_getitem (v : pyval) (k : string) : result pyval :=
  match v with
  | PDict d =>
      match dict_find k d with
      | Some x => Return x
      | None => Raise (Exn KeyError ("'" +:+ k +:+ "'"))
      end
  | PList _ => Raise (Exn TypeError "list indices must be integers or slices, not str")
  | PStr _ => Raise (Exn TypeError "string indices must be integers, not 'str'")
  | _ => Raise (Exn TypeError ("'" +:+ type_name v +:+ "' object is not subscriptable"))
  end.

Fixpoint str_chars (s : string) : list pyval :=
  match s with
  | EmptyString => []
  | String c s' => PStr (String c EmptyString) :: str_chars s'
  end.

(** The items [for x in v] visits. *)
Definition py_iter (v : pyval) : result (list pyval) :=
  match v with
  | PList l => Return l
  | PDict d => Return (fst <$> d)
  | PStr s => Return (str_chars s)
  | _ => Raise (Exn TypeError ("'" +:+ type_name v +:+ "' object is not iterable"))
  end.

(** ** SHA-256 (FIPS 180-4), as [hashlib.sha256(data).hexdigest()] *)

Module SHA256.

Definition w32 (x : Z) : Z := x mod 2 ^ 32.
Definition rotr (n x : Z) : Z := w32 (Z.lor (Z.shiftr x n) (Z.shiftl x (32 - n))).
Definition shr (n x : Z) : Z := Z.shiftr x n.
Definition Ch (x y z : Z) : Z := Z.lxor (Z.land x y) (Z.land (Z.lxor x (2 ^ 32 - 1)) z).
Definition Maj (x y z : Z) : Z := Z.lxor (Z.lxor (Z.land x y) (Z.land x z)) (Z.land y z).
Definition Sigma0 (x : Z) : Z := Z.lxor (Z.lxor (rotr 2 x) (rotr 13 x)) (rotr 22 x).
Definition Sigma1 (x : Z) : Z := Z.lxor (Z.lxor (rotr 6 x) (rotr 11 x)) (rotr 25 x).
Definition sigma0 (x : Z) : Z := Z.lxor (Z.lxor (rotr 7 x) (rotr 18 x)) (shr 3 x).
Definition sigma1 (x : Z) : Z := Z.lxor (Z.lxor (rotr 17 x) (rotr 19 x)) (shr 10 x).

(** The constants of the algorithm are defined from the first 64 primes:
    the round constants are the first 32 bits of the fractional parts of
    their cube roots, the initial hash value those of the square roots of
    the first eight. *)
Fixpoint has_divisor (fuel : nat) (d n : Z) : bool :=
  match fuel with
  | O => false
  | S fuel' =>
      if n <? d * d then false
      else if n mod d =? 0 then true
      else has_divisor fuel' (d + 1) n
  end.

Definition is_prime (n : Z) : bool := (2 <=? n) && negb (has_divisor 20 2 n).

Definition primes : list Z :=
  Eval vm_compute in List.filter is_prime (Z.of_nat <$> List.seq 0 312).

(** The integer cube root, one bit at a time from bit [n - 1] down. *)
Fixpoint cube_root_bits (n : nat) (x acc : Z) : Z :=
  match n with
  | O => acc
  | S n' =>
      let candidate := acc + 2 ^ Z.of_nat n' in
      cube_root_bits n' x (if candidate * candidate * candidate <=? x then candidate else acc)
  end.

Definition K : list Z :=
  Eval vm_compute in (fun p => w32 (cube_root_bits 40 (p * 2 ^ 96) 0)) <$> primes.

(** The eight working words. *)
Record regs := Regs { ra : Z; rb : Z; rc : Z; rd : Z; re : Z; rf : Z; rg : Z; rh : Z }.

Definition initial_word (i : nat) : Z :=
  w32 (Z.sqrt (List.nth i primes 0 * 2 ^ 64)).

Definition H0 : regs :=
  Eval vm_compute in
    Regs (initial_word 0) (initial_word 1) (initial_word 2) (initial_word 3)
         (initial_word 4) (initial_word 5) (initial_word 6) (initial_word 7).

Definition byte_val (b : byte) : Z := Z.of_N (Byte.to_N b).

(** Big-endian bytes of [x], [n] of them. *)
Fixpoint be_bytes (n : nat) (x : Z) : list Z :=
  match n with
  | O => []
  | S n' => (Z.shiftr x (8 * Z.of_nat n')) mod 256 :: be_bytes n' x
  end.

Definition pad (msg : list Z) : list Z :=
  let len := Z.of_nat (length msg) in
  let zeros := Z.to_nat ((55 - len) mod 64) in
  msg ++ [0x80] ++ List.repeat 0 zeros ++ be_bytes 8 (8 * len).

Fixpoint words_of (fuel : nat) (bs : list Z) : list Z :=
  match fuel, bs with
  | S fuel', b0 :: b1 :: b2 :: b3 :: rest =>
      (Z.shiftl b0 24 + Z.shiftl b1 16 + Z.shiftl b2 8 + b3) :: words_of fuel' rest
  | _, _ => []
  end.

Fixpoint blocks_of (fuel : nat) (ws : list Z) : list (list Z) :=
  match fuel, ws with
  | S fuel', _ :: _ => List.firstn 16 ws :: blocks_of fuel' (List.skipn 16 ws)
  | _, _ => []
  end.

(** Message schedule: [rev_w] holds W[t-1], W[t-2], ... *)
Fixpoint schedule (n : nat) (rev_w : list Z) : list Z :=
  match n with
  | O => rev_w
  | S n' =>
      let w := w32 (sigma1 (List.nth 1 rev_w 0) + List.nth 6 rev_w 0
                    + sigma0 (List.nth 14 rev_w 0) + List.nth 15 rev_w 0) in
      schedule n' (w :: rev_w)
  end.

Definition round (r : regs) (kw : Z * Z) : regs :=
  let t1 := w32 (rh r + Sigma1 (re r) + Ch (re r) (rf r) (rg r) + fst kw + snd kw) in
  let t2 := w32 (Sigma0 (ra r) + Maj (ra r) (rb r) (rc r)) in
  Regs (w32 (t1 + t2)) (ra r) (rb r) (rc r) (w32 (rd r + t1)) (re r) (rf r) (rg r).

Definition compress (h : regs) (block : list Z) : regs :=
  let w := List.rev (schedule 48 (List.rev block)) in
  let r := List.fold_left round (List.combine K w) h in
  Regs (w32 (ra h + ra r)) (w32 (rb h + rb r)) (w32 (rc h + rc r)) (w32 (rd h + rd r))
       (w32 (re h + re r)) (w32 (rf h + rf r)) (w32 (rg h + rg r)) (w32 (rh h + rh r)).

Definition digest_regs (data : list byte) : regs :=
  let bs := pad (byte_val <$> data) in
  let ws := words_of (length bs) bs in
  List.fold_left compress (blocks_of (length ws) ws) H0.

(** The digest read as one 256-bit big-endian number. *)
Definition regs_num (r : regs) : Z :=
  ((((((ra r * 2 ^ 32 + rb r) * 2 ^ 32 + rc r) * 2 ^ 32 + rd r) * 2 ^ 32 + re r)
      * 2 ^ 32 + rf r) * 2 ^ 32 + rg r) * 2 ^ 32 + rh r.

Definition digest_num (data : list byte) : Z := regs_num (digest_regs data).

Definition hex_digit (d : Z) : ascii :=
  if d <? 10 then ascii_of_N (Z.to_N (48 + d)) else ascii_of_N (Z.to_N (87 + d)).

(** [n] lowercase hexadecimal digits of [x], most significant first. *)
Fixpoint hex_of (n : nat) (x : Z) : string :=
  match n with
  | O => EmptyString
  | S n' => String (hex_digit ((Z.shiftr x (4 * Z.of_nat n')) mod 16)) (hex_of n' x)
  end.

Definition hexdigest (data : list byte) : string := hex_of 64 (digest_num data).

End SHA256.


(** [str(v)], as an f-string renders a value. The [repr] of containers is
    delegated to [repr]. *)
Definition py_str (repr : pyval -> string) (v : pyval) : string :=
  match v with
  | PNone => "None"
  | PBool true => "True"
  | PBool false => "False"
  | PInt z => str_of_Z z
  | PStr s => s
  | _ => repr v
  end.

(** [isinstance(v, dict)] *)
Definition is_dict (v : pyval) : bool :=
  match v with PDict _ => true | _ => false end.

(** ** Paths ([pathlib.PurePosixPath]) *)

Record Path := MkPath { anchor : string; parts : list string }.

Definition path_str (p : Path) : string :=
  match parts p with
  | [] => if str_eqb (anchor p) EmptyString then "." else anchor p
  | _ => anchor p +:+ str_join "/" (parts p)
  end.

(** The child [p / name] for a directory entry [name]. *)
Definition path_child (p : Path) (name : string) : Path :=
  MkPath (anchor p) (parts p ++ [name]).

(** Components of a path string: empty components and ["."] are dropped. *)
Definition path_components (s : string) : list string :=
  List.filter (fun c => negb (str_eqb c EmptyString) && negb (str_eqb c "."))
              (str_split_slash s).

(** [p / s]: an absolute [s] replaces [p]. *)
Definition path_div (p : Path) (s : string) : Path :=
  if str_prefix "/" s then MkPath "/" (path_components s)
  else MkPath (anchor p) (parts p ++ path_components s).

(** [p / v] for a value read from a document. *)
Definition path_div_val (p : Path) (v : pyval) : result Path :=
  match v with
  | PStr s => Return (path_div p s)
  | _ => Raise (Exn TypeError ("unsupported operand type(s) for /: 'PosixPath' and '"
                               +:+ type_name v +:+ "'"))
  end.

(** [p.name] *)
Definition path_name (p : Path) : string := List.last (parts p) EmptyString.

(** [PurePath.stem] of a file name: the name without its last suffix. *)
Definition name_stem (name : string) : string :=
  match str_rfind_dot name with
  | Some i =>
      if (0 <? i)%nat && (i <? String.length name - 1)%nat then str_take i name else name
  | None => name
  end.

Definition path_stem (p : Path) : string := name_stem (path_name p).

Fixpoint strip_prefix (pre l : list string) : option (list string) :=
  match pre, l with
  | [], _ => Some l
  | a :: pre', b :: l' => if str_eqb a b then strip_prefix pre' l' else None
  | _ :: _, [] => None
  end.

(** [p.relative_to(other)] *)
Definition relative_to (p other : Path) : result Path :=
  match (if str_eqb (anchor p) (anchor other) then strip_prefix (parts other) (parts p)
         else None) with
  | Some rest => Return (MkPath EmptyString rest)
  | None => Raise (Exn ValueError ("'" +:+ path_str p +:+ "' is not in the subpath of '"
                                   +:+ path_str other +:+ "'"))
  end.

(** ** The file system

    What the operating system answers. [fs_listdir p] is [os.listdir(p)]: the
    names in [p], in enumeration order, or the [OSError] raised. [fs_read p]
    is [open(p, "rb").read()]. [fs_exists p] and [fs_is_dir p] are what
    [p.exists()] and [p.is_dir()] return. These two calls can also raise (an
    [OSError] other than a missing path: a directory that may not be
    searched, a name that is too long); a run in which one of them raises is
    outside the model, and what is stated of a check is stated of the runs in
    which the check returns. *)

Record filesystem := {
  fs_exists : Path -> bool;
  fs_is_dir : Path -> bool;
  fs_listdir : Path -> result (list string);
  fs_read : Path -> result (list byte);
}.

(** [p.iterdir()] *)
Definition iterdir (fs : filesystem) (p : Path) : result (list Path) :=
  (let? names := fs_listdir fs p in Return (path_child p <$> names))%res.

(** [p.glob("*.json")]: nothing when [p] is no directory or cannot be
    scanned. *)
Definition glob_json (fs : filesystem) (p : Path) : list Path :=
  if fs_is_dir fs p then
    match fs_listdir fs p with
    | Return names => path_child p <$> List.filter (str_suffix ".json") names
    | Raise _ => []
    end
  else [].

(** ** External collaborators *)

Record externals := {
  (** [yaml.safe_load] on the content of a file opened in text mode *)
  yaml_safe_load : list byte -> result pyval;
  (** [json.load] on the content of a file opened in text mode *)
  json_load : list byte -> result pyval;
  (** [f.read()] of a file opened in text mode *)
  decode_text : list byte -> result string;
  (** [jsonata.Jsonata(expression).evaluate(input)] *)
  jsonata_evaluate : string -> pyval -> result pyval;
  (** [json.dumps(v, indent=2)] *)
  json_dumps : pyval -> result string;
  (** [Draft7Validator.check_schema(schema)] *)
  check_schema : pyval -> result unit;
  (** whether [import jsonschema] and [import jsonata] succeeded *)
  JSONSCHEMA_AVAILABLE : bool;
  JSONATA_AVAILABLE : bool;
  (** [repr] of lists and mappings *)
  py_repr : pyval -> string;
}.

(** ** Sorting ([list.sort] and [sorted])

    [stable_sort before l] sorts [l] so that [x] precedes [y] only if
    [before x y], keeping the input order of elements that may go either
    way. *)

Fixpoint sort_insert {A} (before : A -> A -> bool) (x : A) (l : list A) : list A :=
  match l with
  | [] => [x]
  | y :: l' => if before x y then x :: y :: l' else y :: sort_insert before x l'
  end.

Definition stable_sort {A} (before : A -> A -> bool) (l : list A) : list A :=
  List.fold_right (sort_insert before) [] l.

Fixpoint mapM {A B} (f : A -> result B) (l : list A) : result (list B) :=
  match l with
  | [] => Return []
  | x :: l' => (let? y := f x in let? ys := mapM f l' in Return (y :: ys))%res
  end.

(** Whether [a < b] and [b < a] are both defined. *)
Definition comparable (a b : pyval) : bool :=
  bool_decide (is_Some (py_lt a b)) && bool_decide (is_Some (py_lt b a)).

Definition all_comparable (keys : list pyval) : bool :=
  forallb (fun a => forallb (comparable a) keys) keys.

Definition py_ltb (a b : pyval) : bool := default false (py_lt a b).

(** [l.sort(key=key, reverse=True)]: the keys are computed first; the sort
    raises [TypeError] when keys cannot be compared. A list of at most one
    element is never compared. CPython raises at the first unsupported
    comparison its algorithm performs; for keys that are strings, numbers,
    [None] or mappings it performs one whenever some pair of keys is not
    comparable, which is the condition used here. *)
Definition py_sort_reverse {A} (key : A -> result pyval) (l : list A) : result (list A) :=
  (let? keys := mapM key l in
   if (length l <=? 1)%nat || all_comparable keys then
     Return (snd <$> stable_sort (fun x y => negb (py_ltb (fst x) (fst y))) (List.combine keys l))
   else Raise (Exn TypeError "'<' not supported between instances"))%res.

(** [sorted(l, key=key)] for string keys. *)
Definition sorted_by_str {A} (key : A -> string) (l : list A) : list A :=
  stable_sort (fun x y => negb (String.ltb (key y) (key x))) l.

(** * tools/validate.py *)

(** The validator object, together with what the process has printed. *)
Record RegistryValidator := {
  repo_root : Path;
  transforms_dir : Path;
  schemas_dir : Path;
  errors : list string;
  warnings : list string;
  stdout : list string;
}.

(** ** The monad of the validator: state and exceptions *)

Definition V (A : Type) : Type := RegistryValidator -> result A * RegistryValidator.

Definition vret {A} (a : A) : V A := fun s => (Return a, s).

Definition vbind {A B} (m : V A) (k : A -> V B) : V B :=
  fun s =>
    match m s with
    | (Return a, s') => k a s'
    | (Raise e, s') => (Raise e, s')
    end.

Definition vraise {A} (e : exn) : V A := fun s => (Raise e, s).

Definition vlift {A} (r : result A) : V A := fun s => (r, s).

Definition vget : V RegistryValidator := fun s => (Return s, s).

(** [try: body except Exception as e: handler(e)] *)
Definition try_except {A} (body : V A) (handler : exn -> V A) : V A :=
  fun s =>
    match body s with
    | (Return a, s') => (Return a, s')
    | (Raise e, s') => handler e s'
    end.

Declare Scope V_scope.
Delimit Scope V_scope with V.
Notation "x <- m ;; k" := (vbind m (fun x => k))
  (at level 100, m at next level, right associativity) : V_scope.
Notation "m ;; k" := (vbind m (fun _ => k))
  (at level 100, right associativity) : V_scope.

(** [self.errors.append(msg)] *)
Definition append_error (msg : string) : V unit :=
  fun s => (Return tt,
            {| repo_root := repo_root s; transforms_dir := transforms_dir s;
               schemas_dir := schemas_dir s; errors := errors s ++ [msg];
               warnings := warnings s; stdout := stdout s |}).

(** [self.warnings.append(msg)] *)
Definition append_warning (msg : string) : V unit :=
  fun s => (Return tt,
            {| repo_root := repo_root s; transforms_dir := transforms_dir s;
               schemas_dir := schemas_dir s; errors := errors s;
               warnings := warnings s ++ [msg]; stdout := stdout s |}).

(** [print(line)] *)
Definition print (line : string) : V unit :=
  fun s => (Return tt,
            {| repo_root := repo_root s; transforms_dir := transforms_dir s;
               schemas_dir := schemas_dir s; errors := errors s;
               warnings := warnings s; stdout := stdout s ++ [line] |}).

(** A [for] loop whose body updates the local variables [st]. *)
Fixpoint vfor {A S} (l : list A) (body : A -> S -> V S) (st : S) : V S :=
  match l with
  | [] => vret st
  | x :: l' => (st' <- body x st ;; vfor l' body st')%V
  end.

Fixpoint str_repeat (n : nat) (s : string) : string :=
  match n with
  | O => EmptyString
  | S n' => s +:+ str_repeat n' s
  end.

Definition banner : string := str_repeat 80 "=".

Section Validator.

Context (fs : filesystem) (ext : externals).

Local Open Scope V_scope.

(** What the module prints when it is imported. *)
Definition import_output : list string :=
  (if JSONSCHEMA_AVAILABLE ext then []
   else ["Warning: jsonschema not available, schema validation will be skipped"])
  ++ (if JSONATA_AVAILABLE ext then []
      else ["Warning: jsonata-python not available, golden tests will be skipped"]).

(** [RegistryValidator(repo_root)] *)
Definition RegistryValidator_init (root : Path) : RegistryValidator :=
  {| repo_root := root;
     transforms_dir := path_div root "transforms";
     schemas_dir := path_div root "schemas";
     errors := [];
     warnings := [];
     stdout := import_output |}.

Fixpoint check_structure_loop (required_dirs : list Path) : V bool :=
  match required_dirs with
  | [] => vret true
  | dir_path :: rest =>
      if negb (fs_exists fs dir_path) then
        append_error ("Missing required directory: " +:+ path_str dir_path) ;;
        vret false
      else check_structure_loop rest
  end.

Definition check_structure : V bool :=
  print "Checking directory structure..." ;;
  self <- vget ;;
  let required_dirs :=
    [ transforms_dir self;
      schemas_dir self;
      path_div (repo_root self) "tools";
      path_div (path_div (repo_root self) ".github") "workflows" ] in
  ok <- check_structure_loop required_dirs ;;
  if ok then print "  ✓ Directory structure valid" ;; vret true
  else vret false.

(** [open(path, "r")] followed by a parser. *)
Definition load_with {A} (parse : list byte -> result A) (p : Path) : result A :=
  (let? data := fs_read fs p in parse data)%res.

Definition _compute_sha256 (file_path : Path) : result string :=
  (let? data := fs_read fs file_path in Return (SHA256.hexdigest data))%res.

Definition unit_tag (expected_id expected_version : string) : string :=
  expected_id +:+ "@" +:+ expected_version.

Definition _run_golden_test (jsonata_file input_file expected_file : Path)
    (transform_id version : string) : V bool :=
  try_except
    (expression_str <- vlift (load_with (decode_text ext) jsonata_file) ;;
     input_data <- vlift (load_with (json_load ext) input_file) ;;
     expected_output <- vlift (load_with (json_load ext) expected_file) ;;
     actual_output <- vlift (jsonata_evaluate ext expression_str input_data) ;;
     if negb (py_eq actual_output expected_output) then
       append_error (unit_tag transform_id version +:+ ": Golden test failed") ;;
       append_error ("  Input: " +:+ path_str input_file) ;;
       e <- vlift (json_dumps ext expected_output) ;;
       append_error ("  Expected: " +:+ str_take 200 e +:+ "...") ;;
       a <- vlift (json_dumps ext actual_output) ;;
       append_error ("  Actual: " +:+ str_take 200 a +:+ "...") ;;
       vret false
     else vret true)
    (fun e =>
       append_error (unit_tag transform_id version +:+ ": Golden test error: " +:+ exn_msg e) ;;
       vret false).

Definition required_fields : list string :=
  ["id"; "version"; "engine"; "from_schema"; "to_schema"; "tests"; "checksum";
   "provenance"; "status"].

(** [# Check required fields] *)
Definition check_required_fields (meta : pyval) (tag : string) (success : bool) : V bool :=
  vfor required_fields
    (fun field success =>
       present <- vlift (py_in field meta) ;;
       if negb present then
         append_error (tag +:+ ": Missing required field: " +:+ field) ;;
         vret false
       else vret success)
    success.

(** [# Validate ID matches directory] *)
Definition check_id (meta : pyval) (expected_id tag : string) (success : bool) : V bool :=
  declared <- vlift (py_get meta "id" PNone) ;;
  if negb (py_eq declared (PStr expected_id)) then
    got <- vlift (py_get meta "id" PNone) ;;
    append_error (tag +:+ ": ID mismatch (expected " +:+ expected_id +:+ ", got "
                  +:+ py_str (py_repr ext) got +:+ ")") ;;
    vret false
  else vret success.

(** [# Validate version matches directory] *)
Definition check_version (meta : pyval) (expected_version tag : string) (success : bool)
    : V bool :=
  declared <- vlift (py_get meta "version" PNone) ;;
  if negb (py_eq declared (PStr expected_version)) then
    got <- vlift (py_get meta "version" PNone) ;;
    append_error (tag +:+ ": Version mismatch (expected " +:+ expected_version +:+ ", got "
                  +:+ py_str (py_repr ext) got +:+ ")") ;;
    vret false
  else vret success.

(** [# Validate engine] *)
Definition check_engine (meta : pyval) (tag : string) (success : bool) : V bool :=
  declared <- vlift (py_get meta "engine" PNone) ;;
  if negb (py_eq declared (PStr "jsonata")) then
    append_error (tag +:+ ": Invalid engine (must be 'jsonata')") ;;
    vret false
  else vret success.

(** ["checksum" in meta and "jsonata_sha256" in meta["checksum"]] *)
Definition declares_digest (meta : pyval) : result bool :=
  (let? has_block := py_in "checksum" meta in
   if has_block then
     let? block := py_getitem meta "checksum" in
     py_in "jsonata_sha256" block
   else Return false)%res.

(** [# Validate checksum] *)
Definition check_checksum (meta : pyval) (jsonata_file : Path) (tag : string)
    (success : bool) : V bool :=
  declared <- vlift (declares_digest meta) ;;
  if declared then
    block <- vlift (py_getitem meta "checksum") ;;
    expected_checksum <- vlift (py_getitem block "jsonata_sha256") ;;
    actual_checksum <- vlift (_compute_sha256 jsonata_file) ;;
    if negb (py_eq expected_checksum (PStr actual_checksum)) then
      append_error (tag +:+ ": Checksum mismatch (expected "
                    +:+ py_str (py_repr ext) expected_checksum
                    +:+ ", got " +:+ actual_checksum +:+ ")") ;;
      vret false
    else vret success
  else vret success.

(** [JSONATA_AVAILABLE and "tests" in meta] *)
Definition runs_golden_tests (meta : pyval) : result bool :=
  if JSONATA_AVAILABLE ext then py_in "tests" meta else Return false.

(** [# Validate golden tests] *)
Definition check_golden_tests (meta : pyval) (transform_dir jsonata_file : Path)
    (expected_id expected_version : string) (success : bool) : V bool :=
  enabled <- vlift (runs_golden_tests meta) ;;
  if enabled then
    tests <- vlift (py_getitem meta "tests") ;;
    test_specs <- vlift (py_iter tests) ;;
    vfor test_specs
      (fun test_spec success =>
         i <- vlift (py_getitem test_spec "input") ;;
         input_file <- vlift (path_div_val transform_dir i) ;;
         e <- vlift (py_getitem test_spec "expect") ;;
         expected_file <- vlift (path_div_val transform_dir e) ;;
         if negb (fs_exists fs input_file) then
           i' <- vlift (py_getitem test_spec "input") ;;
           append_error (unit_tag expected_id expected_version +:+ ": Test input not found: "
                         +:+ py_str (py_repr ext) i') ;;
           vret false
         else if negb (fs_exists fs expected_file) then
           e' <- vlift (py_getitem test_spec "expect") ;;
           append_error (unit_tag expected_id expected_version
                         +:+ ": Test expected output not found: "
                         +:+ py_str (py_repr ext) e') ;;
           vret false
         else
           passed <- _run_golden_test jsonata_file input_file expected_file
                       expected_id expected_version ;;
           if negb passed then vret false else vret success)
      success
  else vret success.

Definition _validate_transform (transform_dir : Path) (expected_id expected_version : string)
    : V bool :=
  let success := true in
  let tag := unit_tag expected_id expected_version in
  let jsonata_file := path_div transform_dir "spec.jsonata" in
  let meta_file := path_div transform_dir "spec.meta.yaml" in
  let tests_dir := path_div transform_dir "tests" in
  if negb (fs_exists fs jsonata_file) then
    append_error (tag +:+ ": Missing spec.jsonata") ;; vret false
  else if negb (fs_exists fs meta_file) then
    append_error (tag +:+ ": Missing spec.meta.yaml") ;; vret false
  else if negb (fs_exists fs tests_dir) || negb (fs_is_dir fs tests_dir) then
    append_error (tag +:+ ": Missing tests/ directory") ;; vret false
  else
    match load_with (yaml_safe_load ext) meta_file with
    | Raise e =>
        append_error (tag +:+ ": Invalid YAML: " +:+ exn_msg e) ;; vret false
    | Return meta =>
        success <- check_required_fields meta tag success ;;
        success <- check_id meta expected_id tag success ;;
        success <- check_version meta expected_version tag success ;;
        success <- check_engine meta tag success ;;
        success <- check_checksum meta jsonata_file tag success ;;
        success <- check_golden_tests meta transform_dir jsonata_file
                     expected_id expected_version success ;;
        vret success
    end.

(** The local variables of [check_transforms]. *)
Record transforms_locals := {
  transform_ids : gset (string * string);
  transform_count : nat;
  tl_success : bool;
}.

(** The body of the innermost loop of [check_transforms]. *)
Definition check_version_dir (category_dir transform_dir version_dir : Path)
    (st : transforms_locals) : V transforms_locals :=
  if negb (fs_is_dir fs version_dir) || startswith_dot (path_name version_dir) then vret st
  else
    let transform_id := path_name category_dir +:+ "/" +:+ path_name transform_dir in
    let version := path_name version_dir in
    if bool_decide ((transform_id, version) ∈ transform_ids st) then
      append_error ("Duplicate transform: " +:+ transform_id +:+ "@" +:+ version) ;;
      vret {| transform_ids := transform_ids st;
              transform_count := transform_count st;
              tl_success := false |}
    else
      let ids := transform_ids st ∪ {[ (transform_id, version) ]} in
      ok <- _validate_transform version_dir transform_id version ;;
      if negb ok then
        vret {| transform_ids := ids; transform_count := transform_count st;
                tl_success := false |}
      else
        vret {| transform_ids := ids; transform_count := S (transform_count st);
                tl_success := tl_success st |}.

Definition check_transform_dir (category_dir transform_dir : Path)
    (st : transforms_locals) : V transforms_locals :=
  if negb (fs_is_dir fs transform_dir) || startswith_dot (path_name transform_dir) then vret st
  else
    version_dirs <- vlift (iterdir fs transform_dir) ;;
    vfor version_dirs (check_version_dir category_dir transform_dir) st.

Definition check_category_dir (category_dir : Path)
    (st : transforms_locals) : V transforms_locals :=
  if negb (fs_is_dir fs category_dir) || startswith_dot (path_name category_dir) then vret st
  else
    dirs <- vlift (iterdir fs category_dir) ;;
    vfor dirs (check_transform_dir category_dir) st.

Definition check_transforms : V bool :=
  print "Checking transforms..." ;;
  self <- vget ;;
  if negb (fs_exists fs (transforms_dir self)) then
    append_error ("Transforms directory not found: " +:+ path_str (transforms_dir self)) ;;
    vret false
  else
    category_dirs <- vlift (iterdir fs (transforms_dir self)) ;;
    st <- vfor category_dirs check_category_dir
            {| transform_ids := ∅; transform_count := 0; tl_success := true |} ;;
    print ("  ✓ Validated " +:+ str_of_nat (transform_count st) +:+ " transforms") ;;
    vret (tl_success st).

Definition _validate_schema (schema_file : Path) : V bool :=
  try_except
    (schema <- vlift (load_with (json_load ext) schema_file) ;;
     if negb (is_dict schema) then
       append_error (path_str schema_file +:+ ": Schema must be a JSON object") ;;
       vret false
     else
       declared <- vlift (py_in "$schema" schema) ;;
       (if negb declared then
          append_warning (path_str schema_file +:+ ": Missing $schema field (recommended)")
        else vret tt) ;;
       (if JSONSCHEMA_AVAILABLE ext then vlift (check_schema ext schema) else vret tt) ;;
       vret true)
    (fun e =>
       (* the name JSONSchemaValidationError is bound only when the import
          of jsonschema succeeded *)
       if negb (JSONSCHEMA_AVAILABLE ext) then
         vraise (Exn NameError "name 'JSONSchemaValidationError' is not defined")
       else
         match exn_kind_of e with
         | JSONSchemaValidationError =>
             append_error (path_str schema_file +:+ ": Invalid JSON Schema: " +:+ exn_msg e) ;;
             vret false
         | _ =>
             append_error (path_str schema_file +:+ ": Error validating schema: "
                           +:+ exn_msg e) ;;
             vret false
         end).

(** The local variables of [check_schemas]: [(schema_count, success)]. *)
Definition check_schema_file (schema_file : Path) (st : nat * bool) : V (nat * bool) :=
  ok <- _validate_schema schema_file ;;
  if negb ok then vret (fst st, false) else vret (S (fst st), snd st).

Definition check_schema_dir (schema_dir : Path) (st : nat * bool) : V (nat * bool) :=
  if negb (fs_is_dir fs schema_dir) || startswith_dot (path_name schema_dir) then vret st
  else
    let jsonschema_dir := path_div schema_dir "jsonschema" in
    if negb (fs_exists fs jsonschema_dir) then vret st
    else vfor (glob_json fs jsonschema_dir) check_schema_file st.

Definition check_vendor_dir (vendor_dir : Path) (st : nat * bool) : V (nat * bool) :=
  if negb (fs_is_dir fs vendor_dir) || startswith_dot (path_name vendor_dir) then vret st
  else
    dirs <- vlift (iterdir fs vendor_dir) ;;
    vfor dirs check_schema_dir st.

Definition check_schemas : V bool :=
  print "Checking schemas..." ;;
  self <- vget ;;
  if negb (fs_exists fs (schemas_dir self)) then
    append_warning ("Schemas directory not found: " +:+ path_str (schemas_dir self)) ;;
    print "  ⚠ No schemas to validate" ;;
    vret true
  else
    vendor_dirs <- vlift (iterdir fs (schemas_dir self)) ;;
    st <- vfor vendor_dirs check_vendor_dir (0%nat, true) ;;
    print ("  ✓ Validated " +:+ str_of_nat (fst st) +:+ " schemas") ;;
    vret (snd st).

Definition validate_all : V bool :=
  print banner ;;
  print "CANONIZER REGISTRY VALIDATION" ;;
  print banner ;;
  print EmptyString ;;
  let success := true in
  ok <- check_structure ;;
  let success := success && ok in
  ok <- check_transforms ;;
  let success := success && ok in
  ok <- check_schemas ;;
  let success := success && ok in
  print EmptyString ;;
  print banner ;;
  (if success then print "✅ ALL VALIDATIONS PASSED"
   else
     print "❌ VALIDATION FAILED" ;;
     print EmptyString ;;
     self <- vget ;;
     print ("Errors: " +:+ str_of_nat (length (errors self))) ;;
     vfor (errors self) (fun error (_ : unit) => print ("  - " +:+ error)) tt) ;;
  print banner ;;
  vret success.

(** The command line of [main]. *)
Record arguments := {
  arg_repo_root : Path;
  arg_check_structure : bool;
  arg_check_transforms : bool;
  arg_check_schemas : bool;
}.

(** [main()] from the point where [parser.parse_args()] has returned
    [args]: the exit status of the process and the final state. An exception
    that reaches the top level ends the process with status 1. The call of
    the parser itself is in [main_process] below. *)
Definition main (args : arguments) : Z * RegistryValidator :=
  let validator := RegistryValidator_init (arg_repo_root args) in
  let run :=
    if arg_check_structure args then check_structure
    else if arg_check_transforms args then check_transforms
    else if arg_check_schemas args then check_schemas
    else validate_all in
  match run validator with
  | (Return success, s) => (if success then 0 else 1, s)
  | (Raise _, s) => (1, s)
  end.

End Validator.

(** * tools/generate_index.py

    The messages the generator prints have no effect on the index it
    returns and are left out. *)

(** A version entry of the index: a Python dict with string keys, in
    insertion order. *)
Definition version_entry : Type := list (string * pyval).

(** [entry[k] = v] *)
Fixpoint entry_set (k : string) (v : pyval) (e : version_entry) : version_entry :=
  match e with
  | [] => [(k, v)]
  | (k', v') :: e' => if str_eqb k k' then (k, v) :: e' else (k', v') :: entry_set k v e'
  end.

(** [entry[k]] *)
Definition entry_getitem (k : string) (e : version_entry) : result pyval :=
  match List.find (fun kv => str_eqb k (fst kv)) e with
  | Some kv => Return (snd kv)
  | None => Raise (Exn KeyError ("'" +:+ k +:+ "'"))
  end.

(** [k in entry] *)
Definition entry_has (k : string) (e : version_entry) : bool :=
  existsb (fun kv => str_eqb k (fst kv)) e.

(** [{"id": ..., "versions": ...}] *)
Record transform_entry := {
  te_id : string;
  te_versions : list version_entry;
}.

(** [{"uri": ..., "path": ...}] *)
Record schema_entry := {
  se_uri : string;
  se_path : string;
}.

(** The document [generate] returns. *)
Record registry_index := {
  ix_version : string;
  ix_generated_at : string;
  ix_transforms : list transform_entry;
  ix_schemas : list schema_entry;
}.

Record IndexGenerator := {
  ig_repo_root : Path;
  ig_transforms_dir : Path;
  ig_schemas_dir : Path;
}.

(** [IndexGenerator(repo_root)] *)
Definition IndexGenerator_init (root : Path) : IndexGenerator :=
  {| ig_repo_root := root;
     ig_transforms_dir := path_div root "transforms";
     ig_schemas_dir := path_div root "schemas" |}.

(** A [for] loop of pure code whose body updates the local variables. *)
Fixpoint rfor {A S} (l : list A) (body : A -> S -> result S) (st : S) : result S :=
  match l with
  | [] => Return st
  | x :: l' => (let? st' := body x st in rfor l' body st')%res
  end.

Section IndexGenerator.

Context (fs : filesystem) (ext : externals) (self : IndexGenerator).

Local Open Scope res.

(** The body of the [try] block of [_read_transform_meta]. *)
Definition build_version_entry (version_dir meta_file : Path) : result version_entry :=
  let? meta := (let? data := fs_read fs meta_file in yaml_safe_load ext data) in
  let? rel_path := relative_to version_dir (ig_repo_root self) in
  let? version := py_get meta "version" PNone in
  let? from_schema := py_get meta "from_schema" PNone in
  let? to_schema := py_get meta "to_schema" PNone in
  let? status := py_get meta "status" (PStr "draft") in
  let version_entry : version_entry :=
    [ ("version", version);
      ("from_schema", from_schema);
      ("to_schema", to_schema);
      ("status", status);
      ("path", PStr (path_str rel_path +:+ "/")) ] in
  let? has_checksum := py_in "checksum" meta in
  let? version_entry :=
    (if has_checksum then
       let? c := py_getitem meta "checksum" in
       Return (entry_set "checksum" c version_entry)
     else Return version_entry) in
  let? has_provenance := py_in "provenance" meta in
  let? version_entry :=
    (if has_provenance then
       let? p := py_getitem meta "provenance" in
       let? author := py_get p "author" (PStr "Unknown") in
       let version_entry := entry_set "author" author version_entry in
       let? p := py_getitem meta "provenance" in
       let? created := py_get p "created_utc" PNone in
       Return (entry_set "created_utc" created version_entry)
     else Return version_entry) in
  let? has_compat := py_in "compat" meta in
  let? has_range :=
    (if has_compat then
       let? c := py_getitem meta "compat" in py_in "from_schema_range" c
     else Return false) in
  let? version_entry :=
    (if has_range then
       let? c := py_getitem meta "compat" in
       let? r := py_getitem c "from_schema_range" in
       Return (entry_set "compat" (PDict [(PStr "from_schema_range", r)]) version_entry)
     else Return version_entry) in
  Return version_entry.

(** [None] is Python's [None]. *)
Definition _read_transform_meta (version_dir : Path) : option version_entry :=
  let meta_file := path_div version_dir "spec.meta.yaml" in
  if negb (fs_exists fs meta_file) then None
  else
    match build_version_entry version_dir meta_file with
    | Return version_entry => Some version_entry
    | Raise _ => None
    end.

(** [if version_meta:] a dict is true when it is not empty. *)
Definition truthy (version_meta : option version_entry) : bool :=
  match version_meta with
  | Some (_ :: _) => true
  | _ => false
  end.

Definition collect_version_dir (transform_id : string) (version_dir : Path)
    (all_transforms : gmap string (list version_entry))
    : result (gmap string (list version_entry)) :=
  if negb (fs_is_dir fs version_dir) || startswith_dot (path_name version_dir)
  then Return all_transforms
  else
    let version_meta := _read_transform_meta version_dir in
    if truthy version_meta then
      match version_meta, all_transforms !! transform_id with
      | Some m, Some versions => Return (<[transform_id := versions ++ [m]]> all_transforms)
      | _, _ => Raise (Exn KeyError ("'" +:+ transform_id +:+ "'"))
      end
    else Return all_transforms.

Definition collect_transform_dir (category_dir transform_dir : Path)
    (all_transforms : gmap string (list version_entry))
    : result (gmap string (list version_entry)) :=
  if negb (fs_is_dir fs transform_dir) || startswith_dot (path_name transform_dir)
  then Return all_transforms
  else
    let transform_id := path_name category_dir +:+ "/" +:+ path_name transform_dir in
    let all_transforms :=
      if bool_decide (all_transforms !! transform_id = None)
      then <[transform_id := []]> all_transforms
      else all_transforms in
    let? version_dirs := iterdir fs transform_dir in
    rfor version_dirs (collect_version_dir transform_id) all_transforms.

Definition collect_category_dir (category_dir : Path)
    (all_transforms : gmap string (list version_entry))
    : result (gmap string (list version_entry)) :=
  if negb (fs_is_dir fs category_dir) || startswith_dot (path_name category_dir)
  then Return all_transforms
  else
    let? dirs := iterdir fs category_dir in
    rfor dirs (collect_transform_dir category_dir) all_transforms.

(** [versions.sort(key=lambda v: v["version"], reverse=True)] *)
Definition sort_versions (versions : list version_entry) : result (list version_entry) :=
  py_sort_reverse (entry_getitem "version") versions.

(** [# Convert to list format]; [sorted(all_transforms.items())] orders the
    items by their key, the keys of a dict being distinct. *)
Definition to_list_format (all_transforms : gmap string (list version_entry))
    : result (list transform_entry) :=
  mapM (fun item : string * list version_entry =>
          let? versions := sort_versions (snd item) in
          Return {| te_id := fst item; te_versions := versions |})
       (sorted_by_str fst (map_to_list all_transforms)).

Definition _collect_transforms : result (list transform_entry) :=
  if negb (fs_exists fs (ig_transforms_dir self)) then Return []
  else
    let? category_dirs := iterdir fs (ig_transforms_dir self) in
    let? all_transforms := rfor category_dirs collect_category_dir ∅ in
    to_list_format all_transforms.

Definition collect_schema_file (vendor_dir schema_dir schema_file : Path)
    (schemas : list schema_entry) : result (list schema_entry) :=
  let version_str := path_stem schema_file in
  let uri := "iglu:" +:+ path_name vendor_dir +:+ "/" +:+ path_name schema_dir
             +:+ "/jsonschema/" +:+ version_str in
  let? rel_path := relative_to schema_file (ig_repo_root self) in
  Return (schemas ++ [ {| se_uri := uri; se_path := path_str rel_path |} ]).

Definition collect_schema_dir (vendor_dir schema_dir : Path)
    (schemas : list schema_entry) : result (list schema_entry) :=
  if negb (fs_is_dir fs schema_dir) || startswith_dot (path_name schema_dir)
  then Return schemas
  else
    let jsonschema_dir := path_div schema_dir "jsonschema" in
    if negb (fs_exists fs jsonschema_dir) then Return schemas
    else rfor (glob_json fs jsonschema_dir) (collect_schema_file vendor_dir schema_dir) schemas.

Definition collect_vendor_dir (vendor_dir : Path)
    (schemas : list schema_entry) : result (list schema_entry) :=
  if negb (fs_is_dir fs vendor_dir) || startswith_dot (path_name vendor_dir)
  then Return schemas
  else
    let? dirs := iterdir fs vendor_dir in
    rfor dirs (collect_schema_dir vendor_dir) schemas.

Definition _collect_schemas : result (list schema_entry) :=
  if negb (fs_exists fs (ig_schemas_dir self)) then Return []
  else
    let? vendor_dirs := iterdir fs (ig_schemas_dir self) in
    let? schemas := rfor vendor_dirs collect_vendor_dir [] in
    Return (sorted_by_str se_uri schemas).

(** [generate()]; [now] is [datetime.now(timezone.utc).isoformat()]. *)
Definition generate (now : string) : result registry_index :=
  let? transforms := _collect_transforms in
  let? schemas := _collect_schemas in
  Return {| ix_version := "1.0.0";
            ix_generated_at := now;
            ix_transforms := transforms;
            ix_schemas := schemas |}.

End IndexGenerator.

(** * The traversal

    Both tools walk [transforms/<category>/<name>/<version>] with the same
    three nested loops. The traversal is made explicit here, to state what
    the tools do with what they visit. *)

(** A directory entry the loops do not skip. *)
Definition visible (fs : filesystem) (p : Path) : bool :=
  fs_is_dir fs p && negb (startswith_dot (path_name p)).

(** A visited transform directory, with everything its [iterdir()] yields. *)
Record transform_unit := {
  tu_category : Path;
  tu_transform : Path;
  tu_listing : list Path;
}.

Definition tu_id (u : transform_unit) : string :=
  path_name (tu_category u) +:+ "/" +:+ path_name (tu_transform u).

Definition category_units (fs : filesystem) (category_dir : Path)
    : result (list transform_unit) :=
  (if visible fs category_dir then
     let? dirs := iterdir fs category_dir in
     mapM (fun transform_dir =>
             let? listing := iterdir fs transform_dir in
             Return {| tu_category := category_dir; tu_transform := transform_dir;
                       tu_listing := listing |})
          (List.filter (visible fs) dirs)
   else Return [])%res.

(** The transform directories visited under [transforms_dir], in order. *)
Definition transform_units (fs : filesystem) (transforms_dir : Path)
    : result (list transform_unit) :=
  (let? category_dirs := iterdir fs transforms_dir in
   let? per_category := mapM (category_units fs) category_dirs in
   Return (concat per_category))%res.

(** A visited version directory. *)
Record version_unit := {
  vu_category : Path;
  vu_transform : Path;
  vu_version_dir : Path;
}.

Definition vu_id (u : version_unit) : string :=
  path_name (vu_category u) +:+ "/" +:+ path_name (vu_transform u).

Definition vu_key (u : version_unit) : string * string :=
  (vu_id u, path_name (vu_version_dir u)).

Definition version_units_of (fs : filesystem) (u : transform_unit) : list version_unit :=
  (fun v => {| vu_category := tu_category u; vu_transform := tu_transform u;
               vu_version_dir := v |})
    <$> List.filter (visible fs) (tu_listing u).

(** The version directories visited, in order. *)
Definition version_units (fs : filesystem) (units : list transform_unit)
    : list version_unit :=
  concat (version_units_of fs <$> units).

(** ** An in-memory file system, for concrete registries *)

Inductive node :=
| File (data : list byte)
| Dir (entries : list (string * node)).

Definition entry_lookup (name : string) (entries : list (string * node)) : option node :=
  snd <$> List.find (fun e => str_eqb name (fst e)) entries.

Fixpoint resolve (n : node) (ps : list string) : option node :=
  match ps with
  | [] => Some n
  | p :: ps' =>
      match n with
      | Dir entries =>
          match entry_lookup p entries with
          | Some n' => resolve n' ps'
          | None => None
          end
      | File _ => None
      end
  end.

(** The file system whose root directory is [root]. *)
Definition fs_of_tree (root : node) : filesystem :=
  {| fs_exists := fun p => bool_decide (is_Some (resolve root (parts p)));
     fs_is_dir := fun p =>
       match resolve root (parts p) with Some (Dir _) => true | _ => false end;
     fs_listdir := fun p =>
       match resolve root (parts p) with
       | Some (Dir entries) => Return (fst <$> entries)
       | Some (File _) =>
           Raise (Exn OSError ("[Errno 20] Not a directory: '" +:+ path_str p +:+ "'"))
       | None =>
           Raise (Exn OSError ("[Errno 2] No such file or directory: '" +:+ path_str p +:+ "'"))
       end;
     fs_read := fun p =>
       match resolve root (parts p) with
       | Some (File data) => Return data
       | Some (Dir _) =>
           Raise (Exn OSError ("[Errno 21] Is a directory: '" +:+ path_str p +:+ "'"))
       | None =>
           Raise (Exn OSError ("[Errno 2] No such file or directory: '" +:+ path_str p +:+ "'"))
       end |}.

Definition bytes_of (s : string) : list byte := String.list_byte_of_string s.

(** A parser that knows the documents of [table]. *)
Definition parse_table (table : list (string * pyval)) (data : list byte) : result pyval :=
  match List.find (fun kv => str_eqb (fst kv) (String.string_of_list_byte data)) table with
  | Some kv => Return (snd kv)
  | None => Raise (Exn ParseError "could not parse the document")
  end.

(** Collaborators for concrete registries: the parsers know the documents
    of [yaml_docs] and [json_docs]; the evaluator knows the identity
    expression [$]. *)
Definition table_externals (yaml_docs json_docs : list (string * pyval)) : externals :=
  {| yaml_safe_load := parse_table yaml_docs;
     json_load := parse_table json_docs;
     decode_text := fun data => Return (String.string_of_list_byte data);
     jsonata_evaluate := fun expression input =>
       if str_eqb expression "$" then Return input
       else Raise (Exn EvaluatorError "unsupported expression");
     json_dumps := fun _ => Return "{}";
     check_schema := fun _ => Return tt;
     JSONSCHEMA_AVAILABLE := true;
     JSONATA_AVAILABLE := true;
     py_repr := fun _ => "<object>" |}.

(** [Path("/repo")] *)
Definition repo : Path := MkPath "/" ["repo"].

(** ** Concrete registries *)

Definition nl : string := String (ascii_of_nat 10) EmptyString.

(** The text of a complete [spec.meta.yaml] and the document it parses to. *)
Definition meta_text (id version digest : string) : string :=
  "id: " +:+ id +:+ nl +:+
  "version: " +:+ version +:+ nl +:+
  "engine: jsonata" +:+ nl +:+
  "from_schema: iglu:acme/order/jsonschema/1-0-0" +:+ nl +:+
  "to_schema: iglu:acme/order/jsonschema/1-0-0" +:+ nl +:+
  "tests:" +:+ nl +:+
  "  - input: tests/input.json" +:+ nl +:+
  "    expect: tests/expected.json" +:+ nl +:+
  "checksum:" +:+ nl +:+
  "  jsonata_sha256: " +:+ digest +:+ nl +:+
  "provenance:" +:+ nl +:+
  "  author: Jane" +:+ nl +:+
  "status: published" +:+ nl.

Definition meta_doc (id version digest : string) : pyval :=
  PDict
    [ (PStr "id", PStr id);
      (PStr "version", PStr version);
      (PStr "engine", PStr "jsonata");
      (PStr "from_schema", PStr "iglu:acme/order/jsonschema/1-0-0");
      (PStr "to_schema", PStr "iglu:acme/order/jsonschema/1-0-0");
      (PStr "tests",
       PList [PDict [(PStr "input", PStr "tests/input.json");
                     (PStr "expect", PStr "tests/expected.json")]]);
      (PStr "checksum", PDict [(PStr "jsonata_sha256", PStr digest)]);
      (PStr "provenance", PDict [(PStr "author", PStr "Jane")]);
      (PStr "status", PStr "published") ].

(** The same without a checksum block. *)
Definition meta_text_no_checksum (id version : string) : string :=
  "id: " +:+ id +:+ nl +:+
  "version: " +:+ version +:+ nl +:+
  "engine: jsonata" +:+ nl +:+
  "from_schema: iglu:acme/order/jsonschema/1-0-0" +:+ nl +:+
  "to_schema: iglu:acme/order/jsonschema/1-0-0" +:+ nl +:+
  "tests:" +:+ nl +:+
  "  - input: tests/input.json" +:+ nl +:+
  "    expect: tests/expected.json" +:+ nl +:+
  "provenance:" +:+ nl +:+
  "  author: Jane" +:+ nl +:+
  "status: published" +:+ nl.

Definition meta_doc_no_checksum (id version : string) : pyval :=
  PDict
    [ (PStr "id", PStr id);
      (PStr "version", PStr version);
      (PStr "engine", PStr "jsonata");
      (PStr "from_schema", PStr "iglu:acme/order/jsonschema/1-0-0");
      (PStr "to_schema", PStr "iglu:acme/order/jsonschema/1-0-0");
      (PStr "tests",
       PList [PDict [(PStr "input", PStr "tests/input.json");
                     (PStr "expect", PStr "tests/expected.json")]]);
      (PStr "provenance", PDict [(PStr "author", PStr "Jane")]);
      (PStr "status", PStr "published") ].

(** SHA-256 of the one-byte expression [$]. *)
Definition dollar_digest : string :=
  "09fc96082d34c2dfc1295d92073b5ea1dc8ef8da95f14dfded011ffb96d3e54b".

(** A version directory with the identity expression, the given metadata
    text and one golden test. *)
Definition version_node (meta : string) : node :=
  Dir [ ("spec.jsonata", File (bytes_of "$"));
        ("spec.meta.yaml", File (bytes_of meta));
        ("tests", Dir [ ("input.json", File (bytes_of "{}"));
                        ("expected.json", File (bytes_of "{}")) ]) ].

Definition schemas_node : node :=
  Dir [ ("acme", Dir [ ("order", Dir [ ("jsonschema",
          Dir [ ("1-0-0.json", File (bytes_of "{}")) ]) ]) ]) ].

(** A root directory holding [/repo] with the given transforms. *)
Definition registry_tree (transforms : list (string * node)) : node :=
  Dir [ ("repo", Dir [ ("transforms", Dir transforms);
                       ("schemas", schemas_node);
                       ("tools", Dir []);
                       (".github", Dir [ ("workflows", Dir []) ]) ]) ].

Definition meta_1_0_0 : string := meta_text "payments/normalize_amount" "1.0.0" dollar_digest.
Definition meta_1_1_0 : string := meta_text "payments/normalize_amount" "1.1.0" dollar_digest.

(** The documents the parsers of the examples know. A schema without
    [$schema] is the JSON text [{}]; an empty YAML file loads as [None]. *)
Definition yaml_docs : list (string * pyval) :=
  [ (meta_1_0_0, meta_doc "payments/normalize_amount" "1.0.0" dollar_digest);
    (meta_1_1_0, meta_doc "payments/normalize_amount" "1.1.0" dollar_digest);
    ("version: 1.0.0" +:+ nl, PDict [(PStr "version", PStr "1.0.0")]);
    ("version: 9" +:+ nl, PDict [(PStr "version", PInt 9)]);
    ("version: 10" +:+ nl, PDict [(PStr "version", PInt 10)]);
    ("version: 1.0.0" +:+ nl +:+ "provenance: {}" +:+ nl,
     PDict [(PStr "version", PStr "1.0.0"); (PStr "provenance", PDict [])]);
    ("id: payments/normalize_amount" +:+ nl +:+ "version: 1.0.0" +:+ nl +:+
     "engine: jsonata" +:+ nl,
     PDict [(PStr "id", PStr "payments/normalize_amount"); (PStr "version", PStr "1.0.0");
            (PStr "engine", PStr "jsonata")]);
    (meta_text_no_checksum "payments/normalize_amount" "1.0.0",
     meta_doc_no_checksum "payments/normalize_amount" "1.0.0");
    (EmptyString, PNone) ].

Definition json_docs : list (string * pyval) := [ ("{}", PDict []) ].

Definition ext0 : externals := table_externals yaml_docs json_docs.

(** One transform with two versions, enumerated oldest first. *)
Definition payments_tree : node :=
  registry_tree
    [ ("payments", Dir [ ("normalize_amount",
        Dir [ ("1.0.0", version_node meta_1_0_0);
              ("1.1.0", version_node meta_1_1_0) ]) ]) ].


(** A registry without [tools/], whose only version directory is empty. *)
Definition no_tools_tree : node :=
  Dir [ ("repo", Dir [ ("transforms",
                        Dir [ ("payments", Dir [ ("normalize_amount",
                                Dir [ ("1.0.0", Dir []) ]) ]) ]);
                       ("schemas", schemas_node);
                       (".github", Dir [ ("workflows", Dir []) ]) ]) ].

(** A registry whose only version has an empty [spec.meta.yaml]. *)
Definition empty_meta_tree : node :=
  registry_tree
    [ ("payments", Dir [ ("normalize_amount",
        Dir [ ("1.0.0", version_node EmptyString) ]) ]) ].

(** A registry whose only version declares everything but a checksum. *)
Definition no_checksum_tree : node :=
  registry_tree
    [ ("payments", Dir [ ("normalize_amount",
        Dir [ ("1.0.0",
               version_node (meta_text_no_checksum "payments/normalize_amount" "1.0.0")) ]) ]) ].

(** The version directory of [payments_tree] for version [1.0.0]. *)
Definition version_dir_1_0_0 : Path :=
  MkPath "/" ["repo"; "transforms"; "payments"; "normalize_amount"; "1.0.0"].

(** The registry of [payments_tree] after a space was appended to the
    expression of version [1.0.0]. *)
Definition drifted_tree : node :=
  registry_tree
    [ ("payments", Dir [ ("normalize_amount",
        Dir [ ("1.0.0",
               Dir [ ("spec.jsonata", File (bytes_of "$ "));
                     ("spec.meta.yaml", File (bytes_of meta_1_0_0));
                     ("tests", Dir [ ("input.json", File (bytes_of "{}"));
                                     ("expected.json", File (bytes_of "{}")) ]) ]) ]) ]) ].

(** Transform [a/b] with one version whose metadata has an empty
    provenance block. *)
Definition empty_provenance_tree : node :=
  registry_tree
    [ ("a", Dir [ ("b",
        Dir [ ("1.0.0",
               version_node ("version: 1.0.0" +:+ nl +:+ "provenance: {}" +:+ nl)) ]) ]) ].

(** A traversal that yields the version directory [1.0.0] twice. *)
Definition duplicate_tree : node :=
  registry_tree
    [ ("payments", Dir [ ("normalize_amount",
        Dir [ ("1.0.0", version_node meta_1_0_0);
              ("1.0.0", version_node meta_1_0_0) ]) ]) ].

(** * Vocabulary of the statements *)

(** The paths of the validator never change; its lists only grow. *)
Definition extends (s s' : RegistryValidator) : Prop :=
  repo_root s' = repo_root s /\ transforms_dir s' = transforms_dir s
  /\ schemas_dir s' = schemas_dir s
  /\ (exists e, errors s' = errors s ++ e)
  /\ (exists w, warnings s' = warnings s ++ w)
  /\ (exists o, stdout s' = stdout s ++ o).

(** [mono m]: whatever [m] does, returning or raising, it only appends. *)
Definition mono {A} (m : V A) : Prop :=
  forall s r s', m s = (r, s') -> extends s s'.

(** [post m s Q]: if [m] returns from [s], the value and the final state
    satisfy [Q]. *)
Definition post {A} (m : V A) (s : RegistryValidator)
    (Q : A -> RegistryValidator -> Prop) : Prop :=
  forall a s', m s = (Return a, s') -> Q a s'.

Definition with_error (msg : string) (s : RegistryValidator) : RegistryValidator :=
  snd (append_error msg s).

Definition with_warning (msg : string) (s : RegistryValidator) : RegistryValidator :=
  snd (append_warning msg s).

Definition with_line (line : string) (s : RegistryValidator) : RegistryValidator :=
  snd (print line s).

(** [tracks s0 b s]: since [s0] only appends happened, and the flag [b] is
    still true exactly when no error was appended. *)
Definition tracks (s0 : RegistryValidator) (b : bool) (s : RegistryValidator) : Prop :=
  extends s0 s /\ (b = true <-> errors s = errors s0).

(** A check that threads the flag [success]. *)
Definition threads (m : bool -> V bool) : Prop :=
  forall s0 success s, tracks s0 success s -> post (m success) s (tracks s0).

(** [main] without any of the [--check-*] options. *)
Definition default_arguments (root : Path) : arguments :=
  {| arg_repo_root := root; arg_check_structure := false;
     arg_check_transforms := false; arg_check_schemas := false |}.



(** Every register of a digest is a 32-bit word. *)
Definition regs_in_range (r : SHA256.regs) : Prop :=
  (0 <= SHA256.ra r < 2 ^ 32) /\ (0 <= SHA256.rb r < 2 ^ 32)
  /\ (0 <= SHA256.rc r < 2 ^ 32) /\ (0 <= SHA256.rd r < 2 ^ 32)
  /\ (0 <= SHA256.re r < 2 ^ 32) /\ (0 <= SHA256.rf r < 2 ^ 32)
  /\ (0 <= SHA256.rg r < 2 ^ 32) /\ (0 <= SHA256.rh r < 2 ^ 32).


(** The body of the innermost loop of [check_transforms], on a visited
    version directory. *)
Definition check_version_unit (fs : filesystem) (ext : externals) (u : version_unit)
    (st : transforms_locals) : V transforms_locals :=
  check_version_dir fs ext (vu_category u) (vu_transform u) (vu_version_dir u) st.

(** The local variables of [check_transforms] before its loops. *)
Definition transforms_locals_init : transforms_locals :=
  {| transform_ids := ∅; transform_count := 0; tl_success := true |}.

(** The orders the generator sorts by. *)
Definition str_le (a b : string) : Prop := String.ltb b a = false.

(** The version value of an entry, and its string when it is one. *)
Definition version_key (e : version_entry) : pyval :=
  match entry_getitem "version" e with
  | Return v => v
  | Raise _ => PNone
  end.

Definition version_str (e : version_entry) : option string :=
  match entry_getitem "version" e with
  | Return (PStr s) => Some s
  | _ => None
  end.

(** [sorted_by_str] in descending order. *)
Definition sorted_by_str_desc {A} (key : A -> string) (l : list A) : list A :=
  stable_sort (fun x y => negb (String.ltb (key x) (key y))) l.


(** The version string of an entry whose version is a string. *)
Definition version_string (e : version_entry) : string :=
  default EmptyString (version_str e).

(** The value of a result, or a default. *)
Definition value_or {A} (d : A) (r : result A) : A :=
  match r with
  | Return a => a
  | Raise _ => d
  end.

(** What the generator reads from one entry of a transform directory. *)
Definition readable_entry (fs : filesystem) (ext : externals) (self : IndexGenerator)
    (version_dir : Path) : list version_entry :=
  if visible fs version_dir then
    match _read_transform_meta fs ext self version_dir with
    | Some e => if truthy (Some e) then [e] else []
    | None => []
    end
  else [].

(** The version entries read under a visited transform directory. *)
Definition unit_entries (fs : filesystem) (ext : externals) (self : IndexGenerator)
    (u : transform_unit) : list version_entry :=
  flat_map (readable_entry fs ext self) (tu_listing u).

(** The version entries discovered under the transform id [id]. *)
Definition discovered (fs : filesystem) (ext : externals) (self : IndexGenerator)
    (units : list transform_unit) (id : string) : list version_entry :=
  flat_map (fun u => if bool_decide (tu_id u = id) then unit_entries fs ext self u else [])
           units.

(** The dict [all_transforms] after the visit of [units]. *)
Definition collect_units (fs : filesystem) (ext : externals) (self : IndexGenerator)
    (units : list transform_unit) (m : gmap string (list version_entry))
    : gmap string (list version_entry) :=
  List.fold_left
    (fun m u => <[tu_id u := default [] (m !! tu_id u) ++ unit_entries fs ext self u]> m)
    units m.

(** ** Snapshots of a registry *)

(** What two enumerations of the same directory answer: the same names in
    any order, or an error both times. *)
Definition same_listing (r1 r2 : result (list string)) : Prop :=
  match r1, r2 with
  | Return l1, Return l2 => l1 ≡ₚ l2
  | Raise _, Raise _ => True
  | _, _ => False
  end.

(** Two file systems hold the same snapshot: the same paths exist, with the
    same kinds and contents, and every directory holds the same names; only
    the order of enumeration may differ. *)
Definition same_snapshot (fs1 fs2 : filesystem) : Prop :=
  (forall p, fs_exists fs1 p = fs_exists fs2 p)
  /\ (forall p, fs_is_dir fs1 p = fs_is_dir fs2 p)
  /\ (forall p, fs_read fs1 p = fs_read fs2 p)
  /\ (forall p, same_listing (fs_listdir fs1 p) (fs_listdir fs2 p)).






(** What a path resolves to in two trees that hold the same snapshot. *)
Definition same_resolved (o1 o2 : option node) : Prop :=
  match o1, o2 with
  | None, None => True
  | Some (File d1), Some (File d2) => d1 = d2
  | Some (Dir es1), Some (Dir es2) => fst <$> es1 ≡ₚ fst <$> es2
  | _, _ => False
  end.

Definition same_tree (n1 n2 : node) : Prop :=
  forall ps, same_resolved (resolve n1 ps) (resolve n2 ps).



(** Two schema files whose names have the same stem, in both orders of
    enumeration. *)
Definition twin_schema_tree : node :=
  Dir [ ("repo", Dir [ ("schemas", Dir [ ("acme", Dir [ ("order", Dir [ ("jsonschema",
          Dir [ (".json", File (bytes_of "{}"));
                (".json.json", File (bytes_of "{}")) ]) ]) ]) ]) ]) ].

Definition twin_schema_tree_rev : node :=
  Dir [ ("repo", Dir [ ("schemas", Dir [ ("acme", Dir [ ("order", Dir [ ("jsonschema",
          Dir [ (".json.json", File (bytes_of "{}"));
                (".json", File (bytes_of "{}")) ]) ]) ]) ]) ]) ].

(** The time stamps of two builds. *)
Definition build_time_1 : string := "2024-01-01T00:00:00+00:00".

(** ** Vocabulary of further statements *)

(** The directories [check_structure] requires, in the order it tests
    them. *)
Definition required_dirs (s : RegistryValidator) : list Path :=
  [ transforms_dir s;
    schemas_dir s;
    path_div (repo_root s) "tools";
    path_div (path_div (repo_root s) ".github") "workflows" ].



(** What a golden test computes: whether the expression, evaluated on the
    input document, gives the expected document. *)
Definition golden_outcome (fs : filesystem) (ext : externals)
    (jsonata_file input_file expected_file : Path) : result bool :=
  (let? expression_str := load_with fs (decode_text ext) jsonata_file in
   let? input_data := load_with fs (json_load ext) input_file in
   let? expected_output := load_with fs (json_load ext) expected_file in
   let? actual_output := jsonata_evaluate ext expression_str input_data in
   Return (py_eq actual_output expected_output))%res.

(** The state after [self.errors.append] of each message in turn. *)
Definition with_errors (msgs : list string) (s : RegistryValidator) : RegistryValidator :=
  List.fold_left (fun s msg => with_error msg s) msgs s.

(** The state after [print] of each line in turn. *)
Definition with_lines (lines : list string) (s : RegistryValidator) : RegistryValidator :=
  List.fold_left (fun s line => with_line line s) lines s.

(** [field in meta] for a mapping with the given items. *)
Definition field_present (items : list (pyval * pyval)) (field : string) : bool :=
  bool_decide (is_Some (dict_find field items)).

(** A lowercase hexadecimal digit. *)
Definition lower_hex (c : ascii) : bool :=
  existsb (Ascii.eqb c) (list_ascii_of_string "0123456789abcdef").

(** The shape of [hexdigest()]: 64 lowercase hexadecimal digits. *)
Definition digest_shaped (s : string) : bool :=
  (String.length s =? 64)%nat && forallb lower_hex (list_ascii_of_string s).

(** ** The traversal of the schemas

    Both tools walk [schemas/<vendor>/<name>/jsonschema/*.json] with the
    same loops. *)

(** A visited schema file, by the names of its vendor directory, of its
    schema directory and of the file. *)
Record schema_unit := {
  su_vendor : string;
  su_name : string;
  su_file : string;
}.

(** The path of a visited schema file. *)
Definition su_path (schemas_dir : Path) (u : schema_unit) : Path :=
  path_child
    (path_div (path_child (path_child schemas_dir (su_vendor u)) (su_name u)) "jsonschema")
    (su_file u).

(** The names [p.glob("*.json")] yields. *)
Definition glob_json_names (fs : filesystem) (p : Path) : list string :=
  if fs_is_dir fs p then
    match fs_listdir fs p with
    | Return names => List.filter (str_suffix ".json") names
    | Raise _ => []
    end
  else [].

Definition schema_dir_units (fs : filesystem) (vendor_dir : Path) (vendor name : string)
    : list schema_unit :=
  let schema_dir := path_child vendor_dir name in
  if visible fs schema_dir && fs_exists fs (path_div schema_dir "jsonschema") then
    (fun file => {| su_vendor := vendor; su_name := name; su_file := file |})
      <$> glob_json_names fs (path_div schema_dir "jsonschema")
  else [].

Definition vendor_units (fs : filesystem) (schemas_dir : Path) (vendor : string)
    : result (list schema_unit) :=
  (let vendor_dir := path_child schemas_dir vendor in
   if visible fs vendor_dir then
     let? names := fs_listdir fs vendor_dir in
     Return (flat_map (schema_dir_units fs vendor_dir vendor) names)
   else Return [])%res.

(** The schema files visited under [schemas_dir], in order. *)
Definition schema_units (fs : filesystem) (schemas_dir : Path) : result (list schema_unit) :=
  (let? vendors := fs_listdir fs schemas_dir in
   let? per_vendor := mapM (vendor_units fs schemas_dir) vendors in
   Return (concat per_vendor))%res.

(** The entry of the index for a visited schema file. *)
Definition index_entry_of (u : schema_unit) : schema_entry :=
  {| se_uri := "iglu:" +:+ su_vendor u +:+ "/" +:+ su_name u +:+ "/jsonschema/"
               +:+ name_stem (su_file u);
     se_path := "schemas/" +:+ su_vendor u +:+ "/" +:+ su_name u +:+ "/jsonschema/"
                +:+ su_file u |}.

(** ** Further concrete registries *)

(** The parsers of the examples, knowing also a metadata document without
    a version. *)
Definition ext1 : externals :=
  table_externals
    (("engine: jsonata" +:+ nl, PDict [(PStr "engine", PStr "jsonata")]) :: yaml_docs)
    json_docs.

(** Transform [a/b] with two versions, the second without a declared
    version. *)
Definition unversioned_tree : node :=
  registry_tree
    [ ("a", Dir [ ("b",
        Dir [ ("1.0.0", version_node ("version: 1.0.0" +:+ nl));
              ("1.1.0", version_node ("engine: jsonata" +:+ nl)) ]) ]) ].

(** ** What a verdict guarantees *)

(** A test case of the metadata names an input and an expected output that
    exist, and the expression maps the one to the other. *)
Definition golden_test_passes (fs : filesystem) (ext : externals) (transform_dir : Path)
    (test_spec : pyval) : Prop :=
  exists i e : string,
    py_getitem test_spec "input" = Return (PStr i)
    /\ py_getitem test_spec "expect" = Return (PStr e)
    /\ fs_exists fs (path_div transform_dir i) = true
    /\ fs_exists fs (path_div transform_dir e) = true
    /\ golden_outcome fs ext (path_div transform_dir "spec.jsonata")
         (path_div transform_dir i) (path_div transform_dir e) = Return true.

(** A check that returns true has changed nothing and was given a true
    flag. *)
Definition keeps (m : bool -> V bool) : Prop :=
  forall b s, post (m b) s (fun r s' => r = true -> b = true /\ s' = s).

(** A version directory that [_validate_transform] accepts, from some state
    of the validator. *)
Definition validated (fs : filesystem) (ext : externals) (u : version_unit) : Prop :=
  exists s s',
    _validate_transform fs ext (vu_version_dir u) (vu_id u) (path_name (vu_version_dir u)) s
    = (Return true, s').

(** The collaborators of the examples when the import of [jsonschema]
    failed. *)
Definition ext_without_jsonschema : externals :=
  {| yaml_safe_load := yaml_safe_load ext0;
     json_load := json_load ext0;
     decode_text := decode_text ext0;
     jsonata_evaluate := jsonata_evaluate ext0;
     json_dumps := json_dumps ext0;
     check_schema := check_schema ext0;
     JSONSCHEMA_AVAILABLE := false;
     JSONATA_AVAILABLE := true;
     py_repr := py_repr ext0 |}.

(** A registry whose only schema file is not JSON. *)
Definition broken_schema_tree : node :=
  Dir [ ("repo", Dir [ ("schemas", Dir [ ("acme", Dir [ ("order", Dir [ ("jsonschema",
          Dir [ ("1-0-0.json", File (bytes_of "{")) ]) ]) ]) ]) ]) ].

Definition broken_schema_file : Path :=
  MkPath "/" ["repo"; "schemas"; "acme"; "order"; "jsonschema"; "1-0-0.json"].

(** ** The order of the version values *)

(** [a["version"] < b["version"]], the comparison by which the versions of
    a transform are sorted; false where Python raises. *)
Definition version_lt (a b : version_entry) : bool :=
  py_ltb (version_key a) (version_key b).



(** The comparison strictly orders the version values of [l]: of two
    different records one has a version value less than the other's, never
    both ways, and transitively. *)
Definition strictly_ordered (l : list version_entry) : Prop :=
  (forall a b, a ∈ l -> b ∈ l ->
     version_lt a b = false -> version_lt b a = false -> a = b)
  /\ (forall a b, a ∈ l -> b ∈ l -> version_lt a b = true -> version_lt b a = false)
  /\ (forall a b c, a ∈ l -> b ∈ l -> c ∈ l ->
        version_lt a b = true -> version_lt b c = true -> version_lt a c = true).




(** ** The pairs the validator tracks *)

(** The body of the innermost loop of [check_transforms] past its
    membership test: what is done with a version directory whose pair of
    names was not seen before. *)
Definition validate_version_unit (fs : filesystem) (ext : externals) (u : version_unit)
    (st : transforms_locals) : V transforms_locals :=
  (ok <- _validate_transform fs ext (vu_version_dir u) (vu_id u)
           (path_name (vu_version_dir u)) ;;
   if negb ok then
     vret {| transform_ids := transform_ids st ∪ {[ vu_key u ]};
             transform_count := transform_count st;
             tl_success := false |}
   else
     vret {| transform_ids := transform_ids st ∪ {[ vu_key u ]};
             transform_count := S (transform_count st);
             tl_success := tl_success st |})%V.

(** The document [spec.meta.yaml] of a version directory loads as. *)
Definition declared_meta (fs : filesystem) (ext : externals) (u : version_unit)
    : result pyval :=
  load_with fs (yaml_safe_load ext) (path_div (vu_version_dir u) "spec.meta.yaml").

(** Two version directories of one transform whose metadata declare the
    same id and the same version: [1.1.0] holds a copy of the metadata of
    [1.0.0]. *)
Definition same_pair_tree : node :=
  registry_tree
    [ ("payments", Dir [ ("normalize_amount",
        Dir [ ("1.0.0", version_node meta_1_0_0);
              ("1.1.0", version_node meta_1_0_0) ]) ]) ].

(** A directory entry name: no name holds the separator. *)
Definition slash_free (name : string) : bool :=
  negb (existsb (Ascii.eqb "/") (list_ascii_of_string name)).

(** Every directory lists each of its names once. *)
Definition well_listed (fs : filesystem) : Prop :=
  forall p names,
    fs_listdir fs p = Return names ->
    NoDup names /\ Forall (fun name => slash_free name = true) names.

(** The same for an in-memory tree. *)
Fixpoint well_listed_tree (n : node) : bool :=
  match n with
  | File _ => true
  | Dir entries =>
      bool_decide (NoDup (fst <$> entries))
      && forallb (fun e => slash_free (fst e)) entries
      && forallb (fun e => well_listed_tree (snd e)) entries
  end.

(** A version directory three names below the directory [T] of the
    transforms: category, transform, version. *)
Definition below (T : Path) (u : version_unit) : Prop :=
  exists n m k,
    slash_free n = true
    /\ vu_category u = path_child T n
    /\ vu_transform u = path_child (path_child T n) m
    /\ vu_version_dir u = path_child (path_child (path_child T n) m) k.
(** * Properties *)

(** ** SHA-256 test vectors *)

Example sha256_empty :
  SHA256.hexdigest [] = "e3b0c44298fc1c149afbf4c8996fb92427ae41e4649b934ca495991b7852b855".
Proof. vm_compute. reflexivity. Qed.

Example sha256_abc :
  SHA256.hexdigest [x61; x62; x63]%byte
  = "ba7816bf8f01cfea414140de5dae2223b00361a396177a9cb410ff61f20015ad".
Proof. vm_compute. reflexivity. Qed.

(** The two-block test vector of FIPS 180-4 (56 bytes of input). *)
Example sha256_two_blocks :
  SHA256.hexdigest
    [x61; x62; x63; x64; x62; x63; x64; x65; x63; x64; x65; x66; x64; x65; x66; x67;
     x65; x66; x67; x68; x66; x67; x68; x69; x67; x68; x69; x6a; x68; x69; x6a; x6b;
     x69; x6a; x6b; x6c; x6a; x6b; x6c; x6d; x6b; x6c; x6d; x6e; x6c; x6d; x6e; x6f;
     x6d; x6e; x6f; x70; x6e; x6f; x70; x71]%byte
  = "248d6a61d20638b8e5c026930c3e6039a33ce45964ff2167f6ecedd419db06c1".
Proof. vm_compute. reflexivity. Qed.

(** ** Reasoning about the validator monad *)

Lemma vbind_Return {A B} (m : V A) (k : A -> V B) s b s' :
  vbind m k s = (Return b, s') ->
  exists a s1, m s = (Return a, s1) /\ k a s1 = (Return b, s').
Proof.
  unfold vbind. destruct (m s) as [[a|e] s1]; intros H; [eauto | discriminate].
Qed.

Lemma vbind_cases {A B} (m : V A) (k : A -> V B) s r s' :
  vbind m k s = (r, s') ->
  (exists a s1, m s = (Return a, s1) /\ k a s1 = (r, s'))
  \/ (exists e, m s = (Raise e, s') /\ r = Raise e).
Proof.
  unfold vbind. destruct (m s) as [[a|e] s1]; intros H; [left; eauto | right].
  inversion H; subst. eauto.
Qed.

Lemma vfor_cons {A S} (x : A) (l : list A) (body : A -> S -> V S) st s :
  vfor (x :: l) body st s = vbind (body x st) (vfor l body) s.
Proof. reflexivity. Qed.

Lemma vfor_app {A S} (l1 l2 : list A) (body : A -> S -> V S) st s :
  vfor (l1 ++ l2) body st s = vbind (vfor l1 body st) (vfor l2 body) s.
Proof.
  revert st s. induction l1 as [|x l1 IH]; intros st s; simpl.
  - reflexivity.
  - unfold vbind in *. destruct (body x st s) as [[st'|e] s1]; [|reflexivity].
    apply IH.
Qed.


Lemma extends_refl s : extends s s.
Proof.
  repeat split; exists []; by rewrite app_nil_r.
Qed.

Lemma extends_trans s1 s2 s3 : extends s1 s2 -> extends s2 s3 -> extends s1 s3.
Proof.
  intros (Ha & Hb & Hc & [e He] & [w Hw] & [o Ho]) (Ha' & Hb' & Hc' & [e' He'] & [w' Hw'] & [o' Ho']).
  repeat split; try congruence.
  - exists (e ++ e'). rewrite He', He. by rewrite app_assoc.
  - exists (w ++ w'). rewrite Hw', Hw. by rewrite app_assoc.
  - exists (o ++ o'). rewrite Ho', Ho. by rewrite app_assoc.
Qed.


Lemma mono_vret {A} (a : A) : mono (vret a).
Proof. intros s r s' H. inversion H; subst. apply extends_refl. Qed.

Lemma mono_vlift {A} (x : result A) : mono (vlift x).
Proof. intros s r s' H. inversion H; subst. apply extends_refl. Qed.

Lemma mono_vraise {A} e : mono (@vraise A e).
Proof. intros s r s' H. inversion H; subst. apply extends_refl. Qed.

Lemma mono_vget : mono vget.
Proof. intros s r s' H. inversion H; subst. apply extends_refl. Qed.

Lemma mono_append_error msg : mono (append_error msg).
Proof.
  intros s r s' H. inversion H; subst. repeat split; simpl; eauto.
  all: exists []; by rewrite app_nil_r.
Qed.

Lemma mono_append_warning msg : mono (append_warning msg).
Proof.
  intros s r s' H. inversion H; subst. repeat split; simpl; eauto.
  all: exists []; by rewrite app_nil_r.
Qed.

Lemma mono_print line : mono (print line).
Proof.
  intros s r s' H. inversion H; subst. repeat split; simpl; eauto.
  all: exists []; by rewrite app_nil_r.
Qed.

Lemma mono_vbind {A B} (m : V A) (k : A -> V B) :
  mono m -> (forall a, mono (k a)) -> mono (vbind m k).
Proof.
  intros Hm Hk s r s' H. apply vbind_cases in H as [(a & s1 & H1 & H2)|(e & H1 & _)].
  - eapply extends_trans; [eapply Hm | eapply Hk]; eauto.
  - eapply Hm; eauto.
Qed.

Lemma mono_try_except {A} (body : V A) handler :
  mono body -> (forall e, mono (handler e)) -> mono (try_except body handler).
Proof.
  intros Hb Hh s r s' H. unfold try_except in H.
  destruct (body s) as [[a|e] s1] eqn:E.
  - inversion H; subst. eapply Hb; eauto.
  - eapply extends_trans; [eapply Hb | eapply Hh]; eauto.
Qed.

Lemma mono_vfor {A S} (l : list A) (body : A -> S -> V S) st :
  (forall x st, mono (body x st)) -> mono (vfor l body st).
Proof.
  intros Hb. revert st. induction l as [|x l IH]; intros st; simpl.
  - apply mono_vret.
  - apply mono_vbind; auto.
Qed.

Create HintDb mono discriminated.
Create HintDb tracks discriminated.
#[local] Hint Resolve mono_vret mono_vlift mono_vraise mono_vget mono_append_error
  mono_append_warning mono_print : mono.

(** Decompose a computation into its binds, loops and branches. *)
Ltac mono_step :=
  first
    [ apply mono_vbind; [| intros ?]
    | apply mono_try_except; [| intros ?]
    | apply mono_vfor; intros ? ?
    | solve [ eauto with mono ]
    | match goal with
      | |- mono (if ?c then _ else _) => destruct c
      | |- mono (match ?c with _ => _ end) => destruct c
      end ].

Ltac mono_tac := repeat mono_step.



Lemma post_vret {A} (a : A) s Q : Q a s -> post (vret a) s Q.
Proof. intros H a' s' E. inversion E; subst; assumption. Qed.

Lemma post_vbind {A B} (m : V A) (k : A -> V B) s Q :
  post m s (fun a s1 => post (k a) s1 Q) -> post (vbind m k) s Q.
Proof.
  intros H b s' E. apply vbind_Return in E as (a & s1 & E1 & E2).
  exact (H a s1 E1 b s' E2).
Qed.

Lemma post_vlift {A} (r : result A) s Q :
  (forall a, r = Return a -> Q a s) -> post (vlift r) s Q.
Proof. intros H a s' E. inversion E; subst. auto. Qed.

Lemma post_vget s Q : Q s s -> post vget s Q.
Proof. intros H a s' E. inversion E; subst. assumption. Qed.

Lemma post_append_error msg s Q : Q tt (with_error msg s) -> post (append_error msg) s Q.
Proof. intros H [] s' E. inversion E; subst. exact H. Qed.

Lemma post_append_warning msg s Q :
  Q tt (with_warning msg s) -> post (append_warning msg) s Q.
Proof. intros H [] s' E. inversion E; subst. exact H. Qed.

Lemma post_print line s Q : Q tt (with_line line s) -> post (print line) s Q.
Proof. intros H [] s' E. inversion E; subst. exact H. Qed.

Lemma post_vfor {A S} (Inv : S -> RegistryValidator -> Prop) (l : list A)
    (body : A -> S -> V S) st s :
  (forall x st s, Inv st s -> post (body x st) s Inv) ->
  Inv st s -> post (vfor l body st) s Inv.
Proof.
  intros Hb. revert st s. induction l as [|x l IH]; intros st s HI; simpl.
  - by apply post_vret.
  - apply post_vbind. intros st1 s1 E. apply IH. eapply Hb; eauto.
Qed.

Lemma post_try_except {A} (body : V A) handler s Q :
  post body s Q ->
  (forall e s1, body s = (Raise e, s1) -> post (handler e) s1 Q) ->
  post (try_except body handler) s Q.
Proof.
  intros Hb Hh a s' E. unfold try_except in E.
  destruct (body s) as [[a1|e] s1] eqn:Eb.
  - inversion E; subst. by apply Hb.
  - eapply Hh; eauto.
Qed.

Lemma extends_with_error msg s : extends s (with_error msg s).
Proof. eapply mono_append_error. reflexivity. Qed.
Lemma extends_with_warning msg s : extends s (with_warning msg s).
Proof. eapply mono_append_warning. reflexivity. Qed.
Lemma extends_with_line line s : extends s (with_line line s).
Proof. eapply mono_print. reflexivity. Qed.


Lemma tracks_refl s : tracks s true s.
Proof. split; [apply extends_refl | done]. Qed.

Lemma tracks_keep s0 b s s' :
  tracks s0 b s -> extends s s' -> errors s' = errors s -> tracks s0 b s'.
Proof.
  intros [He Hb] He' E. split; [eapply extends_trans; eauto | by rewrite E].
Qed.

Lemma tracks_line s0 b s line : tracks s0 b s -> tracks s0 b (with_line line s).
Proof. intros H. eapply tracks_keep; eauto using extends_with_line. Qed.

Lemma tracks_warning s0 b s msg : tracks s0 b s -> tracks s0 b (with_warning msg s).
Proof. intros H. eapply tracks_keep; eauto using extends_with_warning. Qed.

Lemma tracks_fail s0 s msg : extends s0 s -> tracks s0 false (with_error msg s).
Proof.
  intros He. split; [eapply extends_trans; eauto using extends_with_error|].
  destruct He as (_ & _ & _ & [e He] & _). simpl. rewrite He, <- app_assoc.
  split; [done|]. intros E. rewrite <- (app_nil_r (errors s0)) in E at 2.
  apply app_inv_head in E. by destruct e.
Qed.

Lemma tracks_fail' s0 b s msg : tracks s0 b s -> tracks s0 false (with_error msg s).
Proof. intros [He _]. by apply tracks_fail. Qed.

Lemma tracks_and s0 b1 s1 b2 s2 :
  tracks s0 b1 s1 -> tracks s1 b2 s2 -> tracks s0 (b1 && b2) s2.
Proof.
  intros [He1 Hb1] [He2 Hb2]. split; [eapply extends_trans; eauto|].
  destruct He1 as (_ & _ & _ & [e1 E1] & _), He2 as (_ & _ & _ & [e2 E2] & _).
  rewrite andb_true_iff, Hb1, Hb2. rewrite E2, E1 in *.
  split.
  - intros [Ha Hb]. rewrite <- (app_nil_r (errors s0)) in Ha at 2.
    apply app_inv_head in Ha. subst e1. rewrite <- (app_nil_r (_ ++ [])) in Hb at 2.
    apply app_inv_head in Hb. subst e2. by rewrite !app_nil_r.
  - intros E. rewrite <- app_assoc in E. rewrite <- (app_nil_r (errors s0)) in E at 2.
    apply app_inv_head in E. apply app_eq_nil in E as [-> ->]. by rewrite !app_nil_r.
Qed.

(** Symbolic execution of a computation that returns. *)
Ltac wp_step :=
  match goal with
  | |- post (vbind _ _) _ _ => apply post_vbind
  | |- post (vret _) _ _ => apply post_vret
  | |- post (vlift _) _ _ => apply post_vlift; intros ? ?
  | |- post vget _ _ => apply post_vget
  | |- post (append_error _) _ _ => apply post_append_error
  | |- post (append_warning _) _ _ => apply post_append_warning
  | |- post (print _) _ _ => apply post_print
  | |- post (if ?c then _ else _) _ _ => destruct c eqn:?
  | |- post (match ?c with _ => _ end) _ _ => destruct c eqn:?
  end.

Ltac wp := repeat wp_step.

#[local] Hint Resolve tracks_refl tracks_line tracks_warning tracks_fail' tracks_fail
  extends_refl extends_with_error extends_with_line extends_with_warning : tracks.

Section ValidatorProofs.

Context (fs : filesystem) (ext : externals).

Lemma mono_check_structure_loop dirs : mono (check_structure_loop fs dirs).
Proof. induction dirs as [|d dirs IH]; simpl; mono_tac. Qed.
#[local] Hint Resolve mono_check_structure_loop : mono.

Lemma mono_check_structure : mono (check_structure fs).
Proof. unfold check_structure. mono_tac. Qed.
#[local] Hint Resolve mono_check_structure : mono.

Lemma mono__run_golden_test j i e id v : mono (_run_golden_test fs ext j i e id v).
Proof. unfold _run_golden_test. mono_tac. Qed.
#[local] Hint Resolve mono__run_golden_test : mono.

Lemma mono_check_required_fields meta tag b : mono (check_required_fields meta tag b).
Proof. unfold check_required_fields. mono_tac. Qed.
#[local] Hint Resolve mono_check_required_fields : mono.

Lemma mono_check_id meta id tag b : mono (check_id ext meta id tag b).
Proof. unfold check_id. mono_tac. Qed.
#[local] Hint Resolve mono_check_id : mono.

Lemma mono_check_version meta v tag b : mono (check_version ext meta v tag b).
Proof. unfold check_version. mono_tac. Qed.
#[local] Hint Resolve mono_check_version : mono.

Lemma mono_check_engine meta tag b : mono (check_engine meta tag b).
Proof. unfold check_engine. mono_tac. Qed.
#[local] Hint Resolve mono_check_engine : mono.

Lemma mono_check_checksum meta f tag b : mono (check_checksum fs ext meta f tag b).
Proof. unfold check_checksum. mono_tac. Qed.
#[local] Hint Resolve mono_check_checksum : mono.

Lemma mono_check_golden_tests meta d f id v b :
  mono (check_golden_tests fs ext meta d f id v b).
Proof.
  unfold check_golden_tests. mono_tac.
Qed.
#[local] Hint Resolve mono_check_golden_tests : mono.

Lemma mono__validate_transform d id v : mono (_validate_transform fs ext d id v).
Proof.
  unfold _validate_transform. cbv zeta.
  mono_tac.
Qed.
#[local] Hint Resolve mono__validate_transform : mono.

Lemma mono_check_version_dir c t v st : mono (check_version_dir fs ext c t v st).
Proof.
  unfold check_version_dir. cbv zeta. mono_tac.
Qed.
#[local] Hint Resolve mono_check_version_dir : mono.

Lemma mono_check_transform_dir c t st : mono (check_transform_dir fs ext c t st).
Proof. unfold check_transform_dir. mono_tac. Qed.
#[local] Hint Resolve mono_check_transform_dir : mono.

Lemma mono_check_category_dir c st : mono (check_category_dir fs ext c st).
Proof. unfold check_category_dir. mono_tac. Qed.
#[local] Hint Resolve mono_check_category_dir : mono.

Lemma mono_check_transforms : mono (check_transforms fs ext).
Proof. unfold check_transforms. mono_tac. Qed.
#[local] Hint Resolve mono_check_transforms : mono.

Lemma mono__validate_schema f : mono (_validate_schema fs ext f).
Proof. unfold _validate_schema. mono_tac. Qed.
#[local] Hint Resolve mono__validate_schema : mono.

Lemma mono_check_schema_file f st : mono (check_schema_file fs ext f st).
Proof. unfold check_schema_file. mono_tac. Qed.
#[local] Hint Resolve mono_check_schema_file : mono.

Lemma mono_check_schema_dir d st : mono (check_schema_dir fs ext d st).
Proof. unfold check_schema_dir. cbv zeta. mono_tac. Qed.
#[local] Hint Resolve mono_check_schema_dir : mono.

Lemma mono_check_vendor_dir d st : mono (check_vendor_dir fs ext d st).
Proof. unfold check_vendor_dir. mono_tac. Qed.
#[local] Hint Resolve mono_check_vendor_dir : mono.

Lemma mono_check_schemas : mono (check_schemas fs ext).
Proof. unfold check_schemas. mono_tac. Qed.
#[local] Hint Resolve mono_check_schemas : mono.

Lemma mono_validate_all : mono (validate_all fs ext).
Proof.
  unfold validate_all. cbv zeta.
  mono_tac.
Qed.
#[local] Hint Resolve mono_validate_all : mono.


(** *** The flag of every check is true exactly when it appended no error *)

Lemma tracks_check_structure_loop dirs s0 s :
  tracks s0 true s -> post (check_structure_loop fs dirs) s (tracks s0).
Proof.
  revert s. induction dirs as [|d dirs IH]; intros s H; simpl; wp; eauto with tracks.
Qed.

Lemma tracks_check_structure s :
  post (check_structure fs) s (fun b s' => tracks s b s').
Proof.
  unfold check_structure. wp.
  intros ok s1 E.
  eapply (tracks_check_structure_loop _ s) in E; [|eauto with tracks].
  destruct ok; wp; eauto with tracks.
Qed.

Lemma tracks__run_golden_test j i e id v s :
  post (_run_golden_test fs ext j i e id v) s (fun b s' => tracks s b s').
Proof.
  unfold _run_golden_test. apply post_try_except.
  - wp; eauto 8 with tracks.
  - intros x s1 E. wp. apply tracks_fail. revert E.
    match goal with |- ?m s = _ -> _ => assert (mono m) as Hm by mono_tac end.
    apply Hm.
Qed.

Lemma tracks_and_true s0 s1 b s2 :
  tracks s0 true s1 -> tracks s1 b s2 -> tracks s0 b s2.
Proof. intros H1 H2. exact (tracks_and _ _ _ _ _ H1 H2). Qed.


Lemma threads_check_required_fields meta tag : threads (check_required_fields meta tag).
Proof.
  intros s0 success s H. unfold check_required_fields.
  apply post_vfor with (Inv := tracks s0); [|done].
  clear. intros field b s H. wp; eauto with tracks.
Qed.

Lemma threads_check_id meta id tag : threads (check_id ext meta id tag).
Proof. intros s0 success s H. unfold check_id. wp; eauto with tracks. Qed.

Lemma threads_check_version meta v tag : threads (check_version ext meta v tag).
Proof. intros s0 success s H. unfold check_version. wp; eauto with tracks. Qed.

Lemma threads_check_engine meta tag : threads (check_engine meta tag).
Proof. intros s0 success s H. unfold check_engine. wp; eauto with tracks. Qed.

Lemma threads_check_checksum meta f tag : threads (check_checksum fs ext meta f tag).
Proof. intros s0 success s H. unfold check_checksum. wp; eauto with tracks. Qed.

Lemma threads_check_golden_tests meta d f id v :
  threads (check_golden_tests fs ext meta d f id v).
Proof.
  intros s0 success s H. unfold check_golden_tests. wp; eauto with tracks.
  apply post_vfor with (Inv := tracks s0); [|done].
  clear. intros test_spec b s H. wp; eauto with tracks.
  intros passed s1 E. apply tracks__run_golden_test in E.
  pose proof (tracks_and _ _ _ _ _ H E) as HE.
  destruct passed; simpl; wp.
  - by rewrite andb_true_r in HE.
  - by rewrite andb_false_r in HE.
Qed.

Lemma tracks__validate_transform d id v s :
  post (_validate_transform fs ext d id v) s (fun b s' => tracks s b s').
Proof.
  unfold _validate_transform. cbv zeta. wp; eauto with tracks.
  intros b1 s1 E1. eapply threads_check_required_fields in E1; [|apply tracks_refl].
  wp. intros b2 s2 E2. eapply threads_check_id in E2; [|exact E1].
  wp. intros b3 s3 E3. eapply threads_check_version in E3; [|exact E2].
  wp. intros b4 s4 E4. eapply threads_check_engine in E4; [|exact E3].
  wp. intros b5 s5 E5. eapply threads_check_checksum in E5; [|exact E4].
  wp. intros b6 s6 E6. eapply threads_check_golden_tests in E6; [|exact E5].
  wp. exact E6.
Qed.



Lemma tracks_and_call (m : V bool) s0 b s :
  (forall s, post m s (fun ok s' => tracks s ok s')) ->
  tracks s0 b s -> post m s (fun ok s' => tracks s0 (b && ok) s').
Proof. intros Hm H ok s' E. eapply tracks_and; eauto. by apply Hm. Qed.

Lemma tracks_check_version_dir c t v st s0 s :
  tracks s0 (tl_success st) s ->
  post (check_version_dir fs ext c t v st) s (fun st' s' => tracks s0 (tl_success st') s').
Proof.
  intros H. unfold check_version_dir. cbv zeta. wp; simpl; eauto with tracks.
  intros ok s1 E.
  eapply (tracks_and_call _ _ _ _ (tracks__validate_transform _ _ _)) in E; [|exact H].
  destruct ok; simpl; wp; simpl.
  - by rewrite andb_true_r in E.
  - by rewrite andb_false_r in E.
Qed.

Lemma tracks_check_transform_dir c t st s0 s :
  tracks s0 (tl_success st) s ->
  post (check_transform_dir fs ext c t st) s (fun st' s' => tracks s0 (tl_success st') s').
Proof.
  intros H. unfold check_transform_dir. wp; eauto.
  apply post_vfor with (Inv := fun st' s' => tracks s0 (tl_success st') s'); [|done].
  intros. by apply tracks_check_version_dir.
Qed.

Lemma tracks_check_category_dir c st s0 s :
  tracks s0 (tl_success st) s ->
  post (check_category_dir fs ext c st) s (fun st' s' => tracks s0 (tl_success st') s').
Proof.
  intros H. unfold check_category_dir. wp; eauto.
  apply post_vfor with (Inv := fun st' s' => tracks s0 (tl_success st') s'); [|done].
  intros. by apply tracks_check_transform_dir.
Qed.

Lemma tracks_check_transforms s :
  post (check_transforms fs ext) s (fun b s' => tracks s b s').
Proof.
  unfold check_transforms. wp; eauto with tracks.
  intros st s1 E.
  eapply (post_vfor (fun st' s' => tracks s (tl_success st') s')) in E;
    [wp; eauto with tracks | | simpl; eauto with tracks].
  intros. by apply tracks_check_category_dir.
Qed.

Lemma tracks__validate_schema f s :
  post (_validate_schema fs ext f) s (fun b s' => tracks s b s').
Proof.
  unfold _validate_schema. apply post_try_except.
  - wp; eauto with tracks.
  - intros x s1 E.
    assert (extends s s1) as He.
    { revert E. match goal with |- ?m s = _ -> _ => assert (mono m) as Hm by mono_tac end.
      apply Hm. }
    wp; eauto with tracks.
    intros a s' Hr. discriminate Hr.
Qed.

Lemma tracks_check_schema_file f st s0 s :
  tracks s0 (snd st) s ->
  post (check_schema_file fs ext f st) s (fun st' s' => tracks s0 (snd st') s').
Proof.
  intros H. unfold check_schema_file. wp.
  intros ok s1 E.
  eapply (tracks_and_call _ _ _ _ (tracks__validate_schema _)) in E; [|exact H].
  destruct ok; simpl; wp; simpl.
  - by rewrite andb_true_r in E.
  - by rewrite andb_false_r in E.
Qed.

Lemma tracks_check_schema_dir d st s0 s :
  tracks s0 (snd st) s ->
  post (check_schema_dir fs ext d st) s (fun st' s' => tracks s0 (snd st') s').
Proof.
  intros H. unfold check_schema_dir. cbv zeta. wp; eauto.
  apply post_vfor with (Inv := fun st' s' => tracks s0 (snd st') s'); [|done].
  intros. by apply tracks_check_schema_file.
Qed.

Lemma tracks_check_vendor_dir d st s0 s :
  tracks s0 (snd st) s ->
  post (check_vendor_dir fs ext d st) s (fun st' s' => tracks s0 (snd st') s').
Proof.
  intros H. unfold check_vendor_dir. wp; eauto.
  apply post_vfor with (Inv := fun st' s' => tracks s0 (snd st') s'); [|done].
  intros. by apply tracks_check_schema_dir.
Qed.

Lemma tracks_check_schemas s :
  post (check_schemas fs ext) s (fun b s' => tracks s b s').
Proof.
  unfold check_schemas. wp; eauto with tracks.
  intros st s1 E.
  eapply (post_vfor (fun st' s' => tracks s (snd st') s')) in E;
    [wp; eauto with tracks | | simpl; eauto with tracks].
  intros. by apply tracks_check_vendor_dir.
Qed.

Lemma tracks_validate_all s :
  post (validate_all fs ext) s (fun b s' => tracks s b s').
Proof.
  unfold validate_all. cbv zeta. wp.
  intros ok1 s1 E1.
  eapply (tracks_and_call _ s true _ tracks_check_structure) in E1; [|eauto 6 with tracks].
  wp. intros ok2 s2 E2.
  eapply (tracks_and_call _ _ _ _ tracks_check_transforms) in E2; [|exact E1].
  wp. intros ok3 s3 E3.
  eapply (tracks_and_call _ _ _ _ tracks_check_schemas) in E3; [|exact E2].
  remember (true && ok1 && ok2 && ok3) as success eqn:Hs. clear Hs.
  destruct success; wp; eauto with tracks.
  intros [] s4 E4. wp.
  eapply (post_vfor (fun _ s' => tracks s false s')) in E4; eauto 7 with tracks.
  intros. wp. eauto with tracks.
Qed.



(** What holds of the verdict on the runs that return: on a fresh validator,
    when [validate_all] returns, it returns true exactly when the error list
    is empty at that point, whatever the warning list holds; and the exit
    status of the process is 0 exactly when [validate_all] returned true, and
    1 otherwise. *)
Lemma validate_all_verdict (root : Path) :
  let run := validate_all fs ext (RegistryValidator_init ext root) in
  let exit_status := fst (main fs ext (default_arguments root)) in
  (forall success, fst run = Return success -> (success = true <-> errors (snd run) = []))
  /\ (exit_status = 0 <-> fst run = Return true)
  /\ (fst run <> Return true -> exit_status = 1).
Proof.
  cbv zeta. unfold main, default_arguments. simpl.
  destruct (validate_all fs ext (RegistryValidator_init ext root)) as [r s'] eqn:E. simpl.
  split; [|split].
  - intros success ->. apply tracks_validate_all in E as [_ E]. exact E.
  - destruct r as [[]|e]; simpl; split; try done.
  - destruct r as [[]|e]; simpl; try done.
Qed.


(** *** The stages of [validate_all] *)

Lemma vbind_print {B} line (k : unit -> V B) s :
  vbind (print line) k s = k tt (with_line line s).
Proof. reflexivity. Qed.







End ValidatorProofs.

#[local] Hint Resolve mono_check_structure_loop mono_check_structure mono__run_golden_test
  mono_check_required_fields mono_check_id mono_check_version mono_check_engine
  mono_check_checksum mono_check_golden_tests mono__validate_transform
  mono_check_version_dir mono_check_transform_dir mono_check_category_dir
  mono_check_transforms mono__validate_schema mono_check_schema_file
  mono_check_schema_dir mono_check_vendor_dir mono_check_schemas mono_validate_all : mono.

(** *** Concrete runs *)

(** A valid registry: the run returns true with an empty error list and a
    warning (the schema declares no [$schema]); the exit status is 0. *)
Lemma validate_all_verdict_example :
  let run := validate_all (fs_of_tree payments_tree) ext0 (RegistryValidator_init ext0 repo) in
  fst run = Return true
  /\ errors (snd run) = []
  /\ warnings (snd run)
     = ["/repo/schemas/acme/order/jsonschema/1-0-0.json: Missing $schema field (recommended)"]
  /\ fst (main (fs_of_tree payments_tree) ext0 (default_arguments repo)) = 0.
Proof.
  cbv zeta.
  destruct (validate_all_verdict (fs_of_tree payments_tree) ext0 repo) as (H1 & H2 & _).
  assert (fst (validate_all (fs_of_tree payments_tree) ext0 (RegistryValidator_init ext0 repo))
          = Return true) as Hrun by (vm_compute; reflexivity).
  split; [exact Hrun|].
  split; [exact (proj1 (H1 true Hrun) eq_refl)|].
  split; [vm_compute; reflexivity|].
  exact (proj2 H2 Hrun).
Defined.



(** *** Exceptions that leave the transform-check stage *)

(** C3 at a failing input. The only version directory of the registry has
    an empty [spec.meta.yaml], which [yaml.safe_load] reads as [None]: the
    membership test of the first required field raises [TypeError], which
    nothing catches. The run ends without a verdict and without any error
    recorded; the process exits with status 1. *)
Theorem empty_metadata_raises :
  let fs := fs_of_tree empty_meta_tree in
  let s0 := RegistryValidator_init ext0 repo in
  fst (_validate_transform fs ext0
         (MkPath "/" ["repo"; "transforms"; "payments"; "normalize_amount"; "1.0.0"])
         "payments/normalize_amount" "1.0.0" s0)
  = Raise (Exn TypeError "argument of type 'NoneType' is not iterable")
  /\ fst (check_transforms fs ext0 s0)
     = Raise (Exn TypeError "argument of type 'NoneType' is not iterable")
  /\ fst (validate_all fs ext0 s0)
     = Raise (Exn TypeError "argument of type 'NoneType' is not iterable")
  /\ errors (snd (validate_all fs ext0 s0)) = []
  /\ fst (main fs ext0 (default_arguments repo)) = 1.
Proof. cbv zeta. repeat split; vm_compute; reflexivity. Qed.

(** C1 at a failing input. The error list does not decide the verdict: on
    the registry whose only version directory has an empty [spec.meta.yaml]
    the run ends with an empty error list (and an empty warning list), yet
    [validate_all] does not return true, it returns nothing at all, and the
    process exits with status 1. The failure is one that the error list does
    not record. *)
Theorem failure_without_recorded_error :
  let fs := fs_of_tree empty_meta_tree in
  let run := validate_all fs ext0 (RegistryValidator_init ext0 repo) in
  errors (snd run) = []
  /\ warnings (snd run) = []
  /\ fst run <> Return true
  /\ (forall success, fst run <> Return success)
  /\ fst (main fs ext0 (default_arguments repo)) <> 0.
Proof.
  cbv zeta.
  assert (fst (validate_all (fs_of_tree empty_meta_tree) ext0 (RegistryValidator_init ext0 repo))
          = Raise (Exn TypeError "argument of type 'NoneType' is not iterable")) as E
    by (vm_compute; reflexivity).
  split; [vm_compute; reflexivity|].
  split; [vm_compute; reflexivity|].
  split; [rewrite E; discriminate|].
  split; [intros success; rewrite E; discriminate|].
  vm_compute. discriminate.
Qed.

Section UncaughtExceptions.

Context (fs : filesystem) (ext : externals).

(** The same for every version directory that has its three required
    entries and whose metadata loads as [None]: no diagnostic is recorded,
    the state is left as it was and the exception propagates. *)
Lemma none_metadata_raises (version_dir : Path) (id version : string) s :
  fs_exists fs (path_div version_dir "spec.jsonata") = true ->
  fs_exists fs (path_div version_dir "spec.meta.yaml") = true ->
  fs_exists fs (path_div version_dir "tests") = true ->
  fs_is_dir fs (path_div version_dir "tests") = true ->
  load_with fs (yaml_safe_load ext) (path_div version_dir "spec.meta.yaml") = Return PNone ->
  _validate_transform fs ext version_dir id version s
  = (Raise (Exn TypeError "argument of type 'NoneType' is not iterable"), s).
Proof.
  intros H1 H2 H3 H4 H5. unfold _validate_transform. cbv zeta.
  rewrite H1, H2, H3, H4, H5. reflexivity.
Qed.

(** A checksum block without a nested mapping ([checksum:] with no value)
    raises as well, after the earlier checks have run. *)
Lemma none_checksum_raises (items : list (pyval * pyval)) (f : Path) tag success s :
  dict_find "checksum" items = Some PNone ->
  check_checksum fs ext (PDict items) f tag success s
  = (Raise (Exn TypeError "argument of type 'NoneType' is not iterable"), s).
Proof.
  intros H. unfold check_checksum, declares_digest. simpl. rewrite H. reflexivity.
Qed.

(** A test case that is a plain string raises when it is indexed. *)
Lemma string_test_case_raises (items : list (pyval * pyval)) (name : string)
    (d f : Path) id v success s :
  JSONATA_AVAILABLE ext = true ->
  dict_find "tests" items = Some (PList [PStr name]) ->
  check_golden_tests fs ext (PDict items) d f id v success s
  = (Raise (Exn TypeError "string indices must be integers, not 'str'"), s).
Proof.
  intros Ha H. unfold check_golden_tests, runs_golden_tests. rewrite Ha. simpl.
  rewrite H. reflexivity.
Qed.

End UncaughtExceptions.

(** *** The checksum block *)

Lemma vfor_returns {A S} (l : list A) (body : A -> S -> V S) st s :
  (forall x st s, exists st' s', body x st s = (Return st', s')) ->
  exists st' s', vfor l body st s = (Return st', s').
Proof.
  intros Hb. revert st s. induction l as [|x l IH]; intros st s; simpl.
  - by eexists _, _.
  - unfold vbind. destruct (Hb x st s) as (st1 & s1 & ->). apply IH.
Qed.

Lemma extends_errors s s' : extends s s' -> exists added, errors s' = errors s ++ added.
Proof. by intros (_ & _ & _ & H & _). Qed.

Lemma tracks_false_neq s0 s s' :
  tracks s0 false s -> extends s s' -> errors s' <> errors s0.
Proof.
  intros [He Hb] He'. apply extends_errors in He as [e1 E1], He' as [e2 E2].
  intros E. rewrite E2, E1, <- app_assoc in E.
  rewrite <- (app_nil_r (errors s0)) in E at 2. apply app_inv_head in E.
  apply app_eq_nil in E as [-> _]. rewrite app_nil_r in E1.
  apply Hb in E1. discriminate.
Qed.

Lemma py_in_dict_Some k items v :
  dict_find k items = Some v -> py_in k (PDict items) = Return true.
Proof. intros H. simpl. rewrite H. reflexivity. Qed.

Lemma py_in_dict_None k items :
  dict_find k items = None -> py_in k (PDict items) = Return false.
Proof. intros H. simpl. rewrite H. reflexivity. Qed.

Lemma py_getitem_dict_Some k items v :
  dict_find k items = Some v -> py_getitem (PDict items) k = Return v.
Proof. intros H. simpl. rewrite H. reflexivity. Qed.

Section ChecksumProofs.

Context (fs : filesystem) (ext : externals).

Lemma required_field_step (items : list (pyval * pyval)) tag field b s :
  exists b' s',
    (present <- vlift (py_in field (PDict items)) ;;
     if negb present then
       append_error (tag +:+ ": Missing required field: " +:+ field) ;; vret false
     else vret b)%V s = (Return b', s').
Proof.
  unfold vbind, vlift. simpl.
  destruct (negb _); by eexists _, _.
Qed.

(** Without a [checksum] key the required-fields check records the missing
    field and clears the flag. *)
Lemma required_fields_without_checksum (items : list (pyval * pyval)) tag b s :
  dict_find "checksum" items = None ->
  exists s1 added,
    check_required_fields (PDict items) tag b s = (Return false, s1)
    /\ errors s1 = errors s ++ added
    /\ (tag +:+ ": Missing required field: checksum") ∈ added
    /\ tracks s false s1.
Proof.
  intros Hc. unfold check_required_fields, required_fields.
  change ["id"; "version"; "engine"; "from_schema"; "to_schema"; "tests"; "checksum";
          "provenance"; "status"]
    with (["id"; "version"; "engine"; "from_schema"; "to_schema"; "tests"]
          ++ ["checksum"] ++ ["provenance"; "status"]).
  match goal with |- context [vfor _ ?body0 b s] => set (body := body0) end.
  assert (forall x st s, exists st' s', body x st s = (Return st', s')) as Hret
    by (intros; apply required_field_step).
  assert (forall x st, mono (body x st)) as Hmono by (intros; subst body; mono_tac).
  rewrite vfor_app.
  destruct (vfor_returns ["id"; "version"; "engine"; "from_schema"; "to_schema"; "tests"]
              body b s Hret) as (b1 & s1 & E1).
  unfold vbind at 1. rewrite E1.
  apply (mono_vfor _ _ _ Hmono) in E1.
  change (["checksum"] ++ ["provenance"; "status"])
    with ("checksum" :: ["provenance"; "status"]).
  rewrite vfor_cons. unfold vbind at 1.
  assert (body "checksum" b1 s1
          = (Return false, with_error (tag +:+ ": Missing required field: checksum") s1))
    as ->.
  { subst body. unfold vbind, vlift. simpl. rewrite Hc. reflexivity. }
  set (s2 := with_error (tag +:+ ": Missing required field: checksum") s1).
  destruct (vfor_returns ["provenance"; "status"] body false s2 Hret) as (b3 & s3 & E3).
  pose proof (mono_vfor _ _ _ Hmono _ _ _ E3) as Hm3.
  pose proof (post_vfor (tracks s) ["provenance"; "status"] body false s2) as Ht3.
  assert (tracks s b3 s3) as Ht.
  { refine (Ht3 _ (tracks_fail _ _ _ E1) b3 s3 E3).
    subst body. clear. intros field b s0 H. cbv beta. wp; eauto with tracks. }
  rewrite E3.
  assert (b3 = false) as ->.
  { destruct b3; [|done]. exfalso.
    eapply (tracks_false_neq s _ s3); [apply tracks_fail; exact E1 | exact Hm3 |].
    by apply Ht. }
  apply extends_errors in E1 as [e1 E1], Hm3 as [e3 E3'].
  exists s3, (e1 ++ [tag +:+ ": Missing required field: checksum"] ++ e3).
  split; [done|]. split; [|split; [|done]].
  - rewrite E3'. simpl. rewrite E1. by rewrite <- !app_assoc.
  - apply elem_of_app. right. apply elem_of_app. left. by apply list_elem_of_singleton.
Qed.

(** Without a [checksum] key the checksum block does nothing: the
    expression file is not read, nothing is recorded and the flag is kept. *)
Lemma check_checksum_absent (items : list (pyval * pyval)) (f : Path) tag (b : bool) s :
  dict_find "checksum" items = None ->
  check_checksum fs ext (PDict items) f tag b s = (Return b, s).
Proof.
  intros Hc. unfold check_checksum, declares_digest.
  rewrite (py_in_dict_None _ _ Hc). reflexivity.
Qed.

(** C4, amended. For a version whose metadata loads as a mapping without a
    [checksum] key, validation does not succeed: it records the error
    "Missing required field: checksum" among the errors of this unit; the
    checksum verification itself does not run and records nothing. *)
Theorem missing_checksum_block (version_dir : Path) (id version : string)
    (items : list (pyval * pyval)) s r s' :
  fs_exists fs (path_div version_dir "spec.jsonata") = true ->
  fs_exists fs (path_div version_dir "spec.meta.yaml") = true ->
  fs_exists fs (path_div version_dir "tests") = true ->
  fs_is_dir fs (path_div version_dir "tests") = true ->
  load_with fs (yaml_safe_load ext) (path_div version_dir "spec.meta.yaml")
  = Return (PDict items) ->
  dict_find "checksum" items = None ->
  _validate_transform fs ext version_dir id version s = (r, s') ->
  r <> Return true
  /\ (exists added,
        errors s' = errors s ++ added
        /\ (unit_tag id version +:+ ": Missing required field: checksum") ∈ added)
  /\ (forall b s1,
        check_checksum fs ext (PDict items) (path_div version_dir "spec.jsonata")
          (unit_tag id version) b s1 = (Return b, s1)).
Proof.
  intros H1 H2 H3 H4 H5 Hc E.
  pose proof (tracks__validate_transform fs ext version_dir id version s) as Hpost.
  unfold _validate_transform in E. cbv zeta in E.
  rewrite H1, H2, H3, H4, H5 in E. simpl in E.
  destruct (required_fields_without_checksum items (unit_tag id version) true s Hc)
    as (s1 & added & E1 & Eadd & Hin & Ht).
  unfold vbind at 1 in E. rewrite E1 in E.
  assert (extends s1 s') as He.
  { revert E. match goal with |- ?m _ = _ -> _ => assert (mono m) as Hm by mono_tac end.
    apply Hm. }
  split; [|split].
  - intros ->. eapply (tracks_false_neq s s1 s'); [exact Ht | exact He |].
    unfold post in Hpost. unfold _validate_transform in Hpost. cbv zeta in Hpost.
    rewrite H1, H2, H3, H4, H5 in Hpost. simpl in Hpost.
    specialize (Hpost true s'). unfold vbind at 1 in Hpost. rewrite E1 in Hpost.
    specialize (Hpost E). by apply Hpost.
  - apply extends_errors in He as [e' He]. exists (added ++ e'). split.
    + rewrite He, Eadd. by rewrite app_assoc.
    + apply elem_of_app. by left.
  - intros b s2. by apply check_checksum_absent.
Qed.

Lemma check_checksum_declared (items block : list (pyval * pyval)) (declared : string)
    (f : Path) (data : list byte) tag (b : bool) s :
  dict_find "checksum" items = Some (PDict block) ->
  dict_find "jsonata_sha256" block = Some (PStr declared) ->
  fs_read fs f = Return data ->
  check_checksum fs ext (PDict items) f tag b s
  = if String.eqb declared (SHA256.hexdigest data) then (Return b, s)
    else (Return false,
          with_error (tag +:+ ": Checksum mismatch (expected " +:+ declared
                      +:+ ", got " +:+ SHA256.hexdigest data +:+ ")") s).
Proof.
  intros Hc Hd Hf.
  unfold check_checksum, declares_digest, _compute_sha256.
  rewrite (py_in_dict_Some _ _ _ Hc), (py_getitem_dict_Some _ _ _ Hc). cbn [rbind].
  rewrite (py_in_dict_Some _ _ _ Hd). unfold vbind at 1, vlift at 1.
  unfold vbind at 1, vlift at 1.
  unfold vbind at 1, vlift at 1. rewrite (py_getitem_dict_Some _ _ _ Hd), Hf.
  unfold vbind, vlift, rbind. cbn [py_eq py_str]. unfold str_eqb.
  destruct (String.eqb declared (SHA256.hexdigest data)); reflexivity.
Qed.

(** What the checksum block does when a digest is declared. When the
    declared digest is the SHA-256 of the bytes of the expression file,
    nothing is recorded and the flag is kept; when the SHA-256 of the bytes
    differs from the declared digest, the flag is cleared and one error
    naming the declared and the computed digest is recorded. The digests are
    compared, not the contents: whether a changed content is rejected is
    whether its digest has changed. *)
Lemma checksum_verification (items block : list (pyval * pyval)) (declared : string)
    (f : Path) (data : list byte) tag (b : bool) s :
  dict_find "checksum" items = Some (PDict block) ->
  dict_find "jsonata_sha256" block = Some (PStr declared) ->
  fs_read fs f = Return data ->
  (declared = SHA256.hexdigest data ->
   check_checksum fs ext (PDict items) f tag b s = (Return b, s))
  /\ (declared <> SHA256.hexdigest data ->
      check_checksum fs ext (PDict items) f tag b s
      = (Return false,
         with_error (tag +:+ ": Checksum mismatch (expected " +:+ declared
                     +:+ ", got " +:+ SHA256.hexdigest data +:+ ")") s)).
Proof.
  intros Hc Hd Hf.
  rewrite (check_checksum_declared items block declared f data tag b s Hc Hd Hf).
  split; intros H.
  - rewrite (proj2 (String.eqb_eq _ _) H). reflexivity.
  - rewrite (proj2 (String.eqb_neq _ _) H). reflexivity.
Qed.

End ChecksumProofs.

(** *** SHA-256 is not injective *)

Lemma bounded_search (P : Z -> bool) (n : Z) :
  0 <= n ->
  (exists i, 0 <= i <= n /\ P i = true) \/ (forall i, 0 <= i <= n -> P i = false).
Proof.
  intros Hn. pattern n. apply natlike_ind; [| |exact Hn].
  - destruct (P 0) eqn:E.
    + left. exists 0. split; [lia | exact E].
    + right. intros i Hi. assert (i = 0) as -> by lia. exact E.
  - intros m Hm [(i & Hi & HP)|Hnone].
    + left. exists i. split; [lia | exact HP].
    + destruct (P (Z.succ m)) eqn:E.
      * left. exists (Z.succ m). split; [lia | exact E].
      * right. intros i Hi. destruct (Z.eq_dec i (Z.succ m)) as [->|Hne]; [exact E|].
        apply Hnone. lia.
Qed.

(** The pigeonhole principle on integer intervals: [n + 1] values below
    [n] cannot be pairwise distinct. *)
Lemma pigeonhole (n : Z) :
  0 <= n ->
  forall f : Z -> Z,
    (forall i, 0 <= i <= n -> 0 <= f i < n) ->
    exists i j, 0 <= i < j /\ j <= n /\ f i = f j.
Proof.
  intros Hn. pattern n. apply natlike_ind; [| |exact Hn].
  - intros f Hf. specialize (Hf 0). lia.
  - intros m Hm IH f Hf.
    destruct (bounded_search (fun i => f i =? f (Z.succ m)) m Hm)
      as [(i & Hi & HP)|Hnone].
    + exists i, (Z.succ m). apply Z.eqb_eq in HP. lia.
    + set (v := f (Z.succ m)).
      destruct (IH (fun i => if f i <? v then f i else f i - 1)) as (i & j & Hij & Hj & E).
      * intros i Hi. pose proof (Hf i ltac:(lia)) as Hfi.
        pose proof (Hf (Z.succ m) ltac:(lia)) as Hfv. fold v in Hfv.
        pose proof (Hnone i Hi) as Hne. cbv beta in Hne. fold v in Hne.
        apply Z.eqb_neq in Hne.
        destruct (f i <? v) eqn:El; [apply Z.ltb_lt in El | apply Z.ltb_ge in El]; lia.
      * exists i, j. split; [exact Hij|]. split; [lia|].
        pose proof (Hnone i ltac:(lia)) as Hi'. pose proof (Hnone j ltac:(lia)) as Hj'.
        cbv beta in Hi', Hj'. fold v in Hi', Hj'.
        apply Z.eqb_neq in Hi', Hj'.
        destruct (f i <? v) eqn:Ei; destruct (f j <? v) eqn:Ej;
          repeat match goal with
                 | H : (_ <? _) = true |- _ => apply Z.ltb_lt in H
                 | H : (_ <? _) = false |- _ => apply Z.ltb_ge in H
                 end; lia.
Qed.

Lemma w32_range x : 0 <= SHA256.w32 x < 2 ^ 32.
Proof. unfold SHA256.w32. apply Z.mod_pos_bound. reflexivity. Qed.

Lemma compress_in_range h block : regs_in_range (SHA256.compress h block).
Proof.
  unfold SHA256.compress. cbv zeta.
  generalize (List.fold_left SHA256.round
                (List.combine SHA256.K
                   (List.rev (SHA256.schedule 48 (List.rev block)))) h).
  intros r. unfold regs_in_range. cbn [SHA256.ra SHA256.rb SHA256.rc SHA256.rd
    SHA256.re SHA256.rf SHA256.rg SHA256.rh].
  repeat split; apply w32_range.
Qed.

Lemma fold_compress_in_range blocks h :
  regs_in_range h -> regs_in_range (List.fold_left SHA256.compress blocks h).
Proof.
  revert h. induction blocks as [|b blocks IH]; intros h Hh; simpl.
  - exact Hh.
  - apply IH, compress_in_range.
Qed.

Lemma H0_in_range : regs_in_range SHA256.H0.
Proof. unfold regs_in_range. simpl. lia. Qed.

Lemma digest_num_range data : 0 <= SHA256.digest_num data < 2 ^ 256.
Proof.
  unfold SHA256.digest_num, SHA256.digest_regs. cbv zeta.
  match goal with
  | |- context [List.fold_left SHA256.compress ?bs SHA256.H0] =>
      pose proof (fold_compress_in_range bs SHA256.H0 H0_in_range) as H;
      generalize dependent (List.fold_left SHA256.compress bs SHA256.H0)
  end.
  intros r (Ha & Hb & Hc & Hd & He & Hf & Hg & Hh). unfold SHA256.regs_num.
  change (2 ^ 32) with 4294967296 in *.
  change (2 ^ 256)
    with 115792089237316195423570985008687907853269984665640564039457584007913129639936.
  lia.
Qed.

Lemma repeat_zero_inj (i j : Z) :
  0 <= i -> 0 <= j ->
  List.repeat x00%byte (Z.to_nat i) = List.repeat x00%byte (Z.to_nat j) -> i = j.
Proof.
  intros Hi Hj E. apply (f_equal (@length byte)) in E.
  rewrite !List.repeat_length in E. lia.
Qed.

(** Two different byte strings with the same SHA-256 digest exist: the
    [2 ^ 256 + 1] strings of zero bytes of length [0] to [2 ^ 256] cannot all
    have different digests. *)
Lemma sha256_collision :
  exists data data' : list byte,
    data <> data' /\ SHA256.hexdigest data' = SHA256.hexdigest data.
Proof.
  destruct (pigeonhole (2 ^ 256) ltac:(lia)
              (fun i => SHA256.digest_num (List.repeat x00%byte (Z.to_nat i))))
    as (i & j & Hij & Hj & E).
  { intros i _. apply digest_num_range. }
  exists (List.repeat x00%byte (Z.to_nat i)), (List.repeat x00%byte (Z.to_nat j)).
  split.
  - intros H. apply repeat_zero_inj in H; lia.
  - unfold SHA256.hexdigest. cbv beta in E. rewrite E. reflexivity.
Qed.

(** C4, as stated, fails: the only version of this registry declares every
    field but the checksum, and the run fails with an error about the
    checksum. *)
Lemma missing_checksum_is_an_error :
  let run := validate_all (fs_of_tree no_checksum_tree) ext0
               (RegistryValidator_init ext0 repo) in
  fst run = Return false
  /\ errors (snd run) = ["payments/normalize_amount@1.0.0: Missing required field: checksum"].
Proof. cbv zeta. split; vm_compute; reflexivity. Qed.

Lemma missing_checksum_block_witness :
  let run := _validate_transform (fs_of_tree no_checksum_tree) ext0 version_dir_1_0_0
               "payments/normalize_amount" "1.0.0" (RegistryValidator_init ext0 repo) in
  fst run <> Return true
  /\ exists added,
       errors (snd run) = [] ++ added
       /\ "payments/normalize_amount@1.0.0: Missing required field: checksum" ∈ added.
Proof.
  cbv zeta.
  destruct (_validate_transform (fs_of_tree no_checksum_tree) ext0 version_dir_1_0_0
              "payments/normalize_amount" "1.0.0" (RegistryValidator_init ext0 repo))
    as [r s'] eqn:E.
  destruct (missing_checksum_block (fs_of_tree no_checksum_tree) ext0 version_dir_1_0_0
              "payments/normalize_amount" "1.0.0"
              [ (PStr "id", PStr "payments/normalize_amount");
                (PStr "version", PStr "1.0.0");
                (PStr "engine", PStr "jsonata");
                (PStr "from_schema", PStr "iglu:acme/order/jsonschema/1-0-0");
                (PStr "to_schema", PStr "iglu:acme/order/jsonschema/1-0-0");
                (PStr "tests",
                 PList [PDict [(PStr "input", PStr "tests/input.json");
                               (PStr "expect", PStr "tests/expected.json")]]);
                (PStr "provenance", PDict [(PStr "author", PStr "Jane")]);
                (PStr "status", PStr "published") ]
              (RegistryValidator_init ext0 repo) r s')
    as (H1 & H2 & _); try (vm_compute; reflexivity).
  - exact E.
  - simpl. split; [exact H1 | exact H2].
Defined.

(** A content with the digest of another one passes verification against
    the declared digest of that one. Such pairs exist by counting; none is
    exhibited here. *)
Lemma checksum_passes_for_colliding_content :
  exists data data' : list byte,
    data <> data'
    /\ forall fs ext (items block : list (pyval * pyval)) f tag (b : bool) s,
         dict_find "checksum" items = Some (PDict block) ->
         dict_find "jsonata_sha256" block = Some (PStr (SHA256.hexdigest data)) ->
         fs_read fs f = Return data' ->
         check_checksum fs ext (PDict items) f tag b s = (Return b, s).
Proof.
  destruct sha256_collision as (data & data' & Hne & E).
  exists data, data'. split; [exact Hne|].
  intros fs ext items block f tag b s Hc Hd Hf.
  rewrite (check_checksum_declared fs ext items block _ f data' tag b s Hc Hd Hf).
  rewrite E. by rewrite String.eqb_refl.
Qed.

(** The expression [$] against its digest, and after a space was appended. *)
Lemma checksum_verification_example :
  let jsonata_file := path_div version_dir_1_0_0 "spec.jsonata" in
  let meta := meta_doc "payments/normalize_amount" "1.0.0" dollar_digest in
  let s0 := RegistryValidator_init ext0 repo in
  check_checksum (fs_of_tree payments_tree) ext0 meta jsonata_file "t@1.0.0" true s0
  = (Return true, s0)
  /\ check_checksum (fs_of_tree drifted_tree) ext0 meta jsonata_file "t@1.0.0" true s0
     = (Return false,
        with_error
          ("t@1.0.0: Checksum mismatch (expected "
           +:+ "09fc96082d34c2dfc1295d92073b5ea1dc8ef8da95f14dfded011ffb96d3e54b"
           +:+ ", got "
           +:+ "e5b111ba26d5bb1cc89d8a3d74fad4cf1ebd5701c29877969c322b456d0784a3" +:+ ")")
          s0).
Proof.
  cbv zeta. split.
  - refine (proj1 (checksum_verification (fs_of_tree payments_tree) ext0 _
                     [(PStr "jsonata_sha256", PStr dollar_digest)] dollar_digest
                     _ (bytes_of "$") _ _ _ _ _ _) _);
      vm_compute; reflexivity.
  - assert (SHA256.hexdigest (bytes_of "$ ")
            = "e5b111ba26d5bb1cc89d8a3d74fad4cf1ebd5701c29877969c322b456d0784a3") as Hd
      by (vm_compute; reflexivity).
    rewrite <- Hd.
    refine (proj2 (checksum_verification (fs_of_tree drifted_tree) ext0 _
                     [(PStr "jsonata_sha256", PStr dollar_digest)] dollar_digest
                     _ (bytes_of "$ ") _ _ _ _ _ _) _);
      try (vm_compute; reflexivity).
    rewrite Hd. vm_compute. discriminate.
Defined.

(** ** The index generator *)

(** *** The projected version entry *)

Section VersionEntry.

Context (fs : filesystem) (ext : externals) (self : IndexGenerator).

Lemma entry_has_set k k' v e :
  entry_has k (entry_set k' v e) = str_eqb k k' || entry_has k e.
Proof.
  induction e as [|[k0 v0] e IH]; simpl.
  - reflexivity.
  - unfold str_eqb in *. destruct (String.eqb k' k0) eqn:E; simpl.
    + apply String.eqb_eq in E. subst k0. unfold str_eqb.
      by destruct (String.eqb k k').
    + rewrite IH. unfold str_eqb.
      destruct (String.eqb k k0), (String.eqb k k'); reflexivity.
Qed.

Lemma entry_getitem_set_eq k v e : entry_getitem k (entry_set k v e) = Return v.
Proof.
  unfold entry_getitem. induction e as [|[k0 v0] e IH]; simpl.
  - unfold str_eqb. by rewrite String.eqb_refl.
  - unfold str_eqb in *. destruct (String.eqb k k0) eqn:E; simpl.
    + by rewrite String.eqb_refl.
    + rewrite E. exact IH.
Qed.

Lemma entry_getitem_set_ne k k' v e :
  k <> k' -> entry_getitem k (entry_set k' v e) = entry_getitem k e.
Proof.
  intros Hne. unfold entry_getitem. induction e as [|[k0 v0] e IH]; simpl.
  - unfold str_eqb. by rewrite (proj2 (String.eqb_neq _ _) Hne).
  - unfold str_eqb in *. destruct (String.eqb k' k0) eqn:E; simpl.
    + apply String.eqb_eq in E. subst k0.
      by rewrite (proj2 (String.eqb_neq _ _) Hne).
    + destruct (String.eqb k k0); [reflexivity | exact IH].
Qed.

(** C7, amended. The entry of a version whose metadata is readable has the
    key [checksum] exactly when the metadata has it, the key [compat]
    exactly when the metadata has a [compat] block containing
    [from_schema_range], and the keys [author] and [created_utc] exactly when
    the metadata has a [provenance] block: then [author] is the author of the
    block, or ["Unknown"] when the block has none, and [created_utc] is the
    timestamp of the block, or [None] when the block has none. *)
Theorem optional_fields_projection (version_dir : Path) (e : version_entry) :
  _read_transform_meta fs ext self version_dir = Some e ->
  exists items,
    load_with fs (yaml_safe_load ext) (path_div version_dir "spec.meta.yaml")
    = Return (PDict items)
    /\ (entry_has "checksum" e = true <-> is_Some (dict_find "checksum" items))
    /\ (entry_has "author" e = true <-> is_Some (dict_find "provenance" items))
    /\ (entry_has "created_utc" e = true <-> is_Some (dict_find "provenance" items))
    /\ (entry_has "compat" e = true <->
        exists c, dict_find "compat" items = Some c
                  /\ py_in "from_schema_range" c = Return true)
    /\ (forall p, dict_find "provenance" items = Some p ->
          entry_getitem "author" e = py_get p "author" (PStr "Unknown")
          /\ entry_getitem "created_utc" e = py_get p "created_utc" PNone).
Proof.
  unfold _read_transform_meta, build_version_entry, load_with.
  destruct (negb _); [discriminate|].
  destruct (fs_read fs _) as [data|]; [|discriminate]. cbn [rbind].
  destruct (yaml_safe_load ext data) as [meta|]; [|discriminate]. cbn [rbind].
  destruct (relative_to _ _) as [rel|]; [|discriminate]. cbn [rbind].
  destruct meta as [| | | | |items]; try discriminate.
  cbn [py_get rbind py_in py_getitem].
  destruct (dict_find "checksum" items) as [c|] eqn:Ec;
  destruct (dict_find "provenance" items) as [p|] eqn:Ep;
  destruct (dict_find "compat" items) as [cm|] eqn:Em;
  cbn [bool_decide decide_rel is_Some_dec decide rbind].
  all: repeat match goal with
       | |- context [py_get ?p ?k ?d] =>
           let E := fresh "Eg" in destruct (py_get p k d) eqn:E; cbn [rbind]
       | |- context [py_in ?k ?c] =>
           let E := fresh "Ei" in destruct (py_in k c) as [[]|] eqn:E; cbn [rbind]
       | |- context [py_getitem ?c ?k] =>
           let E := fresh "Et" in destruct (py_getitem c k) eqn:E; cbn [rbind]
       end.
  all: try discriminate.
  all: intros [= <-]; exists items; split; [reflexivity|].
  all: rewrite ?Ec, ?Ep, ?Em.
  all: repeat match goal with |- _ /\ _ => split end.
  all: try (split; intros H;
            first [ solve [eexists; reflexivity]
                  | vm_compute; reflexivity
                  | vm_compute in H; discriminate H
                  | solve [inversion H; discriminate] ]).
  all: try (split;
            [ intros H;
              first [ exists cm; split; [reflexivity | assumption]
                    | vm_compute in H; discriminate H ]
            | intros (c0 & Hc & Hc0);
              first [ discriminate Hc
                    | injection Hc as <-; first [vm_compute; reflexivity | congruence] ] ]).
  all: intros p0 Hp0;
    first [ discriminate Hp0
          | injection Hp0 as <-; rewrite Eg, Eg0; split; vm_compute; reflexivity ].
Qed.

End VersionEntry.

(** C7, as stated, fails: the provenance block of this version has neither
    an author nor a timestamp, and its entry has both keys. *)
Lemma author_is_defaulted :
  exists e,
    _read_transform_meta (fs_of_tree empty_provenance_tree) ext0 (IndexGenerator_init repo)
      (MkPath "/" ["repo"; "transforms"; "a"; "b"; "1.0.0"]) = Some e
    /\ yaml_safe_load ext0 (bytes_of ("version: 1.0.0" +:+ nl +:+ "provenance: {}" +:+ nl))
       = Return (PDict [(PStr "version", PStr "1.0.0"); (PStr "provenance", PDict [])])
    /\ entry_has "author" e = true
    /\ entry_has "created_utc" e = true
    /\ entry_getitem "author" e = Return (PStr "Unknown")
    /\ entry_getitem "created_utc" e = Return PNone.
Proof. eexists. repeat split; vm_compute; reflexivity. Qed.

Lemma optional_fields_projection_witness :
  exists e,
    _read_transform_meta (fs_of_tree empty_provenance_tree) ext0 (IndexGenerator_init repo)
      (MkPath "/" ["repo"; "transforms"; "a"; "b"; "1.0.0"]) = Some e
    /\ entry_has "checksum" e = false
    /\ entry_has "compat" e = false
    /\ entry_has "author" e = true.
Proof.
  destruct (_read_transform_meta (fs_of_tree empty_provenance_tree) ext0
              (IndexGenerator_init repo)
              (MkPath "/" ["repo"; "transforms"; "a"; "b"; "1.0.0"])) as [e|] eqn:E;
    [|vm_compute in E; discriminate E].
  exists e. split; [reflexivity|].
  destruct (optional_fields_projection (fs_of_tree empty_provenance_tree) ext0
              (IndexGenerator_init repo) _ e E)
    as (items & Hload & Hc & Ha & _ & Hm & _).
  assert (items = [(PStr "version", PStr "1.0.0"); (PStr "provenance", PDict [])]) as ->.
  { vm_compute in Hload. by injection Hload as <-. }
  split; [|split].
  - destruct (entry_has "checksum" e); [|reflexivity].
    destruct (proj1 Hc eq_refl) as [x Hx]. vm_compute in Hx. discriminate Hx.
  - destruct (entry_has "compat" e); [|reflexivity].
    destruct (proj1 Hm eq_refl) as (c & Hx & _). vm_compute in Hx. discriminate Hx.
  - apply Ha. eexists. vm_compute. reflexivity.
Defined.

(** ** The traversal of the validator *)

Lemma mapM_cons_Return {A B} (f : A -> result B) x l ys :
  mapM f (x :: l) = Return ys ->
  exists y ys', f x = Return y /\ mapM f l = Return ys' /\ ys = y :: ys'.
Proof.
  simpl. destruct (f x) as [y|]; [|discriminate]. simpl.
  destruct (mapM f l) as [ys'|]; [|discriminate]. simpl.
  intros [= <-]. eauto.
Qed.

Lemma vfor_filter {A S} (keep : A -> bool) (l : list A) (body : A -> S -> V S) st s :
  (forall x st s, keep x = false -> body x st s = (Return st, s)) ->
  vfor l body st s = vfor (List.filter keep l) body st s.
Proof.
  intros Hskip. revert st s. induction l as [|x l IH]; intros st s; simpl.
  - reflexivity.
  - destruct (keep x) eqn:E; simpl.
    + unfold vbind. destruct (body x st s) as [[st'|e] s']; [apply IH | reflexivity].
    + unfold vbind. rewrite (Hskip x st s E). apply IH.
Qed.

Lemma vfor_ext {A S} (l : list A) (body body' : A -> S -> V S) st s :
  (forall x st s, body x st s = body' x st s) ->
  vfor l body st s = vfor l body' st s.
Proof.
  intros H. revert st s. induction l as [|x l IH]; intros st s; simpl.
  - reflexivity.
  - unfold vbind. rewrite H. destruct (body' x st s) as [[st'|e] s']; [apply IH | reflexivity].
Qed.

Lemma vfor_fmap {A B S} (g : A -> B) (l : list A) (body : B -> S -> V S) st s :
  vfor (g <$> l) body st s = vfor l (fun x => body (g x)) st s.
Proof.
  revert st s. induction l as [|x l IH]; intros st s; simpl.
  - reflexivity.
  - unfold vbind. destruct (body (g x) st s) as [[st'|e] s']; [apply IH | reflexivity].
Qed.

Lemma negb_visible fs p :
  negb (fs_is_dir fs p) || startswith_dot (path_name p) = negb (visible fs p).
Proof. unfold visible. by destruct (fs_is_dir fs p), (startswith_dot (path_name p)). Qed.

Section Traversal.

Context (fs : filesystem) (ext : externals).

Lemma check_version_dir_skip c t v st s :
  visible fs v = false -> check_version_dir fs ext c t v st s = (Return st, s).
Proof.
  intros H. unfold check_version_dir. rewrite negb_visible, H. reflexivity.
Qed.

Lemma check_transform_dir_unit c t listing st s :
  visible fs t = true ->
  iterdir fs t = Return listing ->
  check_transform_dir fs ext c t st s
  = vfor (version_units_of fs {| tu_category := c; tu_transform := t; tu_listing := listing |})
      (check_version_unit fs ext) st s.
Proof.
  intros Hv Hl. unfold check_transform_dir. rewrite negb_visible, Hv.
  unfold vbind at 1, vlift. rewrite Hl. cbn [negb]. cbv beta iota.
  rewrite (vfor_filter (visible fs)); [|intros; by apply check_version_dir_skip].
  unfold version_units_of. simpl. rewrite vfor_fmap. reflexivity.
Qed.

Lemma check_category_dir_units c units st s :
  category_units fs c = Return units ->
  check_category_dir fs ext c st s
  = vfor (version_units fs units) (check_version_unit fs ext) st s.
Proof.
  unfold category_units, check_category_dir. rewrite negb_visible.
  destruct (visible fs c); cbn [negb]; cbv beta iota.
  - destruct (iterdir fs c) as [dirs|e]; [|discriminate]. cbn [rbind].
    unfold vbind at 1, vlift.
    rewrite (vfor_filter (visible fs));
      [|intros x st' s' Hx; unfold check_transform_dir; by rewrite negb_visible, Hx].
    assert (Forall (fun t => visible fs t = true) (List.filter (visible fs) dirs)) as Hall.
    { apply Forall_forall. intros t Ht. apply list_elem_of_In, filter_In in Ht. tauto. }
    revert Hall units st s.
    induction (List.filter (visible fs) dirs) as [|t ts IH]; intros Hall units st s Hm.
    + injection Hm as <-. reflexivity.
    + apply mapM_cons_Return in Hm as (u & us & Hu & Hus & ->).
      destruct (iterdir fs t) as [listing|] eqn:El; [|discriminate]. cbn [rbind] in Hu.
      injection Hu as <-.
      inversion Hall as [|? ? Ht Hts]; subst.
      unfold version_units. rewrite fmap_cons. simpl concat.
      rewrite vfor_app, vfor_cons. unfold vbind.
      rewrite (check_transform_dir_unit c t listing st s Ht El).
      destruct (vfor _ _ st s) as [[st'|e] s']; [|reflexivity].
      apply (IH Hts us st' s' Hus).
  - intros [= <-]. reflexivity.
Qed.

Lemma check_category_dirs_units category_dirs per_category st s :
  mapM (category_units fs) category_dirs = Return per_category ->
  vfor category_dirs (check_category_dir fs ext) st s
  = vfor (version_units fs (concat per_category)) (check_version_unit fs ext) st s.
Proof.
  revert per_category st s.
  induction category_dirs as [|c cs IH]; intros per_category st s Hm.
  - injection Hm as <-. reflexivity.
  - apply mapM_cons_Return in Hm as (us & rest & Hu & Hrest & ->).
    simpl concat. unfold version_units. rewrite fmap_app, concat_app.
    rewrite vfor_app, vfor_cons. unfold vbind.
    rewrite (check_category_dir_units c us st s Hu).
    fold (version_units fs us).
    destruct (vfor _ _ st s) as [[st'|e] s']; [|reflexivity].
    apply (IH rest st' s' Hrest).
Qed.

(** When every listing succeeds, [check_transforms] is one loop over the
    version directories visited. *)
Lemma check_transforms_units s units :
  fs_exists fs (transforms_dir s) = true ->
  transform_units fs (transforms_dir s) = Return units ->
  check_transforms fs ext s
  = (st <- vfor (version_units fs units) (check_version_unit fs ext) transforms_locals_init ;;
     print ("  ✓ Validated " +:+ str_of_nat (transform_count st) +:+ " transforms") ;;
     vret (tl_success st))%V (with_line "Checking transforms..." s).
Proof.
  intros He Hu. unfold check_transforms. rewrite vbind_print.
  unfold vbind at 1, vget.
  change (transforms_dir (with_line "Checking transforms..." s)) with (transforms_dir s).
  rewrite He. cbn [negb]. cbv beta iota.
  unfold transform_units in Hu.
  destruct (iterdir fs (transforms_dir s)) as [cats|] eqn:Ec; [|discriminate].
  cbn [rbind] in Hu.
  destruct (mapM (category_units fs) cats) as [per|] eqn:Em; [|discriminate].
  injection Hu as <-.
  unfold vbind at 1, vlift.
  unfold vbind at 1 3. unfold transforms_locals_init.
  rewrite (check_category_dirs_units cats per _ _ Em). reflexivity.
Qed.

(** *** Duplicate version directories *)

Lemma version_units_visible units u :
  u ∈ version_units fs units -> visible fs (vu_version_dir u) = true.
Proof.
  unfold version_units. intros H.
  apply list_elem_of_In, in_concat in H as (l & Hl & Hu).
  apply list_elem_of_In in Hl, Hu.
  apply list_elem_of_fmap in Hl as (tu & -> & _).
  unfold version_units_of in Hu.
  apply list_elem_of_fmap in Hu as (v & -> & Hv). simpl.
  apply list_elem_of_In, filter_In in Hv. tauto.
Qed.

Lemma check_version_unit_ids u st s st' s' :
  check_version_unit fs ext u st s = (Return st', s') ->
  transform_ids st ⊆ transform_ids st'
  /\ (visible fs (vu_version_dir u) = true -> vu_key u ∈ transform_ids st').
Proof.
  unfold check_version_unit, check_version_dir. rewrite negb_visible. cbv zeta.
  destruct (visible fs (vu_version_dir u)); cbn [negb]; cbv beta iota.
  - fold (vu_id u). fold (vu_key u).
    case_bool_decide as Hin.
    + intros [= <- <-]. simpl. split; [done|]. by intros _.
    + unfold vbind. destruct (_validate_transform _ _ _ _ _ s) as [[[]|] ?]; simpl;
        intros [= <- <-]; simpl; split; try set_solver.
  - intros [= <- <-]. split; [done | discriminate].
Qed.

Lemma vfor_version_units_ids l st s st' s' :
  vfor l (check_version_unit fs ext) st s = (Return st', s') ->
  transform_ids st ⊆ transform_ids st'
  /\ (forall u, u ∈ l -> visible fs (vu_version_dir u) = true ->
                vu_key u ∈ transform_ids st').
Proof.
  revert st s. induction l as [|u l IH]; intros st s; simpl.
  - intros [= <- <-]. split; [done|]. intros u Hu. by apply elem_of_nil in Hu.
  - intros E. apply vbind_Return in E as (st1 & s1 & E1 & E2).
    apply check_version_unit_ids in E1 as [Hsub Hkey].
    destruct (IH _ _ E2) as [Hsub' Hkeys]. clear IH.
    split; [by transitivity (transform_ids st1)|].
    intros u' Hu' Hv. apply elem_of_cons in Hu' as [->|Hu']; [|by apply Hkeys].
    apply Hsub'. by apply Hkey.
Qed.

(** When a visited version directory has a pair already seen, the body of
    the loop appends the duplicate error, clears the flag and does nothing
    else: no check of the unit runs, and the count is kept. *)
Lemma check_version_unit_duplicate u st s :
  visible fs (vu_version_dir u) = true ->
  vu_key u ∈ transform_ids st ->
  check_version_unit fs ext u st s
  = (Return {| transform_ids := transform_ids st;
               transform_count := transform_count st;
               tl_success := false |},
     with_error ("Duplicate transform: " +:+ vu_id u +:+ "@"
                 +:+ path_name (vu_version_dir u)) s).
Proof.
  intros Hv Hin. unfold check_version_unit, check_version_dir.
  rewrite negb_visible, Hv. cbv zeta. cbn [negb]. cbv beta iota.
  fold (vu_id u). fold (vu_key u). rewrite (bool_decide_eq_true_2 _ Hin). reflexivity.
Qed.

(** What the duplicate branch does where it is reached, which takes a
    listing that yields one name twice: in a traversal that visits [u1] and
    then [u2] with the same pair of names, and that reaches [u2], the visit
    of [u2] appends exactly the one duplicate error and clears the flag; no
    per-unit check of [u2] runs and the count of validated transforms is what
    it was before [u2]. The run then continues with the directories after
    [u2]. *)
Lemma duplicate_version_directory (s : RegistryValidator) (units : list transform_unit)
    (pre mid post : list version_unit) (u1 u2 : version_unit)
    (st1 : transforms_locals) (s1 : RegistryValidator) :
  fs_exists fs (transforms_dir s) = true ->
  transform_units fs (transforms_dir s) = Return units ->
  version_units fs units = pre ++ u1 :: mid ++ u2 :: post ->
  vu_key u2 = vu_key u1 ->
  vfor (pre ++ u1 :: mid) (check_version_unit fs ext) transforms_locals_init
    (with_line "Checking transforms..." s) = (Return st1, s1) ->
  let duplicate_error :=
    "Duplicate transform: " +:+ vu_id u2 +:+ "@" +:+ path_name (vu_version_dir u2) in
  let st2 := {| transform_ids := transform_ids st1;
                transform_count := transform_count st1;
                tl_success := false |} in
  check_version_unit fs ext u2 st1 s1 = (Return st2, with_error duplicate_error s1)
  /\ check_transforms fs ext s
     = (st <- vfor post (check_version_unit fs ext) st2 ;;
        print ("  ✓ Validated " +:+ str_of_nat (transform_count st) +:+ " transforms") ;;
        vret (tl_success st))%V (with_error duplicate_error s1).
Proof.
  intros He Hu Hl Hk E1. cbv zeta.
  assert (visible fs (vu_version_dir u1) = true /\ visible fs (vu_version_dir u2) = true)
    as [Hv1 Hv2].
  { split; apply (version_units_visible units); rewrite Hl.
    - apply elem_of_app. right. by left.
    - apply elem_of_app. right. right. apply elem_of_app. right. by left. }
  assert (vu_key u2 ∈ transform_ids st1) as Hin.
  { rewrite Hk. apply vfor_version_units_ids in E1 as [_ Hkeys].
    apply Hkeys; [|exact Hv1]. apply elem_of_app. right. by left. }
  pose proof (check_version_unit_duplicate u2 st1 s1 Hv2 Hin) as E2.
  split; [exact E2|].
  rewrite (check_transforms_units s units He Hu), Hl.
  replace (pre ++ u1 :: mid ++ u2 :: post) with ((pre ++ u1 :: mid) ++ u2 :: post)
    by (by rewrite <- app_assoc).
  unfold vbind at 1. rewrite vfor_app. unfold vbind at 1. rewrite E1.
  rewrite vfor_cons. unfold vbind at 1. rewrite E2. reflexivity.
Qed.

End Traversal.

Lemma duplicate_version_directory_example :
  let fs := fs_of_tree duplicate_tree in
  let s0 := RegistryValidator_init ext0 repo in
  let u := {| vu_category := MkPath "/" ["repo"; "transforms"; "payments"];
              vu_transform := MkPath "/" ["repo"; "transforms"; "payments"; "normalize_amount"];
              vu_version_dir := version_dir_1_0_0 |} in
  let first_visit :=
    vfor [u] (check_version_unit fs ext0) transforms_locals_init
      (with_line "Checking transforms..." s0) in
  exists st1,
    fst first_visit = Return st1
    /\ transform_count st1 = 1%nat
    /\ check_version_unit fs ext0 u st1 (snd first_visit)
       = (Return {| transform_ids := transform_ids st1; transform_count := 1;
                    tl_success := false |},
          with_error "Duplicate transform: payments/normalize_amount@1.0.0"
            (snd first_visit)).
Proof.
  cbv zeta.
  set (fs := fs_of_tree duplicate_tree).
  set (s0 := RegistryValidator_init ext0 repo).
  set (u := {| vu_category := MkPath "/" ["repo"; "transforms"; "payments"];
               vu_transform := MkPath "/" ["repo"; "transforms"; "payments"; "normalize_amount"];
               vu_version_dir := version_dir_1_0_0 |}).
  set (first_visit := vfor [u] (check_version_unit fs ext0) transforms_locals_init
                        (with_line "Checking transforms..." s0)).
  destruct first_visit as [r s1] eqn:E.
  destruct r as [st1|e]; [|vm_compute in E; discriminate E].
  exists st1. split; [reflexivity|].
  assert (transform_count st1 = 1%nat) as Hcount.
  { assert (fst first_visit = Return st1) as H by (by rewrite E).
    vm_compute in H. injection H as <-. reflexivity. }
  split; [exact Hcount|].
  destruct (duplicate_version_directory fs ext0 s0
              [ {| tu_category := vu_category u; tu_transform := vu_transform u;
                   tu_listing := [version_dir_1_0_0; version_dir_1_0_0] |} ]
              [] [] [] u u st1 s1) as [H _];
    try (vm_compute; reflexivity).
  - exact E.
  - simpl. rewrite <- Hcount. exact H.
Defined.

(** ** Sorting *)

Lemma str_ltb_lt a b : String.ltb a b = true <-> OrderedTypeEx.String_as_OT.lt a b.
Proof.
  unfold String.ltb. rewrite <- OrderedTypeEx.String_as_OT.cmp_lt.
  unfold OrderedTypeEx.String_as_OT.cmp. destruct (String.compare a b); split; congruence.
Qed.

Lemma str_ltb_trans a b c :
  String.ltb a b = true -> String.ltb b c = true -> String.ltb a c = true.
Proof.
  rewrite !str_ltb_lt. apply OrderedTypeEx.String_as_OT.lt_trans.
Qed.

Lemma str_ltb_asym a b : String.ltb a b = true -> String.ltb b a = false.
Proof.
  unfold String.ltb. rewrite (String.compare_antisym b a).
  destruct (String.compare a b); simpl; congruence.
Qed.

Lemma str_ltb_total a b : String.ltb a b = false -> String.ltb b a = false -> a = b.
Proof.
  unfold String.ltb. rewrite (String.compare_antisym b a).
  destruct (String.compare a b) eqn:E; simpl; try congruence.
  intros _ _. by apply String.compare_eq_iff.
Qed.

Lemma str_le_refl a : str_le a a.
Proof.
  unfold str_le. destruct (String.ltb a a) eqn:E; [|done].
  pose proof (str_ltb_asym a a E). congruence.
Qed.

Lemma str_le_trans a b c : str_le a b -> str_le b c -> str_le a c.
Proof.
  unfold str_le. intros Hab Hbc.
  destruct (String.ltb c a) eqn:Hca; [|done]. exfalso.
  destruct (String.ltb a b) eqn:Hab'.
  - pose proof (str_ltb_trans c a b Hca Hab'). congruence.
  - pose proof (str_ltb_total a b Hab' Hab). subst. congruence.
Qed.


Lemma str_le_total a b : str_le a b \/ str_le b a.
Proof.
  unfold str_le. destruct (String.ltb b a) eqn:E; [right | by left].
  by apply str_ltb_asym.
Qed.

Section StableSort.

Context {A : Type} (before : A -> A -> bool).

Lemma sort_insert_perm x l : sort_insert before x l ≡ₚ x :: l.
Proof.
  induction l as [|y l IH]; simpl; [done|].
  destruct (before x y); [done|]. rewrite IH. apply Permutation_swap.
Qed.

Lemma stable_sort_perm l : stable_sort before l ≡ₚ l.
Proof.
  induction l as [|x l IH]; simpl; [done|].
  rewrite sort_insert_perm. by rewrite IH.
Qed.

Lemma sort_insert_sorted (P : A -> Prop) x l :
  (forall a b, P a -> P b -> before a b = false -> before b a = true) ->
  P x -> Forall P l ->
  Sorted (fun a b => before a b = true) l ->
  Sorted (fun a b => before a b = true) (sort_insert before x l).
Proof.
  intros Htot Hx Hl Hs. induction Hs as [|y l Hs IH Hhd]; simpl.
  - repeat constructor.
  - inversion Hl as [|? ? Hy Hl']; subst.
    destruct (before x y) eqn:E.
    + constructor; [by constructor | by constructor].
    + constructor; [by apply IH|].
      destruct l as [|z l]; simpl.
      * constructor. by apply Htot.
      * destruct (before x z); constructor; [by apply Htot|].
        by inversion Hhd.
Qed.

Lemma stable_sort_sorted (P : A -> Prop) l :
  (forall a b, P a -> P b -> before a b = false -> before b a = true) ->
  Forall P l ->
  Sorted (fun a b => before a b = true) (stable_sort before l).
Proof.
  intros Htot Hl. induction Hl as [|x l Hx Hl IH]; simpl; [constructor|].
  eapply sort_insert_sorted; eauto.
  eapply Forall_forall. intros y Hy. rewrite stable_sort_perm in Hy.
  by eapply Forall_forall in Hl.
Qed.



End StableSort.

Lemma sort_insert_fmap {A B} (f : A -> B) (before : B -> B -> bool) x l :
  sort_insert before (f x) (f <$> l)
  = f <$> sort_insert (fun a b => before (f a) (f b)) x l.
Proof.
  induction l as [|y l IH]; simpl; [done|].
  destruct (before (f x) (f y)); [done|]. simpl. f_equal. exact IH.
Qed.

Lemma stable_sort_fmap {A B} (f : A -> B) (before : B -> B -> bool) l :
  stable_sort before (f <$> l) = f <$> stable_sort (fun a b => before (f a) (f b)) l.
Proof.
  unfold stable_sort. induction l as [|x l IH]; [done|].
  rewrite fmap_cons. cbn [fold_right]. rewrite IH. apply sort_insert_fmap.
Qed.

Lemma NoDup_fmap_inj_on {A B} (f : A -> B) l x y :
  NoDup (f <$> l) -> x ∈ l -> y ∈ l -> f x = f y -> x = y.
Proof.
  induction l as [|z l IH]; intros Hnd Hx Hy E; [by apply elem_of_nil in Hx|].
  rewrite fmap_cons in Hnd. apply NoDup_cons in Hnd as [Hz Hnd].
  apply elem_of_cons in Hx as [->|Hx], Hy as [->|Hy]; [done| | |by apply IH].
  - exfalso. apply Hz. rewrite E. by apply list_elem_of_fmap_2.
  - exfalso. apply Hz. rewrite <- E. by apply list_elem_of_fmap_2.
Qed.

Lemma Sorted_weaken {A} (R R' : A -> A -> Prop) l :
  (forall a b, R a b -> R' a b) -> Sorted R l -> Sorted R' l.
Proof.
  intros H Hs. induction Hs as [|x l Hs IH Hhd]; constructor; [exact IH|].
  destruct Hhd; constructor. by apply H.
Qed.

Lemma negb_ltb_le a b : negb (String.ltb b a) = true <-> str_le a b.
Proof. unfold str_le. by destruct (String.ltb b a). Qed.

(** Sorting by a string key: the result is sorted, and does not depend on the
    order of the input when the keys are distinct. *)
Lemma sorted_by_str_sorted {A} (key : A -> string) l :
  StronglySorted (fun a b => str_le (key a) (key b)) (sorted_by_str key l).
Proof.
  apply Sorted_StronglySorted.
  { intros a b c. apply str_le_trans. }
  unfold sorted_by_str.
  eapply Sorted_weaken; [|apply (stable_sort_sorted _ (fun _ => True))].
  - intros a b H. by apply negb_ltb_le.
  - intros a b _ _ H. apply negb_false_iff in H. apply negb_true_iff.
    by apply str_ltb_asym.
  - by apply Forall_forall.
Qed.

Lemma sorted_by_str_perm {A} (key : A -> string) l : sorted_by_str key l ≡ₚ l.
Proof. apply stable_sort_perm. Qed.


Lemma sorted_by_str_desc_sorted {A} (key : A -> string) l :
  StronglySorted (fun a b => str_le (key b) (key a)) (sorted_by_str_desc key l).
Proof.
  apply Sorted_StronglySorted.
  { intros a b c H1 H2. by apply (str_le_trans _ (key b)). }
  unfold sorted_by_str_desc.
  eapply Sorted_weaken; [|apply (stable_sort_sorted _ (fun _ => True))].
  - intros a b H. by apply negb_ltb_le.
  - intros a b _ _ H. apply negb_false_iff in H. apply negb_true_iff.
    by apply str_ltb_asym.
  - by apply Forall_forall.
Qed.



(** *** [list.sort] with a key *)

Lemma mapM_Return_fmap {A B} (f : A -> result B) (d : B) l ys :
  mapM f l = Return ys ->
  ys = (fun x => value_or d (f x)) <$> l /\ Forall (fun x => f x = Return (value_or d (f x))) l.
Proof.
  revert ys. induction l as [|x l IH]; intros ys H.
  - injection H as <-. split; [done | constructor].
  - apply mapM_cons_Return in H as (y & ys' & Hy & Hys & ->).
    destruct (IH ys' Hys) as [-> Hall]. rewrite fmap_cons, Hy. simpl.
    split; [done|]. constructor; [by rewrite Hy | exact Hall].
Qed.

Lemma mapM_Forall_Return {A B} (f : A -> result B) (g : A -> B) l :
  Forall (fun x => f x = Return (g x)) l -> mapM f l = Return (g <$> l).
Proof.
  induction 1 as [|x l Hx Hl IH]; [done|].
  simpl. rewrite Hx. simpl. by rewrite IH.
Qed.

Lemma combine_fmap_l {A B} (k : A -> B) (l : list A) :
  List.combine (k <$> l) l = (fun x => (k x, x)) <$> l.
Proof. induction l as [|x l IH]; [done|]. rewrite !fmap_cons. simpl. by rewrite IH. Qed.

Lemma py_sort_reverse_Return {A} (key : A -> result pyval) (l r : list A) :
  py_sort_reverse key l = Return r ->
  r = stable_sort (fun x y => negb (py_ltb (value_or PNone (key x)) (value_or PNone (key y)))) l
  /\ Forall (fun x => key x = Return (value_or PNone (key x))) l.
Proof.
  unfold py_sort_reverse. destruct (mapM key l) as [keys|] eqn:Hk; [|discriminate].
  cbn [rbind]. apply (mapM_Return_fmap _ PNone) in Hk as [-> Hall].
  destruct (_ || _); [|discriminate]. intros [= <-]. split; [|exact Hall].
  rewrite combine_fmap_l, stable_sort_fmap, <- list_fmap_compose.
  simpl. apply list_fmap_id.
Qed.

Lemma version_str_key e s : version_str e = Some s -> entry_getitem "version" e = Return (PStr s).
Proof.
  unfold version_str. destruct (entry_getitem "version" e) as [[]|]; try discriminate.
  by intros [= ->].
Qed.

Lemma all_comparable_strings (strs : list string) : all_comparable (PStr <$> strs) = true.
Proof.
  unfold all_comparable. apply forallb_forall. intros a Ha.
  apply forallb_forall. intros b Hb.
  apply list_elem_of_In, list_elem_of_fmap in Ha as (x & -> & _).
  apply list_elem_of_In, list_elem_of_fmap in Hb as (y & -> & _).
  reflexivity.
Qed.

(** Sorting versions whose version values are all strings never raises and
    orders them by descending version string. *)
Lemma sort_versions_strings (l : list version_entry) :
  Forall (fun e => is_Some (version_str e)) l ->
  sort_versions l = Return (sorted_by_str_desc version_string l).
Proof.
  intros Hall. unfold sort_versions, py_sort_reverse.
  assert (Forall (fun e => entry_getitem "version" e = Return (PStr (version_string e))) l)
    as Hkeys.
  { eapply Forall_impl; [exact Hall|]. intros e [s Hs]. unfold version_string.
    rewrite Hs. by apply version_str_key. }
  rewrite (mapM_Forall_Return _ _ _ Hkeys). cbn [rbind].
  rewrite (list_fmap_compose version_string PStr), all_comparable_strings, orb_true_r.
  f_equal. rewrite <- (list_fmap_compose version_string PStr).
  rewrite combine_fmap_l, stable_sort_fmap, <- list_fmap_compose.
  rewrite list_fmap_id. reflexivity.
Qed.

Lemma version_str_perm (l1 l2 : list version_entry) :
  l1 ≡ₚ l2 ->
  Forall (fun e => is_Some (version_str e)) l1 -> Forall (fun e => is_Some (version_str e)) l2.
Proof. intros Hp. by rewrite Hp. Qed.

(** ** The traversal of the index generator *)

Lemma rfor_cons {A S} (x : A) (l : list A) (body : A -> S -> result S) st :
  rfor (x :: l) body st = rbind (body x st) (rfor l body).
Proof. reflexivity. Qed.

Lemma rfor_app {A S} (l1 l2 : list A) (body : A -> S -> result S) st :
  rfor (l1 ++ l2) body st = rbind (rfor l1 body st) (rfor l2 body).
Proof.
  revert st. induction l1 as [|x l1 IH]; intros st; simpl; [done|].
  destruct (body x st); simpl; [apply IH | done].
Qed.

Lemma rfor_filter {A S} (keep : A -> bool) (l : list A) (body : A -> S -> result S) st :
  (forall x st, keep x = false -> body x st = Return st) ->
  rfor l body st = rfor (List.filter keep l) body st.
Proof.
  intros Hskip. revert st. induction l as [|x l IH]; intros st; simpl; [done|].
  destruct (keep x) eqn:E; simpl.
  - destruct (body x st); simpl; [apply IH | done].
  - rewrite (Hskip x st E). simpl. apply IH.
Qed.

Section IndexTraversal.

Context (fs : filesystem) (ext : externals) (self : IndexGenerator).


Lemma collect_version_dir_spec id v (m : gmap string (list version_entry)) vs :
  m !! id = Some vs ->
  collect_version_dir fs ext self id v m
  = Return (<[id := vs ++ readable_entry fs ext self v]> m).
Proof.
  intros Hm. unfold collect_version_dir, readable_entry. rewrite negb_visible.
  destruct (visible fs v); cbn [negb]; cbv beta iota zeta.
  - destruct (_read_transform_meta fs ext self v) as [[|kv e]|]; simpl.
    + by rewrite app_nil_r, insert_id.
    + by rewrite Hm.
    + by rewrite app_nil_r, insert_id.
  - by rewrite app_nil_r, insert_id.
Qed.

Lemma rfor_collect_version_dirs id listing (m : gmap string (list version_entry)) vs :
  m !! id = Some vs ->
  rfor listing (collect_version_dir fs ext self id) m
  = Return (<[id := vs ++ flat_map (readable_entry fs ext self) listing]> m).
Proof.
  revert m vs. induction listing as [|v listing IH]; intros m vs Hm; simpl.
  - by rewrite app_nil_r, insert_id.
  - rewrite (collect_version_dir_spec id v m vs Hm). simpl.
    rewrite (IH _ (vs ++ readable_entry fs ext self v)) by apply lookup_insert_eq.
    by rewrite insert_insert_eq, app_assoc.
Qed.

Lemma collect_transform_dir_unit c t listing (m : gmap string (list version_entry)) :
  visible fs t = true ->
  iterdir fs t = Return listing ->
  collect_transform_dir fs ext self c t m
  = Return (collect_units fs ext self [ {| tu_category := c; tu_transform := t; tu_listing := listing |} ] m).
Proof.
  intros Hv Hl. unfold collect_transform_dir. rewrite negb_visible, Hv.
  cbn [negb]. cbv beta iota zeta. rewrite Hl. cbn [rbind].
  unfold collect_units. simpl. unfold tu_id. simpl.
  set (id := path_name c +:+ "/" +:+ path_name t).
  case_bool_decide as Hnone.
  - rewrite (rfor_collect_version_dirs id listing _ []) by apply lookup_insert_eq.
    rewrite insert_insert_eq, Hnone. reflexivity.
  - destruct (m !! id) as [vs|] eqn:Hm; [|done].
    rewrite (rfor_collect_version_dirs id listing _ vs Hm). reflexivity.
Qed.

Lemma collect_units_app us1 us2 m :
  collect_units fs ext self (us1 ++ us2) m = collect_units fs ext self us2 (collect_units fs ext self us1 m).
Proof. unfold collect_units. apply fold_left_app. Qed.

Lemma collect_units_cons u us m :
  collect_units fs ext self (u :: us) m = collect_units fs ext self us (collect_units fs ext self [u] m).
Proof. reflexivity. Qed.

Lemma collect_category_dir_units c (m : gmap string (list version_entry)) :
  collect_category_dir fs ext self c m
  = rbind (category_units fs c) (fun us => Return (collect_units fs ext self us m)).
Proof.
  unfold collect_category_dir, category_units. rewrite negb_visible.
  destruct (visible fs c); cbn [negb]; cbv beta iota; [|done].
  destruct (iterdir fs c) as [dirs|e]; [|done]. cbn [rbind].
  rewrite (rfor_filter (visible fs));
    [|intros x st Hx; unfold collect_transform_dir; by rewrite negb_visible, Hx].
  assert (Forall (fun t => visible fs t = true) (List.filter (visible fs) dirs)) as Hall.
  { apply Forall_forall. intros t Ht. apply list_elem_of_In, filter_In in Ht. tauto. }
  revert Hall m.
  induction (List.filter (visible fs) dirs) as [|t ts IH]; intros Hall m; [done|].
  inversion Hall as [|? ? Ht Hts]; subst.
  rewrite rfor_cons. cbn [mapM].
  destruct (iterdir fs t) as [listing|e] eqn:El.
  - rewrite (collect_transform_dir_unit c t listing m Ht El). cbn [rbind].
    rewrite (IH Hts). destruct (mapM _ ts) as [us|]; [|done]. cbn [rbind].
    by rewrite (collect_units_cons _ us).
  - unfold collect_transform_dir. rewrite negb_visible, Ht. cbn [negb]. cbv beta iota zeta.
    by rewrite El.
Qed.

Lemma rfor_collect_category_dirs cats (m : gmap string (list version_entry)) :
  rfor cats (collect_category_dir fs ext self) m
  = rbind (mapM (category_units fs) cats)
      (fun per => Return (collect_units fs ext self (concat per) m)).
Proof.
  revert m. induction cats as [|c cats IH]; intros m; [done|].
  rewrite rfor_cons, collect_category_dir_units. cbn [mapM].
  destruct (category_units fs c) as [us|]; [|done]. cbn [rbind].
  rewrite IH. destruct (mapM _ cats) as [per|]; [|done]. cbn [rbind].
  simpl concat. by rewrite collect_units_app.
Qed.

(** [_collect_transforms] visits the transform directories, then converts
    the dict to the list format. *)
Lemma collect_transforms_units :
  fs_exists fs (ig_transforms_dir self) = true ->
  _collect_transforms fs ext self
  = rbind (transform_units fs (ig_transforms_dir self))
      (fun units => to_list_format (collect_units fs ext self units ∅)).
Proof.
  intros He. unfold _collect_transforms, transform_units. rewrite He.
  cbn [negb]. cbv beta iota.
  destruct (iterdir fs (ig_transforms_dir self)) as [cats|]; [|done]. cbn [rbind].
  rewrite rfor_collect_category_dirs.
  destruct (mapM _ cats) as [per|]; done.
Qed.

Lemma discovered_cons u us id :
  discovered fs ext self (u :: us) id
  = (if bool_decide (tu_id u = id) then unit_entries fs ext self u else []) ++ discovered fs ext self us id.
Proof. reflexivity. Qed.

Lemma discovered_not_in us id : id ∉ tu_id <$> us -> discovered fs ext self us id = [].
Proof.
  induction us as [|u us IH]; intros Hin; [done|].
  rewrite discovered_cons. rewrite fmap_cons in Hin.
  apply not_elem_of_cons in Hin as [Hne Hin].
  rewrite bool_decide_eq_false_2 by congruence. by apply IH.
Qed.

(** The dict after the visit: one key per visited transform id, holding the
    version entries discovered under it, in the order of the visit. *)
Lemma collect_units_lookup us (m : gmap string (list version_entry)) id :
  collect_units fs ext self us m !! id
  = if bool_decide (id ∈ tu_id <$> us)
    then Some (default [] (m !! id) ++ discovered fs ext self us id)
    else m !! id.
Proof.
  revert m. induction us as [|u us IH]; intros m.
  - reflexivity.
  - change (collect_units fs ext self (u :: us) m)
      with (collect_units fs ext self us
              (<[tu_id u := default [] (m !! tu_id u) ++ unit_entries fs ext self u]> m)).
    rewrite IH, fmap_cons, discovered_cons.
    destruct (decide (tu_id u = id)) as [->|Hne].
    + rewrite lookup_insert_eq. simpl.
      rewrite (bool_decide_eq_true_2 (id ∈ id :: _)) by by left.
      rewrite (bool_decide_eq_true_2 (id = id)) by done.
      case_bool_decide as Hin; [by rewrite <- app_assoc|].
      by rewrite (discovered_not_in us id Hin), app_nil_r.
    + rewrite lookup_insert_ne by done.
      rewrite (bool_decide_eq_false_2 (tu_id u = id)) by done. simpl.
      case_bool_decide as H1; case_bool_decide as H2; try done.
      * exfalso. apply H2. by right.
      * exfalso. apply elem_of_cons in H2 as [?|?]; [congruence | done].
Qed.

End IndexTraversal.

(** ** The list format *)

Lemma mapM_elem_of {A B} (f : A -> result B) l r x :
  mapM f l = Return r -> x ∈ l -> exists y, f x = Return y /\ y ∈ r.
Proof.
  revert r. induction l as [|a l IH]; intros r H Hx; [by apply elem_of_nil in Hx|].
  apply mapM_cons_Return in H as (y & ys & Hy & Hys & ->).
  apply elem_of_cons in Hx as [->|Hx].
  - exists y. split; [done | by left].
  - destruct (IH ys Hys Hx) as (y' & Hy' & Hin). exists y'. split; [done | by right].
Qed.

Lemma mapM_elem_of_inv {A B} (f : A -> result B) l r y :
  mapM f l = Return r -> y ∈ r -> exists x, x ∈ l /\ f x = Return y.
Proof.
  revert r. induction l as [|a l IH]; intros r H Hy.
  - injection H as <-. by apply elem_of_nil in Hy.
  - apply mapM_cons_Return in H as (y0 & ys & Hy0 & Hys & ->).
    apply elem_of_cons in Hy as [->|Hy].
    + exists a. split; [by left | done].
    + destruct (IH ys Hys Hy) as (x & Hx & Hfx). exists x. split; [by right | done].
Qed.

Lemma mapM_fmap_eq {A B C} (f : A -> result B) (g : B -> C) (h : A -> C) l r :
  (forall x y, f x = Return y -> g y = h x) ->
  mapM f l = Return r -> g <$> r = h <$> l.
Proof.
  intros Hgh. revert r. induction l as [|a l IH]; intros r H.
  - by injection H as <-.
  - apply mapM_cons_Return in H as (y & ys & Hy & Hys & ->).
    rewrite !fmap_cons. f_equal; [by apply Hgh | by apply IH].
Qed.

Lemma StronglySorted_fmap_2 {A B} (f : A -> B) (R : B -> B -> Prop) l :
  StronglySorted (fun a b => R (f a) (f b)) l -> StronglySorted R (f <$> l).
Proof.
  induction 1 as [|x l Hs IH Hall]; [constructor|].
  rewrite fmap_cons. constructor; [exact IH|].
  apply Forall_fmap. exact Hall.
Qed.

Section ListFormat.

Context (fs : filesystem) (ext : externals) (self : IndexGenerator).


Lemma to_list_format_ids (m : gmap string (list version_entry)) r :
  to_list_format m = Return r ->
  te_id <$> r = fst <$> sorted_by_str fst (map_to_list m).
Proof.
  unfold to_list_format. apply mapM_fmap_eq.
  intros [id vs] e. simpl. destruct (sort_versions vs); [|discriminate].
  by intros [= <-].
Qed.

Lemma to_list_format_entry (m : gmap string (list version_entry)) r e :
  to_list_format m = Return r -> e ∈ r ->
  exists vs, m !! te_id e = Some vs /\ sort_versions vs = Return (te_versions e).
Proof.
  unfold to_list_format. intros H He.
  destruct (mapM_elem_of_inv _ _ _ _ H He) as ([id vs] & Hin & Hf).
  rewrite sorted_by_str_perm in Hin. apply elem_of_map_to_list in Hin.
  simpl in Hf. destruct (sort_versions vs) as [sorted|] eqn:Hs; [|discriminate].
  injection Hf as <-. simpl. eauto.
Qed.

Lemma to_list_format_lookup (m : gmap string (list version_entry)) r id vs :
  to_list_format m = Return r -> m !! id = Some vs ->
  exists sorted, sort_versions vs = Return sorted
                 /\ {| te_id := id; te_versions := sorted |} ∈ r.
Proof.
  unfold to_list_format. intros H Hm.
  assert ((id, vs) ∈ sorted_by_str fst (map_to_list m)) as Hin.
  { rewrite sorted_by_str_perm. by apply elem_of_map_to_list. }
  destruct (mapM_elem_of _ _ _ _ H Hin) as (e & Hf & He).
  simpl in Hf. destruct (sort_versions vs) as [sorted|]; [|discriminate].
  injection Hf as <-. eauto.
Qed.

Lemma to_list_format_NoDup (m : gmap string (list version_entry)) r :
  to_list_format m = Return r -> NoDup (te_id <$> r).
Proof.
  intros H. rewrite (to_list_format_ids m r H), sorted_by_str_perm.
  apply NoDup_fst_map_to_list.
Qed.

Lemma to_list_format_sorted (m : gmap string (list version_entry)) r :
  to_list_format m = Return r -> StronglySorted str_le (te_id <$> r).
Proof.
  intros H. rewrite (to_list_format_ids m r H).
  apply StronglySorted_fmap_2, sorted_by_str_sorted.
Qed.

Lemma unit_entries_unreadable u :
  (forall v, v ∈ tu_listing u -> visible fs v = true ->
             _read_transform_meta fs ext self v = None) ->
  unit_entries fs ext self u = [].
Proof.
  intros H. unfold unit_entries.
  induction (tu_listing u) as [|v l IH]; [done|]. simpl.
  rewrite IH by (intros; apply H; [by right | done]).
  unfold readable_entry. destruct (visible fs v) eqn:Hv; [|done].
  rewrite (H v) by (by left || done). done.
Qed.

Lemma discovered_unreadable units id :
  (forall u, u ∈ units -> tu_id u = id -> unit_entries fs ext self u = []) ->
  discovered fs ext self units id = [].
Proof.
  intros H. induction units as [|u us IH]; [done|].
  unfold discovered. simpl. fold (discovered fs ext self us id).
  rewrite IH by (intros; apply H; [by right | done]).
  case_bool_decide as E; [|done]. rewrite (H u) by (by left || done). done.
Qed.

(** C10. When the index is built, every visited transform directory none of
    whose version directories yields readable metadata has an entry with its
    transform id and an empty versions list. *)
Theorem unreadable_transform_is_listed (r : list transform_entry)
    (units : list transform_unit) (id : string) :
  fs_exists fs (ig_transforms_dir self) = true ->
  _collect_transforms fs ext self = Return r ->
  transform_units fs (ig_transforms_dir self) = Return units ->
  id ∈ tu_id <$> units ->
  (forall u v, u ∈ units -> tu_id u = id -> v ∈ tu_listing u -> visible fs v = true ->
               _read_transform_meta fs ext self v = None) ->
  {| te_id := id; te_versions := [] |} ∈ r.
Proof.
  intros He Hr Hu Hid Hnone.
  rewrite (collect_transforms_units fs ext self He), Hu in Hr. cbn [rbind] in Hr.
  assert (collect_units fs ext self units ∅ !! id = Some []) as Hm.
  { rewrite collect_units_lookup, (bool_decide_eq_true_2 _ Hid), lookup_empty. simpl.
    rewrite discovered_unreadable; [done|].
    intros u Hin Hidu. apply unit_entries_unreadable. intros v Hv Hvis. by eapply Hnone. }
  destruct (to_list_format_lookup _ r id [] Hr Hm) as (sorted & Hs & Hin).
  by injection Hs as <-.
Qed.

End ListFormat.

Section Grouping.

Context (fs : filesystem) (ext : externals) (self : IndexGenerator).

Lemma sort_versions_perm vs sorted : sort_versions vs = Return sorted -> sorted ≡ₚ vs.
Proof.
  unfold sort_versions. intros H. apply py_sort_reverse_Return in H as [-> _].
  apply stable_sort_perm.
Qed.

Lemma sort_versions_sorted vs sorted :
  sort_versions vs = Return sorted ->
  Forall (fun v => is_Some (version_str v)) sorted ->
  sorted = sorted_by_str_desc version_string vs.
Proof.
  intros H Hall. pose proof (sort_versions_perm vs sorted H) as Hp.
  rewrite Hp in Hall. rewrite (sort_versions_strings vs Hall) in H. by injection H.
Qed.

Lemma collect_units_empty_lookup units id :
  collect_units fs ext self units ∅ !! id
  = if bool_decide (id ∈ tu_id <$> units) then Some (discovered fs ext self units id)
    else None.
Proof. rewrite collect_units_lookup, lookup_empty. reflexivity. Qed.

(** What the list format holds when the index of the transforms is built. *)
Lemma collect_transforms_groups (r : list transform_entry) :
  _collect_transforms fs ext self = Return r ->
  exists units,
    (if fs_exists fs (ig_transforms_dir self)
     then transform_units fs (ig_transforms_dir self) = Return units
     else units = [])
    /\ NoDup (te_id <$> r)
    /\ StronglySorted str_le (te_id <$> r)
    /\ (forall id, id ∈ te_id <$> r <-> id ∈ tu_id <$> units)
    /\ (forall e, e ∈ r -> te_versions e ≡ₚ discovered fs ext self units (te_id e))
    /\ (forall e, e ∈ r ->
          Forall (fun v => is_Some (version_str v)) (te_versions e) ->
          StronglySorted (fun a b => str_le (version_string b) (version_string a))
            (te_versions e)).
Proof.
  intros Hr. destruct (fs_exists fs (ig_transforms_dir self)) eqn:He.
  - rewrite (collect_transforms_units fs ext self He) in Hr.
    destruct (transform_units fs (ig_transforms_dir self)) as [units|]; [|discriminate].
    cbn [rbind] in Hr. exists units. split; [done|].
    split; [by eapply to_list_format_NoDup|].
    split; [by eapply to_list_format_sorted|].
    split; [|split].
    + intros id. rewrite (to_list_format_ids _ r Hr), sorted_by_str_perm.
      rewrite list_elem_of_fmap. split.
      * intros ([id' vs] & -> & Hin). apply elem_of_map_to_list in Hin.
        rewrite collect_units_empty_lookup in Hin. simpl.
        by case_bool_decide.
      * intros Hin. exists (id, discovered fs ext self units id). split; [done|].
        apply elem_of_map_to_list. rewrite collect_units_empty_lookup.
        by rewrite (bool_decide_eq_true_2 _ Hin).
    + intros e Hin. destruct (to_list_format_entry _ r e Hr Hin) as (vs & Hm & Hs).
      rewrite collect_units_empty_lookup in Hm.
      case_bool_decide; [|discriminate]. injection Hm as <-.
      by apply sort_versions_perm.
    + intros e Hin Hall. destruct (to_list_format_entry _ r e Hr Hin) as (vs & Hm & Hs).
      rewrite (sort_versions_sorted vs _ Hs Hall). apply sorted_by_str_desc_sorted.
  - unfold _collect_transforms in Hr. rewrite He in Hr. injection Hr as <-.
    exists []. split; [done|]. split; [constructor|]. split; [constructor|].
    split; [intros id; split; intros H; by apply elem_of_nil in H|].
    split; intros e H; by apply elem_of_nil in H.
Qed.

End Grouping.

Lemma unreadable_transform_is_listed_witness :
  exists r,
    _collect_transforms (fs_of_tree no_tools_tree) ext0 (IndexGenerator_init repo) = Return r
    /\ {| te_id := "payments/normalize_amount"; te_versions := [] |} ∈ r.
Proof.
  destruct (_collect_transforms (fs_of_tree no_tools_tree) ext0 (IndexGenerator_init repo))
    as [r|] eqn:E; [|vm_compute in E; discriminate E].
  exists r. split; [reflexivity|].
  apply (unreadable_transform_is_listed (fs_of_tree no_tools_tree) ext0
           (IndexGenerator_init repo) r
           [ {| tu_category := MkPath "/" ["repo"; "transforms"; "payments"];
                tu_transform :=
                  MkPath "/" ["repo"; "transforms"; "payments"; "normalize_amount"];
                tu_listing := [version_dir_1_0_0] |} ]).
  - vm_compute; reflexivity.
  - exact E.
  - vm_compute; reflexivity.
  - apply list_elem_of_singleton. vm_compute; reflexivity.
  - intros u v Hu _ Hv _. apply list_elem_of_singleton in Hu as ->.
    apply list_elem_of_singleton in Hv as ->. vm_compute; reflexivity.
Defined.

(** ** Index determinism *)



(** *** Loops that append *)






Section Determinism.

Context (fs1 fs2 : filesystem) (ext : externals) (self : IndexGenerator).
Context (Hsnap : same_snapshot fs1 fs2).

Lemma snapshot_visible p : visible fs1 p = visible fs2 p.
Proof. unfold visible. destruct Hsnap as (_ & Hd & _). by rewrite Hd. Qed.



Lemma snapshot_read_transform_meta v :
  _read_transform_meta fs1 ext self v = _read_transform_meta fs2 ext self v.
Proof.
  unfold _read_transform_meta, build_version_entry.
  destruct Hsnap as (He & _ & Hr & _). by rewrite He, Hr.
Qed.

Lemma snapshot_readable_entry v :
  readable_entry fs1 ext self v = readable_entry fs2 ext self v.
Proof.
  unfold readable_entry. by rewrite snapshot_visible, snapshot_read_transform_meta.
Qed.

Lemma snapshot_unit_entries u : unit_entries fs1 ext self u = unit_entries fs2 ext self u.
Proof.
  unfold unit_entries. induction (tu_listing u) as [|v l IH]; [done|].
  simpl. by rewrite IH, snapshot_readable_entry.
Qed.

Lemma snapshot_discovered us id :
  discovered fs1 ext self us id = discovered fs2 ext self us id.
Proof.
  induction us as [|u us IH]; [done|].
  by rewrite !discovered_cons, IH, snapshot_unit_entries.
Qed.


End Determinism.

Section Groups.

Context (fs : filesystem) (ext : externals) (self : IndexGenerator).










End Groups.

Section DeterminismTransforms.

Context (fs1 fs2 : filesystem) (ext : externals) (self : IndexGenerator).
Context (Hsnap : same_snapshot fs1 fs2).



End DeterminismTransforms.

(** *** The list format of two dicts with the same items *)






Section DeterminismIndex.

Context (fs1 fs2 : filesystem) (ext : externals) (self : IndexGenerator).
Context (Hsnap : same_snapshot fs1 fs2).









End DeterminismIndex.

(** *** Trees that hold the same snapshot *)

Lemma same_resolved_refl o : same_resolved o o.
Proof. destruct o as [[d|es]|]; simpl; reflexivity. Qed.

Lemma same_tree_refl n : same_tree n n.
Proof. intros ps. apply same_resolved_refl. Qed.

Lemma entry_lookup_cons name k n es :
  entry_lookup name ((k, n) :: es) = if str_eqb name k then Some n else entry_lookup name es.
Proof. unfold entry_lookup. simpl. by destruct (str_eqb name k). Qed.

Lemma same_tree_cons k n1 n2 es1 es2 :
  same_tree n1 n2 -> same_tree (Dir es1) (Dir es2) ->
  same_tree (Dir ((k, n1) :: es1)) (Dir ((k, n2) :: es2)).
Proof.
  intros H1 H2 [|p ps].
  - simpl. constructor. exact (H2 []).
  - cbn [resolve]. rewrite !entry_lookup_cons.
    destruct (str_eqb p k); [apply H1 | apply (H2 (p :: ps))].
Qed.

Lemma same_tree_swap k1 k2 a b es :
  k1 <> k2 ->
  same_tree (Dir ((k1, a) :: (k2, b) :: es)) (Dir ((k2, b) :: (k1, a) :: es)).
Proof.
  intros Hne [|p ps].
  - simpl. apply Permutation_swap.
  - cbn [resolve]. rewrite !entry_lookup_cons.
    destruct (str_eqb p k1) eqn:E1, (str_eqb p k2) eqn:E2; try apply same_resolved_refl.
    apply String.eqb_eq in E1, E2. congruence.
Qed.

Lemma same_tree_snapshot n1 n2 :
  same_tree n1 n2 -> same_snapshot (fs_of_tree n1) (fs_of_tree n2).
Proof.
  intros H. repeat split; intros p; specialize (H (parts p)); simpl;
    destruct (resolve n1 (parts p)) as [[d1|es1]|], (resolve n2 (parts p)) as [[d2|es2]|];
    simpl in H; try done; try (by subst).
Qed.



Lemma twin_schema_same_snapshot :
  same_snapshot (fs_of_tree twin_schema_tree) (fs_of_tree twin_schema_tree_rev).
Proof.
  apply same_tree_snapshot. unfold twin_schema_tree, twin_schema_tree_rev.
  repeat (apply same_tree_cons; [|apply same_tree_refl]).
  by apply same_tree_swap.
Qed.

(** *** What every index satisfies *)




(** With two schema files whose names have the same stem, the order of
    the schemas in the index follows the order of enumeration. *)
Lemma equal_uris_follow_enumeration :
  same_snapshot (fs_of_tree twin_schema_tree) (fs_of_tree twin_schema_tree_rev)
  /\ _collect_schemas (fs_of_tree twin_schema_tree) (IndexGenerator_init repo)
     = Return [ {| se_uri := "iglu:acme/order/jsonschema/.json";
                   se_path := "schemas/acme/order/jsonschema/.json" |};
                {| se_uri := "iglu:acme/order/jsonschema/.json";
                   se_path := "schemas/acme/order/jsonschema/.json.json" |} ]
  /\ _collect_schemas (fs_of_tree twin_schema_tree_rev) (IndexGenerator_init repo)
     = Return [ {| se_uri := "iglu:acme/order/jsonschema/.json";
                   se_path := "schemas/acme/order/jsonschema/.json.json" |};
                {| se_uri := "iglu:acme/order/jsonschema/.json";
                   se_path := "schemas/acme/order/jsonschema/.json" |} ].
Proof.
  split; [apply twin_schema_same_snapshot|].
  split; vm_compute; reflexivity.
Qed.

(** * Further properties of the validator *)

Section ValidatorFurther.

Context (fs : filesystem) (ext : externals).

Lemma check_structure_loop_cases dirs s ok s' :
  check_structure_loop fs dirs s = (Return ok, s') ->
  if ok then Forall (fun d => fs_exists fs d = true) dirs /\ s' = s
  else exists tested d rest,
         dirs = tested ++ d :: rest
         /\ Forall (fun d' => fs_exists fs d' = true) tested
         /\ fs_exists fs d = false
         /\ s' = with_error ("Missing required directory: " +:+ path_str d) s.
Proof.
  revert ok s'. induction dirs as [|d dirs IH]; intros ok s'; simpl.
  - intros E. inversion E. by split.
  - destruct (fs_exists fs d) eqn:Hd; simpl.
    + intros E. specialize (IH _ _ E). destruct ok.
      * destruct IH as [Hall ->]. split; [by constructor | reflexivity].
      * destruct IH as (tested & d' & rest & -> & Hall & Hd' & ->).
        exists (d :: tested), d', rest. split; [reflexivity|].
        split; [by constructor|]. by split.
    + intros E. inversion E. exists [], d, dirs. split; [reflexivity|].
      split; [constructor|]. by split.
Qed.

(** X1. Whenever [check_structure] returns, it has tested the required
    directories in the order transforms, schemas, tools, .github/workflows
    up to the first one that does not exist. It returns false at that
    directory, having recorded the one error that names it, without testing
    the directories after it; it returns true when all four exist, having
    recorded nothing and printed the confirmation. *)
Theorem check_structure_first_missing (s : RegistryValidator) (ok : bool)
    (s' : RegistryValidator) :
  check_structure fs s = (Return ok, s') ->
  if ok then
    Forall (fun d => fs_exists fs d = true) (required_dirs s)
    /\ s' = with_line "  ✓ Directory structure valid"
              (with_line "Checking directory structure..." s)
  else
    exists tested d rest,
      required_dirs s = tested ++ d :: rest
      /\ Forall (fun d' => fs_exists fs d' = true) tested
      /\ fs_exists fs d = false
      /\ s' = with_error ("Missing required directory: " +:+ path_str d)
                (with_line "Checking directory structure..." s).
Proof.
  unfold check_structure. rewrite vbind_print. unfold vbind at 1, vget.
  unfold vbind at 1.
  match goal with
  | |- context [check_structure_loop fs ?dirs ?st] =>
      change dirs with (required_dirs s);
      destruct (check_structure_loop fs (required_dirs s) st) as [[ok1|e] s1] eqn:E1
  end; [|discriminate].
  apply check_structure_loop_cases in E1.
  destruct ok1.
  - destruct E1 as [Hall ->]. rewrite vbind_print. intros E. inversion E. by split.
  - intros E. inversion E. subst ok s'. exact E1.
Qed.


(** X3. Every check of the validator only appends: whether it returns or
    raises, the errors, the warnings and the printed lines it started with
    are a prefix of those it ends with, and the three paths of the validator
    are unchanged. *)
Theorem checks_only_append :
  mono (check_structure fs) /\ mono (check_transforms fs ext)
  /\ mono (check_schemas fs ext) /\ mono (validate_all fs ext).
Proof.
  split; [apply mono_check_structure|].
  split; [apply mono_check_transforms|].
  split; [apply mono_check_schemas | apply mono_validate_all].
Qed.

(** X4. A golden test never raises: it returns true, leaving the validator
    as it was, exactly when the expression file, the input and the expected
    output load and the expression evaluates on the input to a value equal
    to the expected one; in every other case, a failed load or evaluation
    included, it returns false after recording at least one error. *)
Theorem run_golden_test_never_raises (jsonata_file input_file expected_file : Path)
    (transform_id version : string) (s : RegistryValidator) :
  exists b s',
    _run_golden_test fs ext jsonata_file input_file expected_file transform_id version s
    = (Return b, s')
    /\ (b = true <-> golden_outcome fs ext jsonata_file input_file expected_file = Return true)
    /\ (b = true -> s' = s)
    /\ (b = false ->
        exists added, added <> [] /\ errors s' = errors s ++ added
                      /\ warnings s' = warnings s /\ stdout s' = stdout s).
Proof.
  unfold _run_golden_test, golden_outcome, try_except.
  unfold vbind at 1, vlift.
  destruct (load_with fs (decode_text ext) jsonata_file) as [expr|e1]; cbn [rbind].
  2:{ eexists _, _. split; [reflexivity|]. repeat split; try discriminate.
      intros _. eexists [_]. simpl. by repeat split. }
  unfold vbind at 1.
  destruct (load_with fs (json_load ext) input_file) as [input|e2]; cbn [rbind].
  2:{ eexists _, _. split; [reflexivity|]. repeat split; try discriminate.
      intros _. eexists [_]. simpl. by repeat split. }
  unfold vbind at 1.
  destruct (load_with fs (json_load ext) expected_file) as [expected|e3]; cbn [rbind].
  2:{ eexists _, _. split; [reflexivity|]. repeat split; try discriminate.
      intros _. eexists [_]. simpl. by repeat split. }
  unfold vbind at 1.
  destruct (jsonata_evaluate ext expr input) as [actual|e4]; cbn [rbind].
  2:{ eexists _, _. split; [reflexivity|]. repeat split; try discriminate.
      intros _. eexists [_]. simpl. by repeat split. }
  destruct (py_eq actual expected); cbn [negb].
  { eexists _, _. split; [reflexivity|]. repeat split; try done. }
  unfold vbind, vlift, append_error, vret.
  destruct (json_dumps ext expected) as [e|e5]; [destruct (json_dumps ext actual) as [a|e6]|].
  all: eexists _, _; (split; [reflexivity|]); repeat split; try discriminate.
  all: intros _; simpl; rewrite <- ?app_assoc; eexists; (split; [|split; [reflexivity|done]]).
  all: discriminate.
Qed.

(** X5. With the [jsonschema] package, the validation of a schema file
    never raises: whatever goes wrong is recorded as an error, and the result
    is true exactly when no error was recorded. *)
Theorem validate_schema_returns (schema_file : Path) (s : RegistryValidator) :
  JSONSCHEMA_AVAILABLE ext = true ->
  exists b s', _validate_schema fs ext schema_file s = (Return b, s') /\ tracks s b s'.
Proof.
  intros Hav.
  destruct (_validate_schema fs ext schema_file s) as [[b|e] s'] eqn:E.
  - exists b, s'. split; [reflexivity|]. by apply tracks__validate_schema in E.
  - exfalso. revert E. unfold _validate_schema, try_except. rewrite Hav. cbn [negb].
    match goal with |- context [match ?m s with _ => _ end] => destruct (m s) as [[?|x] ?] end;
      [discriminate|].
    destruct (exn_kind_of x); discriminate.
Qed.

(** X6. Without the [jsonschema] package, a schema file that cannot be read
    or parsed makes the validation raise [NameError], the exception class
    named by the first handler being undefined: nothing is recorded. A schema
    file that loads is judged without an exception: it is valid exactly when
    it is a JSON object. *)
Theorem validate_schema_without_jsonschema (schema_file : Path) (s : RegistryValidator) :
  JSONSCHEMA_AVAILABLE ext = false ->
  match load_with fs (json_load ext) schema_file with
  | Raise _ =>
      _validate_schema fs ext schema_file s
      = (Raise (Exn NameError "name 'JSONSchemaValidationError' is not defined"), s)
  | Return schema =>
      exists s', _validate_schema fs ext schema_file s = (Return (is_dict schema), s')
                 /\ tracks s (is_dict schema) s'
  end.
Proof.
  intros Hav. unfold _validate_schema, try_except. rewrite Hav. cbn [negb].
  unfold vbind at 1, vlift.
  destruct (load_with fs (json_load ext) schema_file) as [schema|e]; [|reflexivity].
  destruct schema as [| | | | |d]; cbn [is_dict negb];
    try (eexists; split; [reflexivity | apply (tracks_fail s s), extends_refl]).
  cbn [py_in]. unfold vbind at 1. unfold vbind at 1.
  destruct (negb _); eexists; (split; [reflexivity|]).
  - apply (tracks_warning s true s), tracks_refl.
  - apply tracks_refl.
Qed.

Lemma with_errors_cons msg msgs s :
  with_errors (msg :: msgs) s = with_errors msgs (with_error msg s).
Proof. reflexivity. Qed.

Lemma missing_fields_loop (items : list (pyval * pyval)) (tag : string)
    (fields : list string) (b : bool) (s : RegistryValidator) :
  vfor fields
    (fun field success =>
       present <- vlift (py_in field (PDict items)) ;;
       if negb present then
         append_error (tag +:+ ": Missing required field: " +:+ field) ;;
         vret false
       else vret success)%V
    b s
  = (Return (b && forallb (field_present items) fields),
     with_errors
       ((fun field => tag +:+ ": Missing required field: " +:+ field)
          <$> List.filter (fun field => negb (field_present items field)) fields)
       s).
Proof.
  revert b s. induction fields as [|field fields IH]; intros b s.
  - simpl. by rewrite andb_true_r.
  - rewrite vfor_cons. unfold vbind at 1. unfold vbind at 1, vlift. cbn [py_in].
    fold (field_present items field). cbn [forallb List.filter].
    destruct (field_present items field); cbn [negb].
    + unfold vret. rewrite IH. reflexivity.
    + rewrite fmap_cons, with_errors_cons. unfold vbind at 1, append_error, vret.
      rewrite IH. by rewrite andb_false_r.
Qed.

(** X7. For metadata that is a mapping, the check of the required fields
    records one error for every required field that is not a key of the
    mapping, in the order id, version, engine, from_schema, to_schema, tests,
    checksum, provenance, status, and nothing else; the flag is kept exactly
    when all nine are present. *)
Theorem required_fields_report (items : list (pyval * pyval)) (tag : string) (b : bool)
    (s : RegistryValidator) :
  check_required_fields (PDict items) tag b s
  = (Return (b && forallb (field_present items) required_fields),
     with_errors
       ((fun field => tag +:+ ": Missing required field: " +:+ field)
          <$> List.filter (fun field => negb (field_present items field)) required_fields)
       s).
Proof. unfold check_required_fields. apply missing_fields_loop. Qed.

Lemma py_eq_str v str : py_eq v (PStr str) = true <-> v = PStr str.
Proof.
  destruct v; simpl; try (split; [discriminate | intros H; discriminate H]).
  unfold str_eqb. rewrite String.eqb_eq. split; congruence.
Qed.

(** X8. A version value that is not a string never matches the name of
    the version directory: the version check fails for every directory name,
    and the error shows the rendered value. *)
Theorem non_string_version_never_matches (items : list (pyval * pyval)) (v : pyval)
    (expected_version tag : string) (b : bool) (s : RegistryValidator) :
  dict_find "version" items = Some v ->
  (forall str, v <> PStr str) ->
  check_version ext (PDict items) expected_version tag b s
  = (Return false,
     with_error (tag +:+ ": Version mismatch (expected " +:+ expected_version +:+ ", got "
                 +:+ py_str (py_repr ext) v +:+ ")") s).
Proof.
  intros Hv Hns. unfold check_version. cbn [py_get]. rewrite Hv. cbn [from_option id]. unfold id.
  unfold vbind at 1, vlift.
  destruct (py_eq v (PStr expected_version)) eqn:E.
  - apply py_eq_str in E. by destruct (Hns expected_version).
  - reflexivity.
Qed.

End ValidatorFurther.

Lemma non_string_version_never_matches_witness :
  check_version ext0 (PDict [(PStr "version", PInt 9)]) "9" "a/b@9" true
    (RegistryValidator_init ext0 repo)
  = (Return false,
     with_error "a/b@9: Version mismatch (expected 9, got 9)"
       (RegistryValidator_init ext0 repo)).
Proof.
  apply (non_string_version_never_matches ext0 [(PStr "version", PInt 9)] (PInt 9)).
  - reflexivity.
  - discriminate.
Defined.

Lemma validate_schema_returns_witness :
  exists b s',
    _validate_schema (fs_of_tree payments_tree) ext0
      (MkPath "/" ["repo"; "schemas"; "acme"; "order"; "jsonschema"; "1-0-0.json"])
      (RegistryValidator_init ext0 repo) = (Return b, s')
    /\ tracks (RegistryValidator_init ext0 repo) b s'.
Proof. apply (validate_schema_returns (fs_of_tree payments_tree) ext0). reflexivity. Defined.

Lemma validate_schema_without_jsonschema_witness :
  _validate_schema (fs_of_tree broken_schema_tree) ext_without_jsonschema broken_schema_file
    (RegistryValidator_init ext_without_jsonschema repo)
  = (Raise (Exn NameError "name 'JSONSchemaValidationError' is not defined"),
     RegistryValidator_init ext_without_jsonschema repo).
Proof.
  pose proof (validate_schema_without_jsonschema (fs_of_tree broken_schema_tree)
                ext_without_jsonschema broken_schema_file
                (RegistryValidator_init ext_without_jsonschema repo) eq_refl) as H.
  assert (is_Return (load_with (fs_of_tree broken_schema_tree)
                       (json_load ext_without_jsonschema) broken_schema_file) = false) as Hl
    by (vm_compute; reflexivity).
  destruct (load_with (fs_of_tree broken_schema_tree) (json_load ext_without_jsonschema)
              broken_schema_file); [discriminate Hl | exact H].
Defined.

Lemma check_structure_first_missing_witness :
  exists tested d rest,
    required_dirs (RegistryValidator_init ext0 repo) = tested ++ d :: rest
    /\ Forall (fun d' => fs_exists (fs_of_tree no_tools_tree) d' = true) tested
    /\ fs_exists (fs_of_tree no_tools_tree) d = false
    /\ with_error "Missing required directory: /repo/tools"
         (with_line "Checking directory structure..." (RegistryValidator_init ext0 repo))
       = with_error ("Missing required directory: " +:+ path_str d)
           (with_line "Checking directory structure..." (RegistryValidator_init ext0 repo)).
Proof.
  assert (check_structure (fs_of_tree no_tools_tree) (RegistryValidator_init ext0 repo)
          = (Return false,
             with_error "Missing required directory: /repo/tools"
               (with_line "Checking directory structure..."
                  (RegistryValidator_init ext0 repo)))) as E
    by (vm_compute; reflexivity).
  exact (check_structure_first_missing (fs_of_tree no_tools_tree) _ false _ E).
Defined.

(** ** The digest the validator computes *)

Lemma hex_digit_lower d : 0 <= d < 16 -> lower_hex (SHA256.hex_digit d) = true.
Proof.
  intros H.
  assert (d = 0 \/ d = 1 \/ d = 2 \/ d = 3 \/ d = 4 \/ d = 5 \/ d = 6 \/ d = 7 \/ d = 8
          \/ d = 9 \/ d = 10 \/ d = 11 \/ d = 12 \/ d = 13 \/ d = 14 \/ d = 15) as Hd by lia.
  repeat (destruct Hd as [->|Hd]; [reflexivity|]). subst d. reflexivity.
Qed.

Lemma hex_of_length n x : String.length (SHA256.hex_of n x) = n.
Proof. induction n as [|n IH]; simpl; [reflexivity | by rewrite IH]. Qed.

Lemma hex_of_lower n x :
  forallb lower_hex (list_ascii_of_string (SHA256.hex_of n x)) = true.
Proof.
  induction n as [|n IH]; [reflexivity|].
  cbn [SHA256.hex_of list_ascii_of_string forallb]. rewrite IH, andb_true_r.
  apply hex_digit_lower. apply Z.mod_pos_bound. lia.
Qed.

Lemma hexdigest_shaped data : digest_shaped (SHA256.hexdigest data) = true.
Proof.
  unfold digest_shaped, SHA256.hexdigest. rewrite hex_of_length, hex_of_lower.
  reflexivity.
Qed.

(** X9. The digest the validator computes is always 64 lowercase
    hexadecimal digits, and it is compared as a string: a declared digest of
    any other shape (upper-case digits, a prefix, surrounding spaces) fails
    the verification for every content of the expression file. *)
Theorem malformed_digest_never_verifies (fs : filesystem) (ext : externals)
    (items block : list (pyval * pyval)) (declared : string) (f : Path) (data : list byte)
    (tag : string) (b : bool) (s : RegistryValidator) :
  dict_find "checksum" items = Some (PDict block) ->
  dict_find "jsonata_sha256" block = Some (PStr declared) ->
  fs_read fs f = Return data ->
  digest_shaped declared = false ->
  digest_shaped (SHA256.hexdigest data) = true
  /\ check_checksum fs ext (PDict items) f tag b s
     = (Return false,
        with_error (tag +:+ ": Checksum mismatch (expected " +:+ declared
                    +:+ ", got " +:+ SHA256.hexdigest data +:+ ")") s).
Proof.
  intros Hc Hd Hf Hshape. split; [apply hexdigest_shaped|].
  rewrite (check_checksum_declared fs ext items block declared f data tag b s Hc Hd Hf).
  destruct (String.eqb declared (SHA256.hexdigest data)) eqn:E; [|reflexivity].
  apply String.eqb_eq in E. rewrite E, hexdigest_shaped in Hshape. discriminate Hshape.
Qed.

Lemma malformed_digest_never_verifies_witness :
  let declared := "09FC96082D34C2DFC1295D92073B5EA1DC8EF8DA95F14DFDED011FFB96D3E54B" in
  let meta := PDict [(PStr "checksum", PDict [(PStr "jsonata_sha256", PStr declared)])] in
  let s0 := RegistryValidator_init ext0 repo in
  SHA256.hexdigest (bytes_of "$") = dollar_digest
  /\ check_checksum (fs_of_tree payments_tree) ext0 meta
       (path_div version_dir_1_0_0 "spec.jsonata") "t@1.0.0" true s0
     = (Return false,
        with_error ("t@1.0.0: Checksum mismatch (expected " +:+ declared
                    +:+ ", got " +:+ SHA256.hexdigest (bytes_of "$") +:+ ")") s0).
Proof.
  cbv zeta. split; [vm_compute; reflexivity|].
  refine (proj2 (malformed_digest_never_verifies (fs_of_tree payments_tree) ext0 _
                   [(PStr "jsonata_sha256", PStr _)] _ _ (bytes_of "$") _ _ _ _ _ _ _));
    vm_compute; reflexivity.
Defined.

(** ** The summary of [validate_all] *)

Lemma stdout_with_lines lines s : stdout (with_lines lines s) = stdout s ++ lines.
Proof.
  revert s. induction lines as [|l lines IH]; intros s; simpl.
  - by rewrite app_nil_r.
  - unfold with_lines in IH. rewrite IH. simpl. by rewrite <- app_assoc.
Qed.

Lemma errors_with_lines lines s : errors (with_lines lines s) = errors s.
Proof.
  revert s. induction lines as [|l lines IH]; intros s; simpl; [reflexivity|].
  unfold with_lines in IH. by rewrite IH.
Qed.

Lemma vfor_print_lines (l : list string) (f : string -> string) s :
  vfor l (fun x (_ : unit) => print (f x)) tt s = (Return tt, with_lines (f <$> l) s).
Proof.
  revert s. induction l as [|x l IH]; intros s; simpl; [reflexivity|].
  rewrite vbind_print. apply IH.
Qed.

(** X10. When [validate_all] returns, the last lines it has printed are the
    summary: after a passed run the line of success and the closing banner;
    after a failed run the line of failure, an empty line, the number of
    recorded errors, every recorded error in the order in which it was
    recorded, one per line, and the closing banner. Warnings are not
    printed. *)
Theorem validate_all_summary (fs : filesystem) (ext : externals)
    (s : RegistryValidator) (success : bool) (s' : RegistryValidator) :
  validate_all fs ext s = (Return success, s') ->
  exists before,
    stdout s'
    = before ++ [EmptyString; banner]
      ++ (if success then ["✅ ALL VALIDATIONS PASSED"]
          else ["❌ VALIDATION FAILED"; EmptyString;
                "Errors: " +:+ str_of_nat (length (errors s'))]
               ++ ((fun error => "  - " +:+ error) <$> errors s'))
      ++ [banner].
Proof.
  unfold validate_all. cbv zeta. rewrite !vbind_print. intros E.
  apply vbind_Return in E as (ok1 & s1 & _ & E).
  apply vbind_Return in E as (ok2 & s2 & _ & E).
  apply vbind_Return in E as (ok3 & s3 & _ & E).
  rewrite !vbind_print in E.
  destruct (true && ok1 && ok2 && ok3); cbv beta iota in E.
  - cbv [vbind print vret] in E. injection E as <- <-.
    exists (stdout s3). cbn [stdout with_line snd print]. by rewrite <- !app_assoc.
  - unfold vbind at 1 in E. rewrite !vbind_print in E. unfold vbind at 1, vget in E.
    rewrite vbind_print in E. rewrite vfor_print_lines in E.
    cbv [vbind print vret] in E. injection E as <- <-.
    exists (stdout s3). cbn [stdout errors]. rewrite stdout_with_lines, errors_with_lines.
    cbn [stdout errors with_line snd print]. by rewrite <- !app_assoc.
Qed.

Lemma validate_all_summary_witness :
  exists s' before,
    validate_all (fs_of_tree no_tools_tree) ext0 (RegistryValidator_init ext0 repo)
    = (Return false, s')
    /\ stdout s'
       = before ++ [EmptyString; banner]
         ++ ["❌ VALIDATION FAILED"; EmptyString;
             "Errors: " +:+ str_of_nat (length (errors s'))]
         ++ ((fun error => "  - " +:+ error) <$> errors s')
         ++ [banner].
Proof.
  destruct (validate_all (fs_of_tree no_tools_tree) ext0 (RegistryValidator_init ext0 repo))
    as [r s'] eqn:E.
  assert (r = Return false) as ->.
  { assert (fst (validate_all (fs_of_tree no_tools_tree) ext0
                   (RegistryValidator_init ext0 repo)) = r) as H by (by rewrite E).
    vm_compute in H. by subst r. }
  destruct (validate_all_summary _ _ _ _ _ E) as [before H].
  exists s', before. split; [reflexivity|]. rewrite H. by rewrite <- !app_assoc.
Defined.

(** ** The count of validated transforms *)

Section TransformCount.

Context (fs : filesystem) (ext : externals).

Lemma check_version_unit_step u st s st' s' :
  visible fs (vu_version_dir u) = true ->
  check_version_unit fs ext u st s = (Return st', s') ->
  transform_ids st ⊆ transform_ids st'
  /\ vu_key u ∈ transform_ids st'
  /\ (((vu_key u ∉ transform_ids st) /\ transform_count st' = S (transform_count st)
       /\ tl_success st' = tl_success st)
      \/ (transform_count st' = transform_count st /\ tl_success st' = false)).
Proof.
  intros Hv E. destruct (check_version_unit_ids fs ext u st s st' s' E) as [Hsub Hkey].
  split; [exact Hsub|]. split; [by apply Hkey|].
  revert E. unfold check_version_unit, check_version_dir. rewrite negb_visible, Hv.
  cbv zeta. cbn [negb]. cbv beta iota. fold (vu_id u). fold (vu_key u).
  case_bool_decide as Hin.
  - intros [= <- <-]. right. by split.
  - unfold vbind. destruct (_validate_transform _ _ _ _ _ s) as [[[]|] ?]; simpl;
      intros [= <- <-]; simpl; [left | right]; by repeat split.
Qed.

Lemma vfor_version_units_count l st s st' s' :
  Forall (fun u => visible fs (vu_version_dir u) = true) l ->
  vfor l (check_version_unit fs ext) st s = (Return st', s') ->
  exists k : nat,
    transform_count st' = (transform_count st + k)%nat
    /\ (k <= length l)%nat
    /\ transform_ids st ⊆ transform_ids st'
    /\ (tl_success st' = true <-> tl_success st = true /\ k = length l)
    /\ (k = length l ->
        NoDup (vu_key <$> l) /\ forall u, u ∈ l -> vu_key u ∉ transform_ids st).
Proof.
  intros Hall. revert st s. induction Hall as [|u l Hv Hall IH]; intros st s E.
  - injection E as <- <-. exists 0%nat. simpl.
    split; [lia|]. split; [lia|]. split; [done|]. split; [tauto|].
    intros _. split; [constructor|]. intros u Hu. by apply elem_of_nil in Hu.
  - rewrite vfor_cons in E. apply vbind_Return in E as (st1 & s1 & E1 & E2).
    destruct (check_version_unit_step u st s st1 s1 Hv E1) as (Hsub & Hkey & Hcase).
    destruct (IH st1 s1 E2) as (k & Hc & Hle & Hsub' & Hsucc & Hnd). clear IH.
    destruct Hcase as [(Hnew & Hc1 & Hs1)|[Hc1 Hs1]].
    + exists (S k). simpl length. split; [lia|]. split; [lia|].
      split; [by transitivity (transform_ids st1)|]. split.
      * rewrite Hsucc, Hs1. split; intros [H1 H2]; (split; [done | lia]).
      * intros Hk. destruct Hnd as [Hnd Hfresh]; [lia|].
        rewrite fmap_cons. split.
        -- apply NoDup_cons. split; [|exact Hnd].
           intros Hin. apply list_elem_of_fmap in Hin as (u' & Hku & Hu').
           apply (Hfresh u' Hu'). by rewrite <- Hku.
        -- intros u' Hu'. apply elem_of_cons in Hu' as [->|Hu']; [exact Hnew|].
           intros Hin. apply (Hfresh u' Hu'). by apply Hsub.
    + exists k. simpl length. split; [lia|]. split; [lia|].
      split; [by transitivity (transform_ids st1)|]. split.
      * rewrite Hsucc, Hs1. split; [intros [H _]; discriminate H | intros [_ H]; lia].
      * intros Hk. lia.
Qed.

(** X11. When [check_transforms] returns after a complete traversal, the
    last line it has printed gives the number of validated transforms; this
    number is at most the number of version directories visited, and the
    result is true exactly when the two are equal: then no pair (id, version)
    was visited twice. *)
Theorem check_transforms_count (s : RegistryValidator) (units : list transform_unit)
    (b : bool) (s' : RegistryValidator) :
  fs_exists fs (transforms_dir s) = true ->
  transform_units fs (transforms_dir s) = Return units ->
  check_transforms fs ext s = (Return b, s') ->
  exists n : nat,
    List.last (stdout s') EmptyString
    = "  ✓ Validated " +:+ str_of_nat n +:+ " transforms"
    /\ (n <= length (version_units fs units))%nat
    /\ (b = true <-> n = length (version_units fs units))
    /\ (b = true -> NoDup (vu_key <$> version_units fs units)).
Proof.
  intros He Hu E. rewrite (check_transforms_units fs ext s units He Hu) in E.
  apply vbind_Return in E as (st & s1 & E1 & E).
  cbv [vbind print vret] in E. injection E as <- <-.
  assert (Forall (fun u => visible fs (vu_version_dir u) = true) (version_units fs units))
    as Hall.
  { apply Forall_forall. intros u. apply version_units_visible. }
  destruct (vfor_version_units_count _ _ _ _ _ Hall E1) as (k & Hc & Hle & _ & Hsucc & Hnd).
  simpl in Hc. subst k. exists (transform_count st). split.
  { cbn [stdout]. by rewrite last_last. }
  split; [exact Hle|]. split.
  - rewrite Hsucc. simpl. split; [by intros [_ H] | by intros H].
  - intros Hb. apply Hnd. apply Hsucc in Hb as [_ H]. exact H.
Qed.

End TransformCount.

Lemma check_transforms_count_witness :
  exists s',
    check_transforms (fs_of_tree payments_tree) ext0 (RegistryValidator_init ext0 repo)
    = (Return true, s')
    /\ List.last (stdout s') EmptyString = "  ✓ Validated 2 transforms".
Proof.
  destruct (check_transforms (fs_of_tree payments_tree) ext0 (RegistryValidator_init ext0 repo))
    as [r s'] eqn:E.
  assert (r = Return true) as ->.
  { assert (fst (check_transforms (fs_of_tree payments_tree) ext0
                   (RegistryValidator_init ext0 repo)) = r) as H by (by rewrite E).
    vm_compute in H. by subst r. }
  exists s'. split; [reflexivity|].
  destruct (transform_units (fs_of_tree payments_tree)
              (transforms_dir (RegistryValidator_init ext0 repo))) as [units|] eqn:Hu;
    [|vm_compute in Hu; discriminate Hu].
  assert (fs_exists (fs_of_tree payments_tree)
            (transforms_dir (RegistryValidator_init ext0 repo)) = true) as He
    by (vm_compute; reflexivity).
  destruct (check_transforms_count (fs_of_tree payments_tree) ext0
              (RegistryValidator_init ext0 repo) units true s' He Hu E)
    as (n & Hlast & _ & Hn & _).
  rewrite Hlast. rewrite (proj1 Hn eq_refl).
  assert (Return units = transform_units (fs_of_tree payments_tree)
                           (transforms_dir (RegistryValidator_init ext0 repo))) as Hu'
    by (by rewrite Hu).
  vm_compute in Hu'. injection Hu' as ->. vm_compute. reflexivity.
Defined.

(** ** The traversal of the schemas *)

Lemma vfor_flat_map {A B S} (g : A -> list B) (l : list A) (body : B -> S -> V S) st s :
  vfor (flat_map g l) body st s = vfor l (fun x st => vfor (g x) body st) st s.
Proof.
  revert st s. induction l as [|x l IH]; intros st s; [reflexivity|].
  simpl flat_map. rewrite vfor_app, vfor_cons. unfold vbind.
  destruct (vfor (g x) body st s) as [[st'|e] s']; [apply IH | reflexivity].
Qed.

Lemma vfor_concat {B S} (ls : list (list B)) (body : B -> S -> V S) st s :
  vfor (concat ls) body st s = vfor ls (fun l st => vfor l body st) st s.
Proof.
  revert st s. induction ls as [|l ls IH]; intros st s; [reflexivity|].
  simpl concat. rewrite vfor_app, vfor_cons. unfold vbind.
  destruct (vfor l body st s) as [[st'|e] s']; [apply IH | reflexivity].
Qed.

Lemma rfor_fmap {A B S} (g : A -> B) (l : list A) (body : B -> S -> result S) st :
  rfor (g <$> l) body st = rfor l (fun x => body (g x)) st.
Proof.
  revert st. induction l as [|x l IH]; intros st; [reflexivity|].
  rewrite fmap_cons, !rfor_cons. destruct (body (g x) st); [apply IH | reflexivity].
Qed.

Lemma rfor_flat_map {A B S} (g : A -> list B) (l : list A) (body : B -> S -> result S) st :
  rfor (flat_map g l) body st = rfor l (fun x st => rfor (g x) body st) st.
Proof.
  revert st. induction l as [|x l IH]; intros st; [reflexivity|].
  simpl flat_map. rewrite rfor_app, rfor_cons.
  destruct (rfor (g x) body st); [apply IH | reflexivity].
Qed.

Lemma rfor_concat {B S} (ls : list (list B)) (body : B -> S -> result S) st :
  rfor (concat ls) body st = rfor ls (fun l st => rfor l body st) st.
Proof.
  revert st. induction ls as [|l ls IH]; intros st; [reflexivity|].
  simpl concat. rewrite rfor_app, rfor_cons.
  destruct (rfor l body st); [apply IH | reflexivity].
Qed.

Lemma rfor_ext {A S} (l : list A) (body body' : A -> S -> result S) st :
  (forall x st, body x st = body' x st) -> rfor l body st = rfor l body' st.
Proof.
  intros H. revert st. induction l as [|x l IH]; intros st; [reflexivity|].
  rewrite !rfor_cons, H. destruct (body' x st); [apply IH | reflexivity].
Qed.

Lemma glob_json_names_paths fs p : glob_json fs p = path_child p <$> glob_json_names fs p.
Proof.
  unfold glob_json, glob_json_names. destruct (fs_is_dir fs p); [|reflexivity].
  destruct (fs_listdir fs p); reflexivity.
Qed.

Section SchemaTraversal.

Context (fs : filesystem) (ext : externals).

Lemma check_schema_dir_units schemas_dir vendor name st s :
  check_schema_dir fs ext (path_child (path_child schemas_dir vendor) name) st s
  = vfor (schema_dir_units fs (path_child schemas_dir vendor) vendor name)
      (fun u => check_schema_file fs ext (su_path schemas_dir u)) st s.
Proof.
  unfold check_schema_dir, schema_dir_units. rewrite negb_visible. cbv zeta.
  destruct (visible fs _); cbn [negb andb]; [|reflexivity].
  destruct (fs_exists fs _); cbn [negb]; [|reflexivity].
  rewrite glob_json_names_paths, !vfor_fmap. reflexivity.
Qed.

Lemma check_vendor_dir_units schemas_dir vendor units st s :
  vendor_units fs schemas_dir vendor = Return units ->
  check_vendor_dir fs ext (path_child schemas_dir vendor) st s
  = vfor units (fun u => check_schema_file fs ext (su_path schemas_dir u)) st s.
Proof.
  unfold vendor_units, check_vendor_dir. rewrite negb_visible. cbv zeta.
  destruct (visible fs _); cbn [negb].
  - unfold iterdir. destruct (fs_listdir fs _) as [names|]; [|discriminate].
    cbn [rbind]. intros [= <-]. unfold vbind at 1, vlift.
    rewrite vfor_fmap, vfor_flat_map. apply vfor_ext. intros name st' s'.
    apply check_schema_dir_units.
  - intros [= <-]. reflexivity.
Qed.

Lemma check_vendor_dirs_units schemas_dir vendors per st s :
  mapM (vendor_units fs schemas_dir) vendors = Return per ->
  vfor vendors (fun vendor => check_vendor_dir fs ext (path_child schemas_dir vendor)) st s
  = vfor (concat per) (fun u => check_schema_file fs ext (su_path schemas_dir u)) st s.
Proof.
  revert per st s. induction vendors as [|v vs IH]; intros per st s Hm.
  - injection Hm as <-. reflexivity.
  - apply mapM_cons_Return in Hm as (us & rest & Hu & Hrest & ->).
    simpl concat. rewrite vfor_app, vfor_cons. unfold vbind.
    rewrite (check_vendor_dir_units schemas_dir v us st s Hu).
    destruct (vfor us _ st s) as [[st'|e] s']; [|reflexivity].
    apply (IH rest st' s' Hrest).
Qed.

(** When every listing succeeds, [check_schemas] is one loop over the
    schema files visited. *)
Lemma check_schemas_units s units :
  fs_exists fs (schemas_dir s) = true ->
  schema_units fs (schemas_dir s) = Return units ->
  check_schemas fs ext s
  = (st <- vfor units (fun u => check_schema_file fs ext (su_path (schemas_dir s) u))
             (0%nat, true) ;;
     print ("  ✓ Validated " +:+ str_of_nat (fst st) +:+ " schemas") ;;
     vret (snd st))%V (with_line "Checking schemas..." s).
Proof.
  intros He Hu. unfold check_schemas. rewrite vbind_print.
  unfold vbind at 1, vget.
  change (schemas_dir (with_line "Checking schemas..." s)) with (schemas_dir s).
  rewrite He. cbn [negb]. cbv beta iota.
  unfold schema_units in Hu. unfold iterdir.
  destruct (fs_listdir fs (schemas_dir s)) as [vendors|]; [|discriminate].
  cbn [rbind] in Hu. cbn [rbind].
  destruct (mapM (vendor_units fs (schemas_dir s)) vendors) as [per|] eqn:Em; [|discriminate].
  injection Hu as <-.
  unfold vbind at 1, vlift. unfold vbind at 1 3.
  rewrite vfor_fmap. rewrite (check_vendor_dirs_units _ vendors per _ _ Em). reflexivity.
Qed.

Lemma vfor_schema_files_count (files : list Path) st s st' s' :
  vfor files (check_schema_file fs ext) st s = (Return st', s') ->
  exists k : nat,
    fst st' = (fst st + k)%nat /\ (k <= length files)%nat
    /\ (snd st' = true <-> snd st = true /\ k = length files).
Proof.
  revert st s. induction files as [|f files IH]; intros st s E.
  - injection E as <- <-. exists 0%nat. simpl. split; [lia|]. split; [lia | tauto].
  - rewrite vfor_cons in E. apply vbind_Return in E as (st1 & s1 & E1 & E2).
    destruct (IH st1 s1 E2) as (k & Hc & Hle & Hs). clear IH.
    unfold check_schema_file in E1. apply vbind_Return in E1 as (ok & s0 & _ & E1).
    destruct ok; cbn [negb] in E1; injection E1 as <- <-; simpl in *.
    + exists (S k). split; [lia|]. split; [lia|]. rewrite Hs.
      split; intros [H1 H2]; (split; [done | lia]).
    + exists k. split; [lia|]. split; [lia|]. rewrite Hs.
      split; [intros [H _]; discriminate H | intros [_ H]; lia].
Qed.

(** X12. When [check_schemas] returns after a complete traversal, the last
    line it has printed gives the number of schema files found valid; this
    number is at most the number of schema files visited, and the result is
    true exactly when the two are equal. *)
Theorem check_schemas_count (s : RegistryValidator) (units : list schema_unit)
    (b : bool) (s' : RegistryValidator) :
  fs_exists fs (schemas_dir s) = true ->
  schema_units fs (schemas_dir s) = Return units ->
  check_schemas fs ext s = (Return b, s') ->
  exists n : nat,
    List.last (stdout s') EmptyString = "  ✓ Validated " +:+ str_of_nat n +:+ " schemas"
    /\ (n <= length units)%nat
    /\ (b = true <-> n = length units).
Proof.
  intros He Hu E. rewrite (check_schemas_units s units He Hu) in E.
  apply vbind_Return in E as (st & s1 & E1 & E).
  cbv [vbind print vret] in E. injection E as <- <-.
  rewrite <- (vfor_fmap (su_path (schemas_dir s)) units (check_schema_file fs ext)) in E1.
  destruct (vfor_schema_files_count _ _ _ _ _ E1) as (k & Hc & Hle & Hs).
  rewrite length_fmap in Hle, Hs. simpl in Hc. subst k. exists (fst st). split.
  { cbn [stdout]. by rewrite last_last. }
  split; [exact Hle|]. rewrite Hs. simpl. split; [by intros [_ H] | by intros H].
Qed.

End SchemaTraversal.

(** ** The schemas of the index *)

Lemma strip_prefix_app pre rest : strip_prefix pre (pre ++ rest) = Some rest.
Proof.
  induction pre as [|a pre IH]; [reflexivity|].
  simpl. unfold str_eqb. by rewrite String.eqb_refl.
Qed.

Lemma relative_to_under (root : Path) (rest : list string) :
  relative_to (MkPath (anchor root) (parts root ++ rest)) root
  = Return (MkPath EmptyString rest).
Proof.
  unfold relative_to. simpl. unfold str_eqb. by rewrite String.eqb_refl, strip_prefix_app.
Qed.

Lemma path_name_child p name : path_name (path_child p name) = name.
Proof. unfold path_name, path_child. simpl. apply last_last. Qed.

Section SchemaIndex.

Context (fs : filesystem) (root : Path).

Lemma collect_schema_file_unit (u : schema_unit) schemas :
  collect_schema_file (IndexGenerator_init root)
    (path_child (path_div root "schemas") (su_vendor u))
    (path_child (path_child (path_div root "schemas") (su_vendor u)) (su_name u))
    (su_path (path_div root "schemas") u) schemas
  = Return (schemas ++ [index_entry_of u]).
Proof.
  unfold collect_schema_file, su_path, index_entry_of. rewrite !path_name_child.
  unfold path_stem. rewrite path_name_child.
  change (ig_repo_root (IndexGenerator_init root)) with root.
  change (path_child
            (path_div (path_child (path_child (path_div root "schemas") (su_vendor u))
                         (su_name u)) "jsonschema") (su_file u))
    with (MkPath (anchor root)
            (((((parts root ++ ["schemas"]) ++ [su_vendor u]) ++ [su_name u])
                ++ ["jsonschema"]) ++ [su_file u])).
  rewrite <- !app_assoc. rewrite relative_to_under. cbn [rbind].
  reflexivity.
Qed.

Lemma rfor_append_entries (units : list schema_unit) (body : schema_unit -> list schema_entry
    -> result (list schema_entry)) schemas :
  (forall u st, body u st = Return (st ++ [index_entry_of u])) ->
  rfor units body schemas = Return (schemas ++ (index_entry_of <$> units)).
Proof.
  intros Hb. revert schemas. induction units as [|u units IH]; intros schemas.
  - simpl. by rewrite app_nil_r.
  - rewrite rfor_cons, Hb. cbn [rbind]. rewrite IH, fmap_cons. by rewrite <- app_assoc.
Qed.

Lemma collect_schema_dir_units vendor name schemas :
  collect_schema_dir fs (IndexGenerator_init root)
    (path_child (path_div root "schemas") vendor)
    (path_child (path_child (path_div root "schemas") vendor) name) schemas
  = Return (schemas
            ++ (index_entry_of
                  <$> schema_dir_units fs (path_child (path_div root "schemas") vendor)
                        vendor name)).
Proof.
  unfold collect_schema_dir, schema_dir_units. rewrite negb_visible. cbv zeta.
  destruct (visible fs _); cbn [negb andb]; [|by rewrite app_nil_r].
  destruct (fs_exists fs _); cbn [negb]; [|by rewrite app_nil_r].
  rewrite glob_json_names_paths, rfor_fmap.
  rewrite <- (rfor_fmap
                (fun file => {| su_vendor := vendor; su_name := name; su_file := file |})
                _ (fun u st =>
                     collect_schema_file (IndexGenerator_init root)
                       (path_child (path_div root "schemas") (su_vendor u))
                       (path_child (path_child (path_div root "schemas") (su_vendor u))
                          (su_name u))
                       (su_path (path_div root "schemas") u) st)).
  apply rfor_append_entries. intros u st. apply collect_schema_file_unit.
Qed.

Lemma collect_vendor_dir_units vendor schemas :
  collect_vendor_dir fs (IndexGenerator_init root)
    (path_child (path_div root "schemas") vendor) schemas
  = rbind (vendor_units fs (path_div root "schemas") vendor)
      (fun units => Return (schemas ++ (index_entry_of <$> units))).
Proof.
  unfold collect_vendor_dir, vendor_units. rewrite negb_visible. cbv zeta.
  destruct (visible fs _); cbn [negb rbind]; [|by rewrite app_nil_r].
  unfold iterdir. destruct (fs_listdir fs _) as [names|]; [|reflexivity]. cbn [rbind].
  rewrite rfor_fmap. revert schemas.
  induction names as [|name names IH]; intros schemas; simpl.
  - by rewrite app_nil_r.
  - rewrite collect_schema_dir_units. cbn [rbind]. rewrite IH.
    by rewrite fmap_app, app_assoc.
Qed.

Lemma collect_schemas_units :
  fs_exists fs (path_div root "schemas") = true ->
  _collect_schemas fs (IndexGenerator_init root)
  = rbind (schema_units fs (path_div root "schemas"))
      (fun units => Return (sorted_by_str se_uri (index_entry_of <$> units))).
Proof.
  intros He. unfold _collect_schemas.
  change (ig_schemas_dir (IndexGenerator_init root)) with (path_div root "schemas").
  rewrite He. cbn [negb].
  unfold schema_units, iterdir.
  destruct (fs_listdir fs _) as [vendors|]; [|reflexivity]. cbn [rbind].
  rewrite rfor_fmap.
  assert (forall schemas,
            rfor vendors
              (fun x => collect_vendor_dir fs (IndexGenerator_init root)
                          (path_child (path_div root "schemas") x)) schemas
            = rbind (mapM (vendor_units fs (path_div root "schemas")) vendors)
                (fun per => Return (schemas ++ (index_entry_of <$> concat per)))) as H.
  { induction vendors as [|v vs IH]; intros schemas; simpl.
    - by rewrite app_nil_r.
    - rewrite collect_vendor_dir_units.
      destruct (vendor_units fs _ v) as [us|]; [|reflexivity]. cbn [rbind].
      rewrite IH. destruct (mapM _ vs) as [per|]; [|reflexivity]. cbn [rbind concat].
      by rewrite fmap_app, app_assoc. }
  rewrite H. destruct (mapM _ vendors); reflexivity.
Qed.

(** X13. Whenever [_collect_schemas] returns, the schemas it returns are
    the visited schema files, one entry for every file [*.json] directly
    under [schemas/<vendor>/<name>/jsonschema/] whose vendor and schema
    directories are directories not starting with a dot: the entry has the
    URI [iglu:<vendor>/<name>/jsonschema/<stem of the file name>] and the
    path [schemas/<vendor>/<name>/jsonschema/<file name>]. The entries are
    sorted by URI, entries with the same URI staying in the order of the
    visit. Without a [schemas] directory the list is empty. *)
Theorem collect_schemas_entries (schemas : list schema_entry) :
  _collect_schemas fs (IndexGenerator_init root) = Return schemas ->
  if fs_exists fs (path_div root "schemas") then
    exists units,
      schema_units fs (path_div root "schemas") = Return units
      /\ schemas = sorted_by_str se_uri (index_entry_of <$> units)
  else schemas = [].
Proof.
  destruct (fs_exists fs (path_div root "schemas")) eqn:He.
  - rewrite (collect_schemas_units He).
    destruct (schema_units fs (path_div root "schemas")) as [units|e]; [|discriminate].
    cbn [rbind]. intros E. inversion E. by exists units.
  - unfold _collect_schemas.
    change (ig_schemas_dir (IndexGenerator_init root)) with (path_div root "schemas").
    rewrite He. cbn [negb]. intros E. by inversion E.
Qed.

End SchemaIndex.

Lemma check_schemas_count_witness :
  exists s',
    check_schemas (fs_of_tree payments_tree) ext0 (RegistryValidator_init ext0 repo)
    = (Return true, s')
    /\ List.last (stdout s') EmptyString = "  ✓ Validated 1 schemas".
Proof.
  destruct (check_schemas (fs_of_tree payments_tree) ext0 (RegistryValidator_init ext0 repo))
    as [r s'] eqn:E.
  assert (r = Return true) as ->.
  { assert (fst (check_schemas (fs_of_tree payments_tree) ext0
                   (RegistryValidator_init ext0 repo)) = r) as H by (by rewrite E).
    vm_compute in H. by subst r. }
  exists s'. split; [reflexivity|].
  destruct (schema_units (fs_of_tree payments_tree)
              (schemas_dir (RegistryValidator_init ext0 repo))) as [units|] eqn:Hu;
    [|vm_compute in Hu; discriminate Hu].
  assert (fs_exists (fs_of_tree payments_tree)
            (schemas_dir (RegistryValidator_init ext0 repo)) = true) as He
    by (vm_compute; reflexivity).
  destruct (check_schemas_count (fs_of_tree payments_tree) ext0
              (RegistryValidator_init ext0 repo) units true s' He Hu E)
    as (n & Hlast & _ & Hn).
  rewrite Hlast. rewrite (proj1 Hn eq_refl).
  assert (Return units = schema_units (fs_of_tree payments_tree)
                           (schemas_dir (RegistryValidator_init ext0 repo))) as Hu'
    by (by rewrite Hu).
  vm_compute in Hu'. injection Hu' as ->. vm_compute. reflexivity.
Defined.

Section SchemasAcrossTools.

Context (fs : filesystem) (ext : externals).

Lemma check_vendor_dir_listed schemas_dir vendor st s st' s' :
  check_vendor_dir fs ext (path_child schemas_dir vendor) st s = (Return st', s') ->
  exists units, vendor_units fs schemas_dir vendor = Return units.
Proof.
  unfold check_vendor_dir, vendor_units. rewrite negb_visible. cbv zeta.
  destruct (visible fs _); cbn [negb]; [|eauto].
  unfold iterdir. destruct (fs_listdir fs _) as [names|]; cbn [rbind]; [eauto|].
  discriminate.
Qed.

Lemma check_vendor_dirs_listed schemas_dir vendors st s st' s' :
  vfor vendors (fun vendor => check_vendor_dir fs ext (path_child schemas_dir vendor)) st s
  = (Return st', s') ->
  exists per, mapM (vendor_units fs schemas_dir) vendors = Return per.
Proof.
  revert st s. induction vendors as [|v vs IH]; intros st s E.
  - by exists [].
  - rewrite vfor_cons in E. apply vbind_Return in E as (st1 & s1 & E1 & E2).
    destruct (check_vendor_dir_listed _ _ _ _ _ _ E1) as [us Hus].
    destruct (IH _ _ E2) as [per Hper].
    exists (us :: per). simpl. by rewrite Hus, Hper.
Qed.

Lemma check_schemas_listed s b s' :
  fs_exists fs (schemas_dir s) = true ->
  check_schemas fs ext s = (Return b, s') ->
  exists units, schema_units fs (schemas_dir s) = Return units.
Proof.
  intros He. unfold check_schemas. rewrite vbind_print. unfold vbind at 1, vget.
  change (schemas_dir (with_line "Checking schemas..." s)) with (schemas_dir s).
  rewrite He. cbn [negb]. cbv beta iota. unfold schema_units, iterdir.
  destruct (fs_listdir fs (schemas_dir s)) as [vendors|]; [|discriminate]. cbn [rbind].
  unfold vbind at 1, vlift. intros E. apply vbind_Return in E as (st & s1 & E1 & _).
  rewrite vfor_fmap in E1.
  destruct (check_vendor_dirs_listed _ _ _ _ _ _ E1) as [per ->]. cbn [rbind]. eauto.
Qed.

(** X14. The two tools agree on the schemas: when the schema check of a
    fresh validator passes, the index generator run on the same registry
    returns the list of schemas without raising; with a [schemas] directory
    this list has as many entries as the validator reports valid schema
    files, and without one it is empty. *)
Theorem validated_schemas_are_indexed (root : Path) (s' : RegistryValidator) :
  check_schemas fs ext (RegistryValidator_init ext root) = (Return true, s') ->
  exists r,
    _collect_schemas fs (IndexGenerator_init root) = Return r
    /\ if fs_exists fs (path_div root "schemas") then
         List.last (stdout s') EmptyString
         = "  ✓ Validated " +:+ str_of_nat (length r) +:+ " schemas"
       else r = [].
Proof.
  intros E.
  destruct (fs_exists fs (path_div root "schemas")) eqn:He.
  - destruct (check_schemas_listed (RegistryValidator_init ext root) true s' He E)
      as [units Hu].
    rewrite (check_schemas_units fs ext (RegistryValidator_init ext root) units He Hu)
      in E.
    change (schemas_dir (RegistryValidator_init ext root)) with (path_div root "schemas")
      in Hu, E.
    rewrite (collect_schemas_units fs root He), Hu. cbn [rbind].
    eexists. split; [reflexivity|].
    apply vbind_Return in E as (st & s1 & E1 & E).
    cbv [vbind print vret] in E. injection E as Hb <-.
    rewrite <- (vfor_fmap (su_path (path_div root "schemas")) units
                  (check_schema_file fs ext)) in E1.
    destruct (vfor_schema_files_count fs ext _ _ _ _ _ E1) as (k & Hc & _ & Hs).
    rewrite length_fmap in Hs. simpl in Hc, Hs. apply Hs in Hb as [_ ->].
    cbn [stdout]. rewrite last_last, Hc.
    by rewrite sorted_by_str_perm, length_fmap.
  - exists []. split; [|reflexivity]. unfold _collect_schemas.
    change (ig_schemas_dir (IndexGenerator_init root)) with (path_div root "schemas").
    by rewrite He.
Qed.

End SchemasAcrossTools.

Lemma validated_schemas_are_indexed_witness :
  exists s' r,
    check_schemas (fs_of_tree payments_tree) ext0 (RegistryValidator_init ext0 repo)
    = (Return true, s')
    /\ _collect_schemas (fs_of_tree payments_tree) (IndexGenerator_init repo) = Return r
    /\ List.last (stdout s') EmptyString
       = "  ✓ Validated " +:+ str_of_nat (length r) +:+ " schemas".
Proof.
  destruct (check_schemas (fs_of_tree payments_tree) ext0 (RegistryValidator_init ext0 repo))
    as [res s'] eqn:E.
  assert (res = Return true) as ->.
  { assert (fst (check_schemas (fs_of_tree payments_tree) ext0
                   (RegistryValidator_init ext0 repo)) = res) as H by (by rewrite E).
    vm_compute in H. by subst res. }
  destruct (validated_schemas_are_indexed (fs_of_tree payments_tree) ext0 repo s' E)
    as (r & Hr & Hlast).
  exists s', r. split; [reflexivity|]. split; [exact Hr|].
  assert (fs_exists (fs_of_tree payments_tree) (path_div repo "schemas") = true) as He
    by (vm_compute; reflexivity).
  by rewrite He in Hlast.
Defined.

Lemma collect_schemas_entries_witness :
  exists units,
    schema_units (fs_of_tree payments_tree) (path_div repo "schemas") = Return units
    /\ [ {| se_uri := "iglu:acme/order/jsonschema/1-0-0";
            se_path := "schemas/acme/order/jsonschema/1-0-0.json" |} ]
       = sorted_by_str se_uri (index_entry_of <$> units).
Proof.
  assert (_collect_schemas (fs_of_tree payments_tree) (IndexGenerator_init repo)
          = Return [ {| se_uri := "iglu:acme/order/jsonschema/1-0-0";
                        se_path := "schemas/acme/order/jsonschema/1-0-0.json" |} ]) as E
    by (vm_compute; reflexivity).
  apply (collect_schemas_entries (fs_of_tree payments_tree) repo) in E.
  assert (fs_exists (fs_of_tree payments_tree) (path_div repo "schemas") = true) as He
    by (vm_compute; reflexivity).
  rewrite He in E. exact E.
Defined.

(** ** The version entries of the index *)

Section VersionEntries.

Context (fs : filesystem) (ext : externals) (self : IndexGenerator).

Lemma read_transform_meta_build (version_dir : Path) (e : version_entry) :
  _read_transform_meta fs ext self version_dir = Some e ->
  fs_exists fs (path_div version_dir "spec.meta.yaml") = true
  /\ build_version_entry fs ext self version_dir (path_div version_dir "spec.meta.yaml")
     = Return e.
Proof.
  unfold _read_transform_meta.
  destruct (fs_exists fs _); cbn [negb]; [|discriminate].
  destruct (build_version_entry _ _ _ _ _); [|discriminate].
  intros [= <-]. by split.
Qed.

(** The five keys every entry starts with are never overwritten. *)
Lemma build_version_entry_fields (version_dir meta_file : Path) (e : version_entry) :
  build_version_entry fs ext self version_dir meta_file = Return e ->
  exists items rel,
    load_with fs (yaml_safe_load ext) meta_file = Return (PDict items)
    /\ relative_to version_dir (ig_repo_root self) = Return rel
    /\ e <> []
    /\ forall key dflt,
         (key, dflt) ∈ [ ("version", PNone); ("from_schema", PNone); ("to_schema", PNone);
                         ("status", PStr "draft") ] ->
         entry_getitem key e = Return (default dflt (dict_find key items)).
Proof.
  unfold build_version_entry, load_with.
  destruct (fs_read fs _) as [data|]; [|discriminate]. cbn [rbind].
  destruct (yaml_safe_load ext data) as [meta|]; [|discriminate]. cbn [rbind].
  destruct (relative_to _ _) as [rel|]; [|discriminate]. cbn [rbind].
  destruct meta as [| | | | |items]; try discriminate.
  cbn [py_get rbind py_in py_getitem].
  set (version := default PNone (dict_find "version" items)).
  set (from_schema := default PNone (dict_find "from_schema" items)).
  set (to_schema := default PNone (dict_find "to_schema" items)).
  set (status := default (PStr "draft") (dict_find "status" items)).
  set (path := path_str rel +:+ "/").
  destruct (dict_find "checksum" items) as [c|];
  destruct (dict_find "provenance" items) as [p|];
  destruct (dict_find "compat" items) as [cm|];
  cbn [bool_decide decide_rel is_Some_dec decide rbind].
  all: repeat match goal with
       | |- context [py_get ?p ?k ?d] => destruct (py_get p k d); cbn [rbind]
       | |- context [py_in ?k ?c] => destruct (py_in k c) as [[]|]; cbn [rbind]
       | |- context [py_getitem ?c ?k] => destruct (py_getitem c k); cbn [rbind]
       end.
  all: try discriminate.
  all: intros [= <-]; exists items, rel; split; [reflexivity|]; split; [reflexivity|].
  all: split; [discriminate|].
  all: intros key dflt Hk; repeat (apply elem_of_cons in Hk as [[= -> ->]|Hk]; [reflexivity|]).
  all: by apply elem_of_nil in Hk.
Qed.

Lemma build_version_entry_path (version_dir meta_file : Path) (e : version_entry) rel :
  build_version_entry fs ext self version_dir meta_file = Return e ->
  relative_to version_dir (ig_repo_root self) = Return rel ->
  entry_getitem "path" e = Return (PStr (path_str rel +:+ "/")).
Proof.
  unfold build_version_entry. intros H Hrel. revert H.
  destruct (rbind (fs_read fs meta_file) _) as [meta|]; [|discriminate]. cbn [rbind].
  rewrite Hrel. cbn [rbind].
  repeat match goal with
         | |- context [py_get ?p ?k ?d] => destruct (py_get p k d); cbn [rbind]
         | |- context [py_in ?k ?c] => destruct (py_in k c) as [[]|]; cbn [rbind]
         | |- context [py_getitem ?c ?k] => destruct (py_getitem c k); cbn [rbind]
         end.
  all: try discriminate.
  all: intros [= <-]; reflexivity.
Qed.

(** X15. The entry of a version whose metadata is readable always has the
    keys [version], [from_schema], [to_schema], [status] and [path]: the
    first three hold the value of the metadata, or [None] when it declares
    none, [status] holds the declared status, or ["draft"] when it declares
    none, and [path] the path of the version directory relative to the root,
    with a final slash. Readable metadata is a mapping, and its entry is
    never dropped by the test [if version_meta]. *)
Theorem version_entry_base_fields (version_dir : Path) (e : version_entry) :
  _read_transform_meta fs ext self version_dir = Some e ->
  exists items rel,
    load_with fs (yaml_safe_load ext) (path_div version_dir "spec.meta.yaml")
    = Return (PDict items)
    /\ relative_to version_dir (ig_repo_root self) = Return rel
    /\ entry_getitem "version" e = Return (default PNone (dict_find "version" items))
    /\ entry_getitem "from_schema" e = Return (default PNone (dict_find "from_schema" items))
    /\ entry_getitem "to_schema" e = Return (default PNone (dict_find "to_schema" items))
    /\ entry_getitem "status" e = Return (default (PStr "draft") (dict_find "status" items))
    /\ entry_getitem "path" e = Return (PStr (path_str rel +:+ "/"))
    /\ truthy (Some e) = true.
Proof.
  intros H. apply read_transform_meta_build in H as [_ Hb].
  destruct (build_version_entry_fields _ _ _ Hb) as (items & rel & Hload & Hrel & Hne & Hf).
  exists items, rel. split; [exact Hload|]. split; [exact Hrel|].
  split; [apply Hf; set_solver|]. split; [apply Hf; set_solver|].
  split; [apply Hf; set_solver|]. split; [apply Hf; set_solver|].
  split; [by eapply build_version_entry_path|].
  by destruct e.
Qed.

End VersionEntries.

Lemma version_entry_base_fields_witness :
  exists e,
    _read_transform_meta (fs_of_tree empty_provenance_tree) ext0 (IndexGenerator_init repo)
      (MkPath "/" ["repo"; "transforms"; "a"; "b"; "1.0.0"]) = Some e
    /\ entry_getitem "status" e = Return (PStr "draft")
    /\ entry_getitem "from_schema" e = Return PNone
    /\ entry_getitem "path" e = Return (PStr "transforms/a/b/1.0.0/").
Proof.
  destruct (_read_transform_meta (fs_of_tree empty_provenance_tree) ext0
              (IndexGenerator_init repo)
              (MkPath "/" ["repo"; "transforms"; "a"; "b"; "1.0.0"])) as [e|] eqn:E;
    [|vm_compute in E; discriminate E].
  exists e. split; [reflexivity|].
  destruct (version_entry_base_fields (fs_of_tree empty_provenance_tree) ext0
              (IndexGenerator_init repo) _ e E)
    as (items & rel & Hload & Hrel & _ & Hf & _ & Hs & Hp & _).
  assert (items = [(PStr "version", PStr "1.0.0"); (PStr "provenance", PDict [])]) as ->.
  { vm_compute in Hload. by injection Hload as <-. }
  assert (rel = MkPath EmptyString ["transforms"; "a"; "b"; "1.0.0"]) as ->.
  { vm_compute in Hrel. by injection Hrel as <-. }
  split; [exact Hs|]. split; [exact Hf | exact Hp].
Defined.

(** ** Where the versions of the index come from *)

Lemma str_app_assoc (a b c : string) : (a +:+ b) +:+ c = a +:+ b +:+ c.
Proof.
  induction a as [|x a IH]; [reflexivity|].
  change (String x ((a +:+ b) +:+ c) = String x (a +:+ b +:+ c)). by rewrite IH.
Qed.

Lemma category_units_shape fs c units u :
  category_units fs c = Return units -> u ∈ units ->
  visible fs c = true /\ tu_category u = c
  /\ exists name names,
       tu_transform u = path_child c name
       /\ visible fs (tu_transform u) = true
       /\ fs_listdir fs (tu_transform u) = Return names
       /\ tu_listing u = path_child (tu_transform u) <$> names.
Proof.
  unfold category_units. destruct (visible fs c).
  2:{ intros [= <-] Hu. by apply elem_of_nil in Hu. }
  unfold iterdir at 1. destruct (fs_listdir fs c) as [tnames|]; [|discriminate].
  cbn [rbind]. intros Hm Hu.
  destruct (mapM_elem_of_inv _ _ _ _ Hm Hu) as (t & Ht & Hf).
  apply list_elem_of_In, filter_In in Ht as [Ht Hv]. apply list_elem_of_In in Ht.
  apply list_elem_of_fmap in Ht as (name & -> & _).
  unfold iterdir in Hf.
  destruct (fs_listdir fs (path_child c name)) as [names|] eqn:El; [|discriminate].
  cbn [rbind] in Hf. injection Hf as <-. simpl.
  split; [reflexivity|]. split; [reflexivity|]. exists name, names. by repeat split.
Qed.

Lemma transform_units_shape fs tdir units u :
  transform_units fs tdir = Return units -> u ∈ units ->
  exists category name names,
    tu_category u = path_child tdir category
    /\ visible fs (tu_category u) = true
    /\ tu_transform u = path_child (tu_category u) name
    /\ visible fs (tu_transform u) = true
    /\ fs_listdir fs (tu_transform u) = Return names
    /\ tu_listing u = path_child (tu_transform u) <$> names.
Proof.
  unfold transform_units, iterdir. destruct (fs_listdir fs tdir) as [cnames|]; [|discriminate].
  cbn [rbind]. destruct (mapM _ _) as [per|] eqn:Hm; [|discriminate]. cbn [rbind].
  intros [= <-] Hu. apply list_elem_of_In, in_concat in Hu as (us & Hus & Hu).
  apply list_elem_of_In in Hus, Hu.
  destruct (mapM_elem_of_inv _ _ _ _ Hm Hus) as (c & Hc & Hf).
  apply list_elem_of_fmap in Hc as (category & -> & _).
  destruct (category_units_shape fs _ us u Hf Hu)
    as (Hv & Hcat & name & names & Ht & Hvt & Hl & Hlist).
  exists category, name, names. rewrite Hcat. by repeat split.
Qed.

Lemma discovered_elem_of fs ext self units id ve :
  ve ∈ discovered fs ext self units id ->
  exists u v, u ∈ units /\ tu_id u = id /\ v ∈ tu_listing u /\ visible fs v = true
              /\ _read_transform_meta fs ext self v = Some ve.
Proof.
  unfold discovered. intros H. apply list_elem_of_In, in_flat_map in H as (u & Hu & H).
  apply list_elem_of_In in Hu. case_bool_decide as Hid; [|by destruct H].
  unfold unit_entries in H. apply in_flat_map in H as (v & Hv & H).
  apply list_elem_of_In in Hv. unfold readable_entry in H.
  destruct (visible fs v) eqn:Hvis; [|by destruct H].
  destruct (_read_transform_meta fs ext self v) as [e|] eqn:Hr; [|by destruct H].
  destruct (truthy (Some e)); [|by destruct H].
  destruct H as [<-|[]]. exists u, v. by repeat split.
Qed.

Lemma visible_child_name fs p name :
  visible fs (path_child p name) = true -> startswith_dot name = false.
Proof.
  unfold visible. rewrite path_name_child. intros H. apply andb_true_iff in H as [_ H].
  by apply negb_true_iff in H.
Qed.

(** Where a discovered version entry was read. *)
Lemma discovered_origin (fs : filesystem) (ext : externals) (root : Path)
    (units : list transform_unit) (id : string) (ve : version_entry) :
  transform_units fs (path_div root "transforms") = Return units ->
  ve ∈ discovered fs ext (IndexGenerator_init root) units id ->
  exists (u : transform_unit) (category name version : string),
    u ∈ units
    /\ tu_category u = path_child (path_div root "transforms") category
    /\ tu_transform u = path_child (tu_category u) name
    /\ path_child (tu_transform u) version ∈ tu_listing u
    /\ id = category +:+ "/" +:+ name
    /\ visible fs (tu_category u) = true /\ visible fs (tu_transform u) = true
    /\ visible fs (path_child (tu_transform u) version) = true
    /\ _read_transform_meta fs ext (IndexGenerator_init root)
         (path_child (tu_transform u) version) = Some ve.
Proof.
  intros Hu Hve.
  destruct (discovered_elem_of _ _ _ _ _ _ Hve) as (u & v & Hin & Hid & Hv & Hvis & Hread).
  destruct (transform_units_shape _ _ _ u Hu Hin)
    as (category & name & names & Hc & Hvc & Ht & Hvt & _ & Hl).
  pose proof Hv as Hv'. rewrite Hl in Hv'.
  apply list_elem_of_fmap in Hv' as (version & -> & _).
  exists u, category, name, version. split; [exact Hin|]. split; [exact Hc|].
  split; [exact Ht|]. split; [exact Hv|].
  split; [by rewrite <- Hid; unfold tu_id; rewrite Ht, Hc, !path_name_child|].
  by repeat split.
Qed.

Lemma version_dir_relative (root : Path) (category name version : string) :
  relative_to
    (path_child (path_child (path_child (path_div root "transforms") category) name) version)
    root
  = Return (MkPath EmptyString ["transforms"; category; name; version]).
Proof.
  change (path_child (path_child (path_child (path_div root "transforms") category) name)
            version)
    with (MkPath (anchor root)
            ((((parts root ++ ["transforms"]) ++ [category]) ++ [name]) ++ [version])).
  rewrite <- !app_assoc. apply relative_to_under.
Qed.

Lemma version_dir_path (category name version : string) :
  path_str (MkPath EmptyString ["transforms"; category; name; version]) +:+ "/"
  = "transforms/" +:+ category +:+ "/" +:+ name +:+ "/" +:+ version +:+ "/".
Proof.
  change (path_str (MkPath EmptyString ["transforms"; category; name; version]))
    with ("transforms/" +:+ category +:+ "/" +:+ name +:+ "/" +:+ version).
  by rewrite !str_app_assoc.
Qed.

(** X16. Every version listed in the index of the transforms comes from a
    version directory [transforms/<category>/<name>/<version>] whose three
    levels are directories with names not starting with a dot: the entry is
    what [_read_transform_meta] reads there, it is listed under the id
    [<category>/<name>], and its [path] is
    [transforms/<category>/<name>/<version>/]. *)
Theorem index_versions_located (fs : filesystem) (ext : externals) (root : Path)
    (r : list transform_entry) (e : transform_entry) (ve : version_entry) :
  _collect_transforms fs ext (IndexGenerator_init root) = Return r ->
  e ∈ r -> ve ∈ te_versions e ->
  exists category name version : string,
    let category_dir := path_child (path_div root "transforms") category in
    let transform_dir := path_child category_dir name in
    let version_dir := path_child transform_dir version in
    te_id e = category +:+ "/" +:+ name
    /\ visible fs category_dir = true /\ visible fs transform_dir = true
    /\ visible fs version_dir = true
    /\ startswith_dot category = false /\ startswith_dot name = false
    /\ startswith_dot version = false
    /\ _read_transform_meta fs ext (IndexGenerator_init root) version_dir = Some ve
    /\ entry_getitem "path" ve
       = Return (PStr ("transforms/" +:+ category +:+ "/" +:+ name +:+ "/" +:+ version
                       +:+ "/")).
Proof.
  intros Hr He Hve.
  destruct (collect_transforms_groups fs ext _ r Hr) as (units & Hu & _ & _ & _ & Hperm & _).
  destruct (fs_exists fs (ig_transforms_dir (IndexGenerator_init root)));
    [|subst units; rewrite (Hperm e He) in Hve; by apply elem_of_nil in Hve].
  rewrite (Hperm e He) in Hve.
  destruct (discovered_origin _ _ _ _ _ _ Hu Hve)
    as (u & category & name & version & _ & Hc & Ht & _ & Hid & Hvc & Hvt & Hvis & Hread).
  rewrite Ht, Hc in *. exists category, name, version. cbv zeta.
  split; [exact Hid|].
  split; [exact Hvc|]. split; [exact Hvt|]. split; [exact Hvis|].
  split; [by eapply visible_child_name|]. split; [by eapply visible_child_name|].
  split; [by eapply visible_child_name|]. split; [exact Hread|].
  apply read_transform_meta_build in Hread as [_ Hb].
  rewrite (build_version_entry_path _ _ _ _ _ _ _ Hb (version_dir_relative _ _ _ _)).
  by rewrite version_dir_path.
Qed.

Lemma index_versions_located_witness :
  exists r,
    _collect_transforms (fs_of_tree payments_tree) ext0 (IndexGenerator_init repo) = Return r
    /\ forall e ve, e ∈ r -> ve ∈ te_versions e ->
         exists category name version,
           te_id e = category +:+ "/" +:+ name
           /\ startswith_dot version = false
           /\ entry_getitem "path" ve
              = Return (PStr ("transforms/" +:+ category +:+ "/" +:+ name +:+ "/"
                              +:+ version +:+ "/")).
Proof.
  destruct (_collect_transforms (fs_of_tree payments_tree) ext0 (IndexGenerator_init repo))
    as [r|] eqn:E; [|vm_compute in E; discriminate E].
  exists r. split; [reflexivity|]. intros e ve He Hve.
  destruct (index_versions_located _ _ _ r e ve E He Hve)
    as (category & name & version & Hid & _ & _ & _ & _ & _ & Hdot & _ & Hp).
  exists category, name, version. by repeat split.
Defined.

(** ** Versions that cannot be sorted *)

Lemma mapM_Raise {A B} (f : A -> result B) l x e :
  x ∈ l -> f x = Raise e -> is_Return (mapM f l) = false.
Proof.
  induction l as [|a l IH]; intros Hx Hf; [by apply elem_of_nil in Hx|].
  simpl. apply elem_of_cons in Hx as [->|Hx].
  - by rewrite Hf.
  - destruct (f a); [|reflexivity]. simpl.
    specialize (IH Hx Hf). destruct (mapM f l); [discriminate IH | reflexivity].
Qed.

Lemma comparable_None v : comparable PNone v = false.
Proof. reflexivity. Qed.

Lemma all_comparable_None keys : PNone ∈ keys -> all_comparable keys = false.
Proof.
  intros Hin. unfold all_comparable. apply not_true_iff_false. intros H.
  rewrite forallb_forall in H. specialize (H PNone (proj1 (list_elem_of_In _ _) Hin)).
  rewrite forallb_forall in H. specialize (H PNone (proj1 (list_elem_of_In _ _) Hin)).
  discriminate H.
Qed.

Lemma mapM_length {A B} (f : A -> result B) l r : mapM f l = Return r -> length r = length l.
Proof.
  revert r. induction l as [|a l IH]; intros r H.
  - by injection H as <-.
  - apply mapM_cons_Return in H as (y & ys & _ & Hys & ->). simpl. by rewrite (IH ys).
Qed.

Lemma sort_versions_None (l : list version_entry) e :
  (2 <= length l)%nat -> e ∈ l -> entry_getitem "version" e = Return PNone ->
  is_Return (sort_versions l) = false.
Proof.
  intros Hlen He Hv. unfold sort_versions, py_sort_reverse.
  destruct (mapM (entry_getitem "version") l) as [keys|] eqn:Hk; [|reflexivity].
  cbn [rbind]. destruct (mapM_elem_of _ _ _ _ Hk He) as (k & Hk' & Hin).
  rewrite Hv in Hk'. injection Hk' as <-.
  rewrite (all_comparable_None keys Hin), orb_false_r.
  destruct (length l <=? 1)%nat eqn:E; [|reflexivity].
  apply Nat.leb_le in E. lia.
Qed.

(** X17. A transform with two or more readable versions, one of which has
    no version value (the metadata declares none, or declares null), cannot
    be sorted: the comparison of [None] with another key raises, and the
    generation of the index fails without returning an index. *)
Theorem missing_version_breaks_index (fs : filesystem) (ext : externals)
    (self : IndexGenerator) (units : list transform_unit) (id : string)
    (ve : version_entry) (now : string) :
  fs_exists fs (ig_transforms_dir self) = true ->
  transform_units fs (ig_transforms_dir self) = Return units ->
  (2 <= length (discovered fs ext self units id))%nat ->
  ve ∈ discovered fs ext self units id ->
  entry_getitem "version" ve = Return PNone ->
  is_Return (sort_versions (discovered fs ext self units id)) = false
  /\ is_Return (_collect_transforms fs ext self) = false
  /\ is_Return (generate fs ext self now) = false.
Proof.
  intros He Hu Hlen Hve Hv.
  pose proof (sort_versions_None _ ve Hlen Hve Hv) as Hsort.
  assert (is_Return (_collect_transforms fs ext self) = false) as Hc.
  { rewrite (collect_transforms_units fs ext self He), Hu. cbn [rbind].
    unfold to_list_format.
    assert (id ∈ tu_id <$> units) as Hid.
    { destruct (discovered_elem_of _ _ _ _ _ _ Hve) as (u & _ & Hin & <- & _).
      by apply list_elem_of_fmap_2. }
    destruct (sort_versions (discovered fs ext self units id)) as [|err] eqn:Hs;
      [discriminate Hsort|].
    apply (mapM_Raise _ _ (id, discovered fs ext self units id) err).
    - rewrite sorted_by_str_perm. apply elem_of_map_to_list.
      rewrite collect_units_empty_lookup. by rewrite (bool_decide_eq_true_2 _ Hid).
    - simpl. by rewrite Hs. }
  split; [exact Hsort|]. split; [exact Hc|].
  unfold generate. destruct (_collect_transforms fs ext self); [discriminate Hc | reflexivity].
Qed.

Lemma missing_version_breaks_index_witness :
  is_Return (generate (fs_of_tree unversioned_tree) ext1 (IndexGenerator_init repo)
               build_time_1) = false.
Proof.
  refine (proj2 (proj2 (missing_version_breaks_index (fs_of_tree unversioned_tree) ext1
                          (IndexGenerator_init repo)
                          [ {| tu_category := MkPath "/" ["repo"; "transforms"; "a"];
                               tu_transform := MkPath "/" ["repo"; "transforms"; "a"; "b"];
                               tu_listing :=
                                 [ MkPath "/" ["repo"; "transforms"; "a"; "b"; "1.0.0"];
                                   MkPath "/" ["repo"; "transforms"; "a"; "b"; "1.1.0"] ] |} ]
                          "a/b"
                          [ ("version", PNone); ("from_schema", PNone); ("to_schema", PNone);
                            ("status", PStr "draft");
                            ("path", PStr "transforms/a/b/1.1.0/") ]
                          build_time_1 _ _ _ _ _))).
  - vm_compute; reflexivity.
  - vm_compute; reflexivity.
  - vm_compute. lia.
  - apply list_elem_of_In. vm_compute. right. left. reflexivity.
  - vm_compute; reflexivity.
Defined.

(** ** What a true verdict guarantees *)

Lemma py_eq_default_str (items : list (pyval * pyval)) k x :
  py_eq (default PNone (dict_find k items)) (PStr x) = true ->
  dict_find k items = Some (PStr x).
Proof.
  intros H. apply py_eq_str in H. destruct (dict_find k items); simpl in H; congruence.
Qed.

Section VerdictSoundness.

Context (fs : filesystem) (ext : externals).

Lemma run_golden_test_true j i e id v s s' :
  _run_golden_test fs ext j i e id v s = (Return true, s') ->
  s' = s /\ golden_outcome fs ext j i e = Return true.
Proof.
  unfold _run_golden_test, golden_outcome, try_except.
  unfold vbind at 1, vlift.
  destruct (load_with fs (decode_text ext) j) as [expr|]; cbn [rbind]; [|discriminate].
  unfold vbind at 1.
  destruct (load_with fs (json_load ext) i) as [input|]; cbn [rbind]; [|discriminate].
  unfold vbind at 1.
  destruct (load_with fs (json_load ext) e) as [expected|]; cbn [rbind]; [|discriminate].
  unfold vbind at 1.
  destruct (jsonata_evaluate ext expr input) as [actual|]; cbn [rbind]; [|discriminate].
  destruct (py_eq actual expected); cbn [negb].
  - intros [= <-]. by split.
  - unfold vbind, vlift, append_error, vret.
    destruct (json_dumps ext expected); [destruct (json_dumps ext actual)|]; discriminate.
Qed.

Ltac keeps_tac :=
  wp; try (intros; first [discriminate | by split | tauto]).

Lemma keeps_check_required_fields meta tag : keeps (check_required_fields meta tag).
Proof.
  intros b s. unfold check_required_fields.
  apply post_vfor with (Inv := fun r s' => r = true -> b = true /\ s' = s); [|done].
  intros field r s1 H. keeps_tac.
Qed.

Lemma keeps_check_id meta id tag : keeps (check_id ext meta id tag).
Proof. intros b s. unfold check_id. keeps_tac. Qed.

Lemma keeps_check_version meta v tag : keeps (check_version ext meta v tag).
Proof. intros b s. unfold check_version. keeps_tac. Qed.

Lemma keeps_check_engine meta tag : keeps (check_engine meta tag).
Proof. intros b s. unfold check_engine. keeps_tac. Qed.

Lemma keeps_check_checksum meta f tag : keeps (check_checksum fs ext meta f tag).
Proof. intros b s. unfold check_checksum. keeps_tac. Qed.

Lemma keeps_check_golden_tests meta d f id v :
  keeps (check_golden_tests fs ext meta d f id v).
Proof.
  intros b s. unfold check_golden_tests. keeps_tac.
  apply post_vfor with (Inv := fun r s' => r = true -> b = true /\ s' = s); [|done].
  intros spec r s1 Hinv. keeps_tac.
  intros passed s2 E. destruct passed; cbn [negb]; keeps_tac.
  intros Hr. apply run_golden_test_true in E as [-> _]. by apply Hinv.
Qed.

Lemma check_id_fact items id tag b s s' :
  check_id ext (PDict items) id tag b s = (Return true, s') ->
  dict_find "id" items = Some (PStr id).
Proof.
  unfold check_id. cbn [py_get]. unfold vbind at 1, vlift.
  destruct (py_eq _ (PStr id)) eqn:E; cbn [negb].
  - intros _. by apply py_eq_default_str.
  - cbv [vbind vlift append_error vret]. discriminate.
Qed.

Lemma check_version_fact items v tag b s s' :
  check_version ext (PDict items) v tag b s = (Return true, s') ->
  dict_find "version" items = Some (PStr v).
Proof.
  unfold check_version. cbn [py_get]. unfold vbind at 1, vlift.
  destruct (py_eq _ (PStr v)) eqn:E; cbn [negb].
  - intros _. by apply py_eq_default_str.
  - cbv [vbind vlift append_error vret]. discriminate.
Qed.

Lemma check_engine_fact items tag b s s' :
  check_engine (PDict items) tag b s = (Return true, s') ->
  dict_find "engine" items = Some (PStr "jsonata").
Proof.
  unfold check_engine. cbn [py_get]. unfold vbind at 1, vlift.
  destruct (py_eq _ (PStr "jsonata")) eqn:E; cbn [negb].
  - intros _. by apply py_eq_default_str.
  - cbv [vbind vlift append_error vret]. discriminate.
Qed.

Lemma check_checksum_fact items f tag b s s' block declared :
  check_checksum fs ext (PDict items) f tag b s = (Return true, s') ->
  dict_find "checksum" items = Some (PDict block) ->
  dict_find "jsonata_sha256" block = Some declared ->
  exists data, fs_read fs f = Return data /\ declared = PStr (SHA256.hexdigest data).
Proof.
  intros E Hc Hd. revert E.
  unfold check_checksum, declares_digest, _compute_sha256.
  cbn [py_in py_getitem]. rewrite Hc. cbn [rbind py_in py_getitem]. rewrite Hd.
  unfold vbind at 1, vlift. cbn [rbind].
  rewrite (bool_decide_eq_true_2 (is_Some (Some (PDict block)))) by eauto. cbn [rbind].
  rewrite (bool_decide_eq_true_2 (is_Some (Some declared))) by eauto.
  unfold vbind at 1. unfold vbind at 1. unfold vbind at 1.
  cbn [py_getitem]. rewrite Hd.
  destruct (fs_read fs f) as [data|]; cbn [rbind]; [|discriminate].
  destruct (py_eq declared (PStr (SHA256.hexdigest data))) eqn:E; cbn [negb].
  - intros _. exists data. split; [reflexivity|]. by apply py_eq_str.
  - cbv [vbind vlift append_error vret]. discriminate.
Qed.

Lemma path_div_val_str p v q : path_div_val p v = Return q -> exists str, v = PStr str.
Proof. destruct v; try discriminate. eauto. Qed.

Lemma golden_test_step d id v spec b s s' :
  (i <- vlift (py_getitem spec "input") ;;
   input_file <- vlift (path_div_val d i) ;;
   e <- vlift (py_getitem spec "expect") ;;
   expected_file <- vlift (path_div_val d e) ;;
   if negb (fs_exists fs input_file) then
     i' <- vlift (py_getitem spec "input") ;;
     append_error (unit_tag id v +:+ ": Test input not found: "
                   +:+ py_str (py_repr ext) i') ;;
     vret false
   else if negb (fs_exists fs expected_file) then
     e' <- vlift (py_getitem spec "expect") ;;
     append_error (unit_tag id v +:+ ": Test expected output not found: "
                   +:+ py_str (py_repr ext) e') ;;
     vret false
   else
     passed <- _run_golden_test fs ext (path_div d "spec.jsonata") input_file expected_file
                 id v ;;
     if negb passed then vret false else vret b)%V s = (Return true, s') ->
  golden_test_passes fs ext d spec.
Proof.
  unfold vbind at 1, vlift.
  destruct (py_getitem spec "input") as [i|] eqn:Ei; [|discriminate].
  unfold vbind at 1.
  destruct (path_div_val d i) as [input_file|] eqn:Hi; [|discriminate].
  unfold vbind at 1.
  destruct (py_getitem spec "expect") as [e|] eqn:Ee; [|discriminate].
  unfold vbind at 1.
  destruct (path_div_val d e) as [expected_file|] eqn:He; [|discriminate].
  destruct (path_div_val_str _ _ _ Hi) as [istr ->].
  destruct (path_div_val_str _ _ _ He) as [estr ->].
  simpl in Hi, He. injection Hi as <-. injection He as <-.
  destruct (fs_exists fs (path_div d istr)) eqn:Xi; cbn [negb].
  2:{ cbv [vbind vlift append_error vret]. discriminate. }
  destruct (fs_exists fs (path_div d estr)) eqn:Xe; cbn [negb].
  2:{ cbv [vbind vlift append_error vret]. discriminate. }
  intros E. apply vbind_Return in E as (passed & s1 & E1 & E2).
  destruct passed; cbn [negb] in E2; [|discriminate].
  apply run_golden_test_true in E1 as [_ Ho].
  exists istr, estr. by repeat split.
Qed.

Lemma check_golden_tests_fact items d id v b s s' tests :
  JSONATA_AVAILABLE ext = true ->
  dict_find "tests" items = Some tests ->
  check_golden_tests fs ext (PDict items) d (path_div d "spec.jsonata") id v b s
  = (Return true, s') ->
  exists test_specs,
    py_iter tests = Return test_specs /\ Forall (golden_test_passes fs ext d) test_specs.
Proof.
  intros Hav Ht. unfold check_golden_tests, runs_golden_tests. rewrite Hav.
  cbn [py_in py_getitem]. rewrite Ht.
  rewrite (bool_decide_eq_true_2 (is_Some (Some tests))) by eauto.
  unfold vbind at 1. unfold vlift at 1. unfold vbind at 1. unfold vlift at 1.
  unfold vbind at 1. unfold vlift at 1.
  destruct (py_iter tests) as [test_specs|]; [|discriminate].
  intros E. exists test_specs. split; [reflexivity|].
  revert b s E. induction test_specs as [|spec specs IH]; intros b s E; [constructor|].
  rewrite vfor_cons in E. apply vbind_Return in E as (b1 & s1 & E1 & E2).
  constructor; [|by eapply IH].
  assert (b1 = true) as ->.
  { match type of E2 with
    | vfor ?l ?body ?st ?s = _ =>
        assert (post (vfor l body st) s (fun r s' => r = true -> st = true /\ s' = s)) as Hp
    end.
    { apply post_vfor with (Inv := fun r s' => r = true -> b1 = true /\ s' = s1); [|done].
      intros x r s2 Hinv. cbv beta. keeps_tac.
      intros passed s3 E3. destruct passed; cbn [negb]; keeps_tac.
      intros Hr. apply run_golden_test_true in E3 as [-> _]. by apply Hinv. }
    by destruct (Hp _ _ E2 eq_refl). }
  by eapply golden_test_step.
Qed.

(** A true verdict is made of six checks that each returned true and
    changed nothing. *)
Lemma validate_transform_steps (d : Path) (id v : string) (s s' : RegistryValidator) :
  _validate_transform fs ext d id v s = (Return true, s') ->
  s' = s
  /\ fs_exists fs (path_div d "spec.jsonata") = true
  /\ fs_exists fs (path_div d "spec.meta.yaml") = true
  /\ fs_is_dir fs (path_div d "tests") = true
  /\ exists items,
       load_with fs (yaml_safe_load ext) (path_div d "spec.meta.yaml") = Return (PDict items)
       /\ check_required_fields (PDict items) (unit_tag id v) true s = (Return true, s)
       /\ check_id ext (PDict items) id (unit_tag id v) true s = (Return true, s)
       /\ check_version ext (PDict items) v (unit_tag id v) true s = (Return true, s)
       /\ check_engine (PDict items) (unit_tag id v) true s = (Return true, s)
       /\ check_checksum fs ext (PDict items) (path_div d "spec.jsonata") (unit_tag id v)
            true s = (Return true, s)
       /\ check_golden_tests fs ext (PDict items) d (path_div d "spec.jsonata") id v true s
          = (Return true, s).
Proof.
  unfold _validate_transform. cbv zeta.
  destruct (fs_exists fs (path_div d "spec.jsonata")) eqn:X1; cbn [negb];
    [|cbv [vbind append_error vret]; discriminate].
  destruct (fs_exists fs (path_div d "spec.meta.yaml")) eqn:X2; cbn [negb];
    [|cbv [vbind append_error vret]; discriminate].
  destruct (fs_exists fs (path_div d "tests")) eqn:X3; cbn [negb orb];
    [|cbv [vbind append_error vret]; discriminate].
  destruct (fs_is_dir fs (path_div d "tests")) eqn:X4; cbn [negb];
    [|cbv [vbind append_error vret]; discriminate].
  destruct (load_with fs (yaml_safe_load ext) (path_div d "spec.meta.yaml"))
    as [meta|]; [|cbv [vbind append_error vret]; discriminate].
  intros E.
  apply vbind_Return in E as (b1 & s1 & E1 & E).
  apply vbind_Return in E as (b2 & s2 & E2 & E).
  apply vbind_Return in E as (b3 & s3 & E3 & E).
  apply vbind_Return in E as (b4 & s4 & E4 & E).
  apply vbind_Return in E as (b5 & s5 & E5 & E).
  apply vbind_Return in E as (b6 & s6 & E6 & E).
  injection E as -> ->.
  destruct (keeps_check_golden_tests _ _ _ _ _ _ _ _ _ E6 eq_refl) as [-> ->].
  destruct (keeps_check_checksum _ _ _ _ _ _ _ E5 eq_refl) as [-> ->].
  destruct (keeps_check_engine _ _ _ _ _ _ E4 eq_refl) as [-> ->].
  destruct (keeps_check_version _ _ _ _ _ _ _ E3 eq_refl) as [-> ->].
  destruct (keeps_check_id _ _ _ _ _ _ _ E2 eq_refl) as [-> ->].
  destruct (keeps_check_required_fields _ _ _ _ _ _ E1 eq_refl) as [_ ->].
  split; [reflexivity|]. do 3 (split; [reflexivity|]).
  destruct meta as [| | | | |items];
    try (unfold check_id in E2; cbv [vbind vlift py_get] in E2; discriminate E2).
  exists items. by repeat split.
Qed.

(** X18. What a true verdict on a version directory guarantees: the
    validator is left as it was; [spec.jsonata], [spec.meta.yaml] and the
    directory [tests] exist; the metadata is a mapping with the nine required
    fields whose [id] and [version] are the strings expected from the
    directories and whose [engine] is ["jsonata"]; a digest declared in a
    checksum mapping is the SHA-256 of the expression file; and, when the
    evaluator is installed, every test case names an existing input and an
    existing expected output and the expression maps the one to the
    other. *)
Theorem validate_transform_sound (transform_dir : Path) (expected_id expected_version : string)
    (s s' : RegistryValidator) :
  _validate_transform fs ext transform_dir expected_id expected_version s = (Return true, s') ->
  s' = s
  /\ fs_exists fs (path_div transform_dir "spec.jsonata") = true
  /\ fs_exists fs (path_div transform_dir "spec.meta.yaml") = true
  /\ fs_is_dir fs (path_div transform_dir "tests") = true
  /\ exists items,
       load_with fs (yaml_safe_load ext) (path_div transform_dir "spec.meta.yaml")
       = Return (PDict items)
       /\ forallb (field_present items) required_fields = true
       /\ dict_find "id" items = Some (PStr expected_id)
       /\ dict_find "version" items = Some (PStr expected_version)
       /\ dict_find "engine" items = Some (PStr "jsonata")
       /\ (forall block declared,
             dict_find "checksum" items = Some (PDict block) ->
             dict_find "jsonata_sha256" block = Some declared ->
             exists data,
               fs_read fs (path_div transform_dir "spec.jsonata") = Return data
               /\ declared = PStr (SHA256.hexdigest data))
       /\ (JSONATA_AVAILABLE ext = true ->
           exists tests test_specs,
             dict_find "tests" items = Some tests
             /\ py_iter tests = Return test_specs
             /\ Forall (golden_test_passes fs ext transform_dir) test_specs).
Proof.
  intros E.
  destruct (validate_transform_steps _ _ _ _ _ E)
    as (-> & X1 & X2 & X4 & items & Hload & E1 & E2 & E3 & E4 & E5 & E6).
  split; [reflexivity|]. split; [exact X1|]. split; [exact X2|]. split; [exact X4|].
  exists items. split; [exact Hload|].
  assert (forallb (field_present items) required_fields = true) as Hreq.
  { unfold check_required_fields in E1. rewrite missing_fields_loop in E1.
    injection E1 as Hb _. exact Hb. }
  split; [exact Hreq|].
  split; [by eapply check_id_fact|]. split; [by eapply check_version_fact|].
  split; [by eapply check_engine_fact|]. split.
  - intros block declared Hc Hd. by eapply check_checksum_fact.
  - intros Hav.
    assert (field_present items "tests" = true) as Ht.
    { rewrite forallb_forall in Hreq. apply Hreq. unfold required_fields. simpl. tauto. }
    unfold field_present in Ht. apply bool_decide_eq_true in Ht as [tests Ht].
    destruct (check_golden_tests_fact _ _ _ _ _ _ _ tests Hav Ht E6) as (specs & Hi & Hall).
    by exists tests, specs.
Qed.

End VerdictSoundness.

Lemma validate_transform_sound_witness :
  let s0 := RegistryValidator_init ext0 repo in
  exists items,
    _validate_transform (fs_of_tree payments_tree) ext0 version_dir_1_0_0
      "payments/normalize_amount" "1.0.0" s0 = (Return true, s0)
    /\ load_with (fs_of_tree payments_tree) (yaml_safe_load ext0)
         (path_div version_dir_1_0_0 "spec.meta.yaml") = Return (PDict items)
    /\ dict_find "version" items = Some (PStr "1.0.0")
    /\ dict_find "engine" items = Some (PStr "jsonata").
Proof.
  cbv zeta.
  destruct (_validate_transform (fs_of_tree payments_tree) ext0 version_dir_1_0_0
              "payments/normalize_amount" "1.0.0" (RegistryValidator_init ext0 repo))
    as [res s'] eqn:E.
  assert (res = Return true) as ->.
  { assert (fst (_validate_transform (fs_of_tree payments_tree) ext0 version_dir_1_0_0
                   "payments/normalize_amount" "1.0.0" (RegistryValidator_init ext0 repo))
            = res) as H by (by rewrite E).
    vm_compute in H. by subst res. }
  destruct (validate_transform_sound _ _ _ _ _ _ _ E)
    as (-> & _ & _ & _ & items & Hload & _ & _ & Hv & He & _).
  exists items. by repeat split.
Defined.

(** ** A validated registry and its index *)

Section Validated.

Context (fs : filesystem) (ext : externals).










Section WithGenerator.

Context (self : IndexGenerator).







End WithGenerator.



End Validated.




(** ** The pairs of the validator are pairs of directory names *)

(** *** Directories that list each name once *)

Lemma path_child_inj p q n m : path_child p n = path_child q m -> p = q /\ n = m.
Proof.
  destruct p as [a ps], q as [b qs]. unfold path_child. simpl.
  intros [= -> H]. apply app_inj_tail in H as [-> ->]. by split.
Qed.

Lemma slash_free_cons a r :
  slash_free (String a r) = true -> a <> "/"%char /\ slash_free r = true.
Proof.
  unfold slash_free. simpl. intros H. apply negb_true_iff, orb_false_iff in H as [Ha Hr].
  split; [|by rewrite Hr]. intros ->. vm_compute in Ha. discriminate Ha.
Qed.

Lemma slash_join_inj n n' m m' :
  slash_free n = true -> slash_free n' = true ->
  n +:+ "/" +:+ m = n' +:+ "/" +:+ m' -> n = n' /\ m = m'.
Proof.
  revert n'. induction n as [|a r IH]; intros [|a' r'] Hn Hn'; cbv [String.append].
  - intros [= ->]. by split.
  - intros [= <- _]. by apply slash_free_cons in Hn' as [[] _].
  - intros [= -> _]. by apply slash_free_cons in Hn as [[] _].
  - intros [= -> H]. apply slash_free_cons in Hn as [_ Hn], Hn' as [_ Hn'].
    destruct (IH r' Hn Hn' H) as [-> ->]. by split.
Qed.

Lemma NoDup_concat_fmap {A B} (f : A -> list B) (l : list A) :
  (forall x1 x2 y, x1 ∈ l -> x2 ∈ l -> y ∈ f x1 -> y ∈ f x2 -> x1 = x2) ->
  (forall x, x ∈ l -> NoDup (f x)) ->
  NoDup l ->
  NoDup (concat (f <$> l)).
Proof.
  intros Hdisj Hf Hl. induction Hl as [|x l Hx Hl IH]; simpl; [constructor|].
  apply NoDup_app. split; [apply Hf; by left|]. split.
  - intros y Hy Hin. apply list_elem_of_In, in_concat in Hin as (k & Hk & Hyk).
    apply list_elem_of_In in Hk, Hyk. apply list_elem_of_fmap in Hk as (x' & -> & Hx').
    apply Hx. rewrite (Hdisj x x' y); [exact Hx' | by left | by right | exact Hy | exact Hyk].
  - apply IH.
    + intros x1 x2 y H1 H2. apply Hdisj; by right.
    + intros x' Hx'. apply Hf. by right.
Qed.

Lemma NoDup_list_filter {A} (f : A -> bool) (l : list A) :
  NoDup l -> NoDup (List.filter f l).
Proof.
  induction 1 as [|x l Hx Hl IH]; simpl; [constructor|].
  destruct (f x); [|exact IH]. constructor; [|exact IH].
  intros Hin. apply list_elem_of_In, filter_In in Hin as [Hin _].
  apply Hx. by apply list_elem_of_In.
Qed.

Section WellListed.

Context (fs : filesystem) (Hwl : well_listed fs).

Lemma iterdir_children p dirs :
  iterdir fs p = Return dirs ->
  NoDup dirs
  /\ forall d, d ∈ dirs -> exists name, d = path_child p name /\ slash_free name = true.
Proof.
  unfold iterdir. destruct (fs_listdir fs p) as [names|] eqn:E; [|discriminate].
  cbn [rbind]. intros [= <-]. destruct (Hwl p names E) as [Hnd Hsf]. split.
  - apply NoDup_fmap_2_strong; [|exact Hnd].
    intros x y _ _ H. by apply path_child_inj in H as [_ ->].
  - intros d Hd. apply list_elem_of_fmap in Hd as (name & -> & Hn).
    exists name. split; [reflexivity|]. by eapply Forall_forall in Hsf.
Qed.

Lemma filter_visible_elem (l : list Path) d : d ∈ List.filter (visible fs) l -> d ∈ l.
Proof. intros H. apply list_elem_of_In, filter_In in H as [H _]. by apply list_elem_of_In. Qed.

(** The transform directories visited under a category directory. *)
Lemma category_units_listed c us :
  category_units fs c = Return us ->
  NoDup us
  /\ forall u, u ∈ us ->
       tu_category u = c
       /\ (exists m, tu_transform u = path_child c m)
       /\ iterdir fs (tu_transform u) = Return (tu_listing u).
Proof.
  unfold category_units. destruct (visible fs c); [|intros [= <-]; split;
    [constructor | intros u Hu; by apply elem_of_nil in Hu]].
  destruct (iterdir fs c) as [dirs|] eqn:Ed; [|discriminate]. cbn [rbind].
  destruct (iterdir_children c dirs Ed) as [Hnd Hch]. intros Hm.
  assert (forall u, u ∈ us ->
            tu_transform u ∈ dirs /\ tu_category u = c
            /\ iterdir fs (tu_transform u) = Return (tu_listing u)) as Hu.
  { intros u Hin. destruct (mapM_elem_of_inv _ _ _ _ Hm Hin) as (t & Ht & Hf).
    apply filter_visible_elem in Ht.
    destruct (iterdir fs t) as [listing|] eqn:El; [|discriminate]. cbn [rbind] in Hf.
    injection Hf as <-. by repeat split. }
  split.
  - apply (NoDup_fmap_1 tu_transform).
    assert (tu_transform <$> us = id <$> List.filter (visible fs) dirs) as ->.
    { eapply mapM_fmap_eq; [|exact Hm].
      intros t u Hf. cbv beta in Hf. destruct (iterdir fs t); [|discriminate].
      cbn [rbind] in Hf. by injection Hf as <-. }
    rewrite list_fmap_id. by apply NoDup_list_filter.
  - intros u Hin. destruct (Hu u Hin) as (Ht & Hc & Hl).
    split; [exact Hc|]. split; [|exact Hl].
    destruct (Hch _ Ht) as (m & Hm' & _). by exists m.
Qed.

Lemma below_key_inj T u1 u2 :
  below T u1 -> below T u2 -> vu_key u1 = vu_key u2 -> u1 = u2.
Proof.
  intros (n1 & m1 & k1 & S1 & C1 & T1 & V1) (n2 & m2 & k2 & S2 & C2 & T2 & V2).
  unfold vu_key, vu_id. rewrite C1, T1, V1, C2, T2, V2, !path_name_child.
  intros [= H ->]. apply slash_join_inj in H as [-> ->]; [|done..].
  destruct u1, u2. simpl in *. by subst.
Qed.

Lemma transform_units_listed T units :
  transform_units fs T = Return units ->
  NoDup units
  /\ forall u, u ∈ units ->
       (exists n m, slash_free n = true /\ tu_category u = path_child T n
                    /\ tu_transform u = path_child (path_child T n) m)
       /\ iterdir fs (tu_transform u) = Return (tu_listing u).
Proof.
  unfold transform_units.
  destruct (iterdir fs T) as [cats|] eqn:Ec; [|discriminate]. cbn [rbind].
  destruct (iterdir_children T cats Ec) as [Hnd Hch].
  destruct (mapM (category_units fs) cats) as [per|] eqn:Em; [|discriminate].
  cbn [rbind]. intros [= <-].
  apply (mapM_Return_fmap _ []) in Em as [-> Hall]. rewrite Forall_forall in Hall.
  split.
  - apply NoDup_concat_fmap; [| |exact Hnd].
    + intros c1 c2 u H1 H2 Hu1 Hu2.
      destruct (category_units_listed c1 _ (Hall c1 H1)) as [_ F1].
      destruct (category_units_listed c2 _ (Hall c2 H2)) as [_ F2].
      destruct (F1 u Hu1) as [<- _]. by destruct (F2 u Hu2) as [<- _].
    + intros c Hc. by destruct (category_units_listed c _ (Hall c Hc)).
  - intros u Hu. apply list_elem_of_In, in_concat in Hu as (us & Hus & Hu).
    apply list_elem_of_In in Hus, Hu.
    apply list_elem_of_fmap in Hus as (c & -> & Hc).
    destruct (category_units_listed c _ (Hall c Hc)) as [_ F].
    destruct (F u Hu) as (Hcat & (m & Ht) & Hl).
    destruct (Hch c Hc) as (n & -> & Hn).
    split; [|exact Hl]. exists n, m. by rewrite Hcat, Ht.
Qed.

(** No pair of names is yielded twice. *)
Lemma version_units_keys_distinct T units :
  transform_units fs T = Return units ->
  NoDup (vu_key <$> version_units fs units).
Proof.
  intros Hu. destruct (transform_units_listed T units Hu) as [Hnd Hfacts].
  assert (forall u y, u ∈ units -> y ∈ version_units_of fs u ->
            vu_category y = tu_category u /\ vu_transform y = tu_transform u
            /\ vu_version_dir y ∈ tu_listing u) as Hof.
  { intros u y _ Hy. unfold version_units_of in Hy.
    apply list_elem_of_fmap in Hy as (v & -> & Hv). simpl.
    by apply filter_visible_elem in Hv. }
  apply NoDup_fmap_2_strong.
  - intros y1 y2 H1 H2. apply (below_key_inj T).
    + unfold version_units in H1.
      apply list_elem_of_In, in_concat in H1 as (l & Hl & Hy).
      apply list_elem_of_In in Hl, Hy. apply list_elem_of_fmap in Hl as (u & -> & Hin).
      destruct (Hof u y1 Hin Hy) as (Hc & Ht & Hv).
      destruct (Hfacts u Hin) as ((n & m & Hn & Hcat & Htr) & Hlist).
      destruct (iterdir_children _ _ Hlist) as [_ Hch].
      destruct (Hch _ Hv) as (k & Hk & _).
      exists n, m, k. rewrite Hc, Ht, Hk, Hcat, Htr. by repeat split.
    + unfold version_units in H2.
      apply list_elem_of_In, in_concat in H2 as (l & Hl & Hy).
      apply list_elem_of_In in Hl, Hy. apply list_elem_of_fmap in Hl as (u & -> & Hin).
      destruct (Hof u y2 Hin Hy) as (Hc & Ht & Hv).
      destruct (Hfacts u Hin) as ((n & m & Hn & Hcat & Htr) & Hlist).
      destruct (iterdir_children _ _ Hlist) as [_ Hch].
      destruct (Hch _ Hv) as (k & Hk & _).
      exists n, m, k. rewrite Hc, Ht, Hk, Hcat, Htr. by repeat split.
  - unfold version_units. apply NoDup_concat_fmap; [| |exact Hnd].
    + intros u1 u2 y H1 H2 Hy1 Hy2.
      destruct (Hof u1 y H1 Hy1) as (Hc1 & Ht1 & _).
      destruct (Hof u2 y H2 Hy2) as (Hc2 & Ht2 & _).
      destruct (Hfacts u1 H1) as [_ L1]. destruct (Hfacts u2 H2) as [_ L2].
      rewrite <- Ht1, Ht2, L2 in L1. injection L1 as L1.
      destruct u1, u2. simpl in *. by subst.
    + intros u Hin. unfold version_units_of.
      apply NoDup_fmap_2_strong.
      * intros v1 v2 _ _ H. by injection H.
      * apply NoDup_list_filter. destruct (Hfacts u Hin) as [_ Hlist].
        by destruct (iterdir_children _ _ Hlist).
Qed.

End WellListed.

(** An in-memory tree whose directories hold each name once gives a file
    system that lists each name once. *)
Lemma well_listed_of_tree (root : node) :
  well_listed_tree root = true -> well_listed (fs_of_tree root).
Proof.
  intros Hroot p names. simpl. generalize (parts p). intros ps.
  revert root Hroot. induction ps as [|q ps IH]; intros root Hroot.
  - simpl. destruct root as [data|entries]; [discriminate|]. intros [= <-].
    simpl in Hroot. apply andb_true_iff in Hroot as [Hroot _].
    apply andb_true_iff in Hroot as [Hnd Hsf]. split.
    + by apply bool_decide_eq_true in Hnd.
    + apply Forall_forall. intros name Hn.
      apply list_elem_of_fmap in Hn as (e & -> & He).
      rewrite forallb_forall in Hsf. apply Hsf. by apply list_elem_of_In.
  - simpl. destruct root as [data|entries]; [discriminate|].
    unfold entry_lookup.
    destruct (List.find _ entries) as [e|] eqn:Ef; simpl; [|discriminate].
    apply IH. apply find_some in Ef as [He _].
    simpl in Hroot. apply andb_true_iff in Hroot as [_ Hall].
    rewrite forallb_forall in Hall. by apply Hall.
Qed.

(** *** The loop of the validator *)

Section Pairs.

Context (fs : filesystem) (ext : externals).

Lemma check_version_unit_fresh u st s :
  visible fs (vu_version_dir u) = true ->
  vu_key u ∉ transform_ids st ->
  check_version_unit fs ext u st s = validate_version_unit fs ext u st s.
Proof.
  intros Hv Hin. unfold check_version_unit, check_version_dir, validate_version_unit.
  rewrite negb_visible, Hv. cbv zeta. cbn [negb]. cbv beta iota.
  fold (vu_id u). fold (vu_key u). rewrite (bool_decide_eq_false_2 _ Hin). reflexivity.
Qed.

Lemma validate_version_unit_ids u st s st' s' :
  validate_version_unit fs ext u st s = (Return st', s') ->
  transform_ids st' = transform_ids st ∪ {[ vu_key u ]}.
Proof.
  unfold validate_version_unit. intros E.
  apply vbind_Return in E as (ok & s1 & _ & E).
  destruct ok; cbn [negb] in E; cbv [vret] in E; by injection E as <- _.
Qed.

Lemma vfor_version_units_fresh l st s :
  Forall (fun u => visible fs (vu_version_dir u) = true) l ->
  NoDup (vu_key <$> l) ->
  (forall u, u ∈ l -> vu_key u ∉ transform_ids st) ->
  vfor l (check_version_unit fs ext) st s = vfor l (validate_version_unit fs ext) st s.
Proof.
  revert st s. induction l as [|u l IH]; intros st s Hall Hnd Hfresh; [reflexivity|].
  inversion Hall as [|? ? Hv Hall']; subst.
  rewrite fmap_cons in Hnd. apply NoDup_cons in Hnd as [Hu Hnd].
  rewrite !vfor_cons. unfold vbind.
  rewrite (check_version_unit_fresh u st s Hv) by (apply Hfresh; by left).
  destruct (validate_version_unit fs ext u st s) as [[st1|e] s1] eqn:E; [|reflexivity].
  apply (IH st1 s1 Hall' Hnd). intros u' Hu'.
  rewrite (validate_version_unit_ids _ _ _ _ _ E).
  intros Hin. apply elem_of_union in Hin as [Hin|Hin].
  - revert Hin. apply Hfresh. by right.
  - apply elem_of_singleton in Hin. apply Hu. rewrite <- Hin.
    apply list_elem_of_fmap. by exists u'.
Qed.

(** A version directory that validates declares the names of its
    directories. *)
Lemma validated_declares u items :
  validated fs ext u ->
  declared_meta fs ext u = Return (PDict items) ->
  dict_find "id" items = Some (PStr (vu_id u))
  /\ dict_find "version" items = Some (PStr (path_name (vu_version_dir u))).
Proof.
  intros (s & s' & E) Hm.
  destruct (validate_transform_steps fs ext _ _ _ _ _ E)
    as (_ & _ & _ & _ & items' & Hload & _ & E2 & E3 & _).
  unfold declared_meta in Hm. rewrite Hm in Hload. injection Hload as <-.
  split; [by eapply check_id_fact | by eapply check_version_fact].
Qed.

(** C8, amended. The pair the validator tracks for a version directory is
    made of the names of the directories, not of what the metadata declares.
    On a file system whose directories list each of their names once, a
    traversal yields no pair twice and the membership test never succeeds:
    [check_transforms] is the loop that validates every visited version
    directory, and the duplicate error is not recorded. Two version
    directories with different names whose metadata declare the same id and
    the same version are not duplicates for the validator, and they do not
    both validate. *)
Theorem pairs_are_directory_names :
  (forall (s : RegistryValidator) (units : list transform_unit),
      well_listed fs ->
      fs_exists fs (transforms_dir s) = true ->
      transform_units fs (transforms_dir s) = Return units ->
      NoDup (vu_key <$> version_units fs units)
      /\ check_transforms fs ext s
         = (st <- vfor (version_units fs units) (validate_version_unit fs ext)
                    transforms_locals_init ;;
            print ("  ✓ Validated " +:+ str_of_nat (transform_count st) +:+ " transforms") ;;
            vret (tl_success st))%V (with_line "Checking transforms..." s))
  /\ (forall (u1 u2 : version_unit) (items1 items2 : list (pyval * pyval)),
        vu_key u1 <> vu_key u2 ->
        declared_meta fs ext u1 = Return (PDict items1) ->
        declared_meta fs ext u2 = Return (PDict items2) ->
        dict_find "id" items1 = dict_find "id" items2 ->
        dict_find "version" items1 = dict_find "version" items2 ->
        ~ (validated fs ext u1 /\ validated fs ext u2)).
Proof.
  split.
  - intros s units Hwl He Hu.
    pose proof (version_units_keys_distinct fs Hwl _ units Hu) as Hnd.
    split; [exact Hnd|].
    rewrite (check_transforms_units fs ext s units He Hu).
    unfold vbind at 1 3.
    rewrite vfor_version_units_fresh; [reflexivity | | exact Hnd |].
    + apply Forall_forall. intros u. apply version_units_visible.
    + intros u _. unfold transforms_locals_init. simpl. apply not_elem_of_empty.
  - intros u1 u2 items1 items2 Hne H1 H2 Hid Hv [V1 V2].
    destruct (validated_declares u1 items1 V1 H1) as [I1 W1].
    destruct (validated_declares u2 items2 V2 H2) as [I2 W2].
    apply Hne. unfold vu_key.
    rewrite I1, I2 in Hid. rewrite W1, W2 in Hv.
    injection Hid as ->. injection Hv as ->. reflexivity.
Qed.

End Pairs.

(** C8, as stated, fails when the pair is read from the metadata: the
    version directories [1.0.0] and [1.1.0] both declare
    [payments/normalize_amount] in version [1.0.0]. No duplicate error is
    recorded; the second directory is not skipped, its checks run and record
    the version mismatch. *)
Lemma same_declared_pair_is_no_duplicate :
  let fs := fs_of_tree same_pair_tree in
  let transform := MkPath "/" ["repo"; "transforms"; "payments"; "normalize_amount"] in
  let u1 := {| vu_category := MkPath "/" ["repo"; "transforms"; "payments"];
               vu_transform := transform;
               vu_version_dir := path_child transform "1.0.0" |} in
  let u2 := {| vu_category := MkPath "/" ["repo"; "transforms"; "payments"];
               vu_transform := transform;
               vu_version_dir := path_child transform "1.1.0" |} in
  let run := check_transforms fs ext0 (RegistryValidator_init ext0 repo) in
  declared_meta fs ext0 u1 = declared_meta fs ext0 u2
  /\ declared_meta fs ext0 u1
     = Return (meta_doc "payments/normalize_amount" "1.0.0" dollar_digest)
  /\ fst run = Return false
  /\ errors (snd run)
     = ["payments/normalize_amount@1.1.0: Version mismatch (expected 1.1.0, got 1.0.0)"]
  /\ stdout (snd run) = ["Checking transforms..."; "  ✓ Validated 1 transforms"].
Proof.
  cbv zeta. repeat split; vm_compute; reflexivity.
Qed.

Lemma pairs_are_directory_names_witness :
  let fs := fs_of_tree same_pair_tree in
  let s0 := RegistryValidator_init ext0 repo in
  exists units,
    transform_units fs (transforms_dir s0) = Return units
    /\ NoDup (vu_key <$> version_units fs units)
    /\ check_transforms fs ext0 s0
       = (st <- vfor (version_units fs units) (validate_version_unit fs ext0)
                  transforms_locals_init ;;
          print ("  ✓ Validated " +:+ str_of_nat (transform_count st) +:+ " transforms") ;;
          vret (tl_success st))%V (with_line "Checking transforms..." s0).
Proof.
  cbv zeta.
  destruct (transform_units (fs_of_tree same_pair_tree)
              (transforms_dir (RegistryValidator_init ext0 repo))) as [units|e] eqn:Hu;
    [|vm_compute in Hu; discriminate Hu].
  exists units. split; [reflexivity|].
  apply (proj1 (pairs_are_directory_names (fs_of_tree same_pair_tree) ext0)).
  - apply well_listed_of_tree. vm_compute. reflexivity.
  - vm_compute. reflexivity.
  - exact Hu.
Defined.

(** ** The order of the versions in the index *)

(** *** Stable sorting by an order that holds of the sorted elements *)

Section StableSortOn.

Context {A : Type}.



Context (before : A -> A -> bool).





End StableSortOn.

(** *** The sort of the versions *)










(** *** Version values that are strings, or numbers *)

Lemma version_lt_strings a b :
  is_Some (version_str a) -> is_Some (version_str b) ->
  version_lt a b = String.ltb (version_string a) (version_string b).
Proof.
  intros [x Hx] [y Hy]. unfold version_lt, version_key, version_string.
  rewrite Hx, Hy. by rewrite (version_str_key a x Hx), (version_str_key b y Hy).
Qed.




(** Distinct strings are strictly ordered, and so are distinct numbers. *)
Lemma distinct_strings_strictly_ordered l :
  Forall (fun v => is_Some (version_str v)) l ->
  NoDup (version_string <$> l) ->
  strictly_ordered l.
Proof.
  intros Hall Hnd. rewrite Forall_forall in Hall. split; [|split].
  - intros a b Ha Hb. rewrite !version_lt_strings by (by apply Hall).
    intros H1 H2. apply (NoDup_fmap_inj_on version_string l); try done.
    by apply str_ltb_total.
  - intros a b Ha Hb. rewrite !version_lt_strings by (by apply Hall).
    apply str_ltb_asym.
  - intros a b c Ha Hb Hc. rewrite !version_lt_strings by (by apply Hall).
    apply str_ltb_trans.
Qed.



(** *** The index of the transforms *)


Section OrderedIndex.

Context (fs1 fs2 : filesystem) (ext : externals) (self : IndexGenerator).
Context (Hsnap : same_snapshot fs1 fs2).


End OrderedIndex.

Section VersionOrder.

Context (fs : filesystem) (ext : externals) (self : IndexGenerator).


End VersionOrder.




(** *** Determinism *)

Section StableIndex.

Context (fs : filesystem) (ext : externals) (root : Path).


End StableIndex.



